(** * SimpleFS: a shallow embedding of [simple-file-system/src/fs.c] and
    [simple-file-system/src/disk.c], and the properties of its operations.

    The C code is translated function by function.  Machine integers are
    mathematical integers with their wrap-around written out, a block is the
    list of its bytes, and the [union Block] views (super block, inode table,
    pointer table) are decoded from those bytes.  Behaviour the C standard
    leaves undefined (a store outside the free-block bitmap, a [memcpy]
    outside its buffers, a dereference of a null bitmap) is the outcome
    [Undef]. *)

From Stdlib Require Import ZArith Lia List Bool.
From stdpp Require Import base tactics option list list_numbers numbers
  strings pretty.

Open Scope Z_scope.

(** ** Geometry of the file system *)

(** Modelled from the spec: the headers [sfs/disk.h] and [sfs/fs.h] are not
    among the sources, so the constants they define are the fields of a
    class; every definition below is generic in them.  The spec fixes their
    roles (block size, inodes per block, direct pointers per inode, pointers
    per indirect block, magic value of the super block) but not their
    values. *)
Class Geometry := {
  BLOCK_SIZE : Z;
  INODES_PER_BLOCK : Z;
  POINTERS_PER_INODE : Z;
  POINTERS_PER_BLOCK : Z;
  MAGIC_NUMBER : Z
}.

(** Modelled from the spec: an inode record is a validity flag, a size, the
    direct pointers and one indirect pointer, each a 32-bit unsigned integer,
    laid out back to back. *)
Definition INODE_WORDS `{Geometry} : Z := POINTERS_PER_INODE + 3.

(** The constraints a header has to satisfy for the union [Block] to make
    sense: the three views fit into the bytes of a block, and the constants
    are positive [int]s. *)
Record GeometryOk (G : Geometry) : Prop := {
  ok_pointers_per_inode : 0 < POINTERS_PER_INODE;
  ok_inodes_per_block : 0 < INODES_PER_BLOCK;
  ok_pointers_per_block : 0 < POINTERS_PER_BLOCK;
  ok_super_fits : 16 <= BLOCK_SIZE;
  ok_inodes_fit : 4 * (INODE_WORDS * INODES_PER_BLOCK) <= BLOCK_SIZE;
  ok_pointers_fit : 4 * POINTERS_PER_BLOCK <= BLOCK_SIZE;
  ok_block_size_int : BLOCK_SIZE < 2 ^ 31;
  ok_magic : 0 < MAGIC_NUMBER < 2 ^ 32
}.

(** The values of the reference SimpleFS layout: 4 KiB blocks of 128 inodes
    ("you must multiply by 128" in [fs_create]) with five direct pointers. *)
Definition reference_geometry : Geometry := {|
  BLOCK_SIZE := 4096;
  INODES_PER_BLOCK := 128;
  POINTERS_PER_INODE := 5;
  POINTERS_PER_BLOCK := 1024;
  MAGIC_NUMBER := 0xf0f03410
|}.

(** A small layout with the same shape: 32-byte blocks of two 16-byte inodes
    with one direct pointer, eight pointers in an indirect block. *)
Definition small_geometry : Geometry := {|
  BLOCK_SIZE := 32;
  INODES_PER_BLOCK := 2;
  POINTERS_PER_INODE := 1;
  POINTERS_PER_BLOCK := 8;
  MAGIC_NUMBER := 0xf0f03410
|}.

(** ** Machine integers *)

Definition wrap32 (z : Z) : Z := z mod 2 ^ 32.
Definition wrap64 (z : Z) : Z := z mod 2 ^ 64.

(** Conversion of an unsigned value to [int], as the loop counters
    [int i = ...] of [fs_write] do it. *)
Definition to_int (z : Z) : Z := (z + 2 ^ 31) mod 2 ^ 32 - 2 ^ 31.

(** ** Blocks and their views *)

(** [char data[BLOCK_SIZE]]: the bytes of a block. *)
Abbreviation Block := (list Z) (only parsing).

Definition byte_at (b : Block) (i : Z) : Z :=
  if i <? 0 then 0 else default 0 (b !! Z.to_nat i) mod 256.

(** The [w]-th [uint32_t] of a block (little endian, as the code is built
    for). *)
Definition get_u32 (b : Block) (w : Z) : Z :=
  byte_at b (4 * w) + 2 ^ 8 * byte_at b (4 * w + 1)
  + 2 ^ 16 * byte_at b (4 * w + 2) + 2 ^ 24 * byte_at b (4 * w + 3).

Definition set_u32 (b : Block) (w : Z) (v : Z) : Block :=
  let n := Z.to_nat (4 * w) in
  <[(n + 3)%nat := (v / 2 ^ 24) mod 256]>
    (<[(n + 2)%nat := (v / 2 ^ 16) mod 256]>
      (<[(n + 1)%nat := (v / 2 ^ 8) mod 256]>
        (<[n := v mod 256]> b))).

(** Consecutive words, for the arrays inside the views. *)
Fixpoint set_words (b : Block) (w : Z) (vs : list Z) : Block :=
  match vs with
  | [] => b
  | v :: vs' => set_words (set_u32 b w v) (w + 1) vs'
  end.

Definition get_words (b : Block) (w : Z) (n : Z) : list Z :=
  (fun k => get_u32 b (w + k)) <$> seqZ 0 n.

Section Views.
Context `{G : Geometry}.

Definition block_ok (b : Block) : Prop := Z.of_nat (length b) = BLOCK_SIZE.

(** [Block empty_block = {{0}}]. *)
Definition empty_block : Block := replicate (Z.to_nat BLOCK_SIZE) 0.

(** [struct SuperBlock]. *)
Record SuperBlock := mkSuperBlock {
  magic_number : Z;
  blocks : Z;
  inode_blocks : Z;
  inodes : Z
}.

(** [struct Inode]. *)
Record Inode := mkInode {
  valid : Z;
  size : Z;
  direct : list Z;
  indirect : Z
}.

(** [block.super]. *)
Definition get_super (b : Block) : SuperBlock :=
  {| magic_number := get_u32 b 0; blocks := get_u32 b 1;
     inode_blocks := get_u32 b 2; inodes := get_u32 b 3 |}.

Definition set_super (b : Block) (sb : SuperBlock) : Block :=
  set_words b 0 [magic_number sb; blocks sb; inode_blocks sb; inodes sb].

(** [block.inodes[j]]. *)
Definition get_inode (b : Block) (j : Z) : Inode :=
  let w := j * INODE_WORDS in
  {| valid := get_u32 b w; size := get_u32 b (w + 1);
     direct := get_words b (w + 2) POINTERS_PER_INODE;
     indirect := get_u32 b (w + 2 + POINTERS_PER_INODE) |}.

(** [block.inodes[j] = inode]. *)
Definition set_inode (b : Block) (j : Z) (inode : Inode) : Block :=
  let w := j * INODE_WORDS in
  set_u32
    (set_words (set_u32 (set_u32 b w (valid inode)) (w + 1) (size inode))
       (w + 2) (take (Z.to_nat POINTERS_PER_INODE) (direct inode)))
    (w + 2 + POINTERS_PER_INODE) (indirect inode).

(** [inode.direct[i]]. *)
Definition direct_at (inode : Inode) (i : Z) : Z :=
  default 0 (direct inode !! Z.to_nat i).

(** [block.pointers]. *)
Definition get_pointers (b : Block) : list Z := get_words b 0 POINTERS_PER_BLOCK.

(** [Inode iblank = {0}]. *)
Definition iblank : Inode :=
  {| valid := 0; size := 0;
     direct := replicate (Z.to_nat POINTERS_PER_INODE) 0; indirect := 0 |}.

End Views.

(** ** The disk emulator ([disk.c]) *)

(** [struct Disk].  The backing file is the list of its blocks;
    [disk_open] truncates the file to [blocks * BLOCK_SIZE] bytes and nothing
    resizes it afterwards, so the block count of the structure is the length
    of that list.  [disk_faults] is the environment: the outcome of the
    coming [lseek]/[read]/[write] system calls, [true] for a call that
    fails; a call beyond the list succeeds. *)
Record Disk := mkDisk {
  disk_image : list Block;
  disk_reads : Z;
  disk_writes : Z;
  disk_faults : list bool
}.

Definition disk_blocks (d : Disk) : Z := Z.of_nat (length (disk_image d)).

Definition DISK_FAILURE : Z := -1.

(** The device of [disk_open path blocks] over a file of zero bytes. *)
Definition blank_disk `{Geometry} (n : Z) : Disk :=
  {| disk_image := replicate (Z.to_nat n) empty_block;
     disk_reads := 0; disk_writes := 0; disk_faults := [] |}.

Section DiskOps.
Context `{G : Geometry}.

(** Callers pass the address of a local [Block], so [data] is never null. *)
Definition disk_sanity_check (disk : option Disk) (block : Z) : bool :=
  match disk with
  | None => false
  | Some d =>
      if (block <? 0) || (block >=? disk_blocks d) then false else true
  end.

(** One round of system calls: consumes the next outcome of the
    environment. *)
Definition syscalls (d : Disk) : bool * Disk :=
  match disk_faults d with
  | [] => (true, d)
  | failed :: rest =>
      (negb failed,
       {| disk_image := disk_image d; disk_reads := disk_reads d;
          disk_writes := disk_writes d; disk_faults := rest |})
  end.

(** [disk_read]: result, disk, and the buffer (left as it was on failure). *)
Definition disk_read (disk : option Disk) (block : Z) (data : Block)
  : Z * option Disk * Block :=
  match disk with
  | Some d =>
      if negb (disk_sanity_check disk block) then (DISK_FAILURE, disk, data)
      else
        let '(ok, d1) := syscalls d in
        match ok, disk_image d1 !! Z.to_nat block with
        | true, Some b =>
            (BLOCK_SIZE,
             Some {| disk_image := disk_image d1;
                     disk_reads := disk_reads d1 + 1;
                     disk_writes := disk_writes d1;
                     disk_faults := disk_faults d1 |},
             b)
        | _, _ => (DISK_FAILURE, Some d1, data)
        end
  | None => (DISK_FAILURE, disk, data)
  end.

(** [disk_write]: result and disk. *)
Definition disk_write (disk : option Disk) (block : Z) (data : Block)
  : Z * option Disk :=
  match disk with
  | Some d =>
      if negb (disk_sanity_check disk block) then (DISK_FAILURE, disk)
      else
        let '(ok, d1) := syscalls d in
        if ok then
          (BLOCK_SIZE,
           Some {| disk_image := <[Z.to_nat block := data]> (disk_image d1);
                   disk_reads := disk_reads d1;
                   disk_writes := disk_writes d1 + 1;
                   disk_faults := disk_faults d1 |})
        else (DISK_FAILURE, Some d1)
  | None => (DISK_FAILURE, disk)
  end.

End DiskOps.

(** ** The file system ([fs.c]) *)

(** Outcome of a function that can run into undefined behaviour. *)
Inductive result (A : Type) : Type :=
| Ok (a : A)
| Undef.
Arguments Ok {A} a.
Arguments Undef {A}.

(** Sequencing: the continuation runs on a defined outcome. *)
Notation "'do' x <- r ; k" :=
  (match r with
   | Ok x => k
   | Undef => Undef
   end)
  (at level 10, x pattern, r at level 100, k at level 200, only parsing).

Section FileSystem.
Context `{G : Geometry}.

(** [struct FileSystem]: the bound disk (null when unmounted), the cached
    super block and the free-block bitmap (null when unmounted). *)
Record FileSystem := mkFileSystem {
  disk : option Disk;
  meta_data : SuperBlock;
  free_blocks : option (list bool)
}.

Definition set_disk (fs : FileSystem) (d : option Disk) : FileSystem :=
  {| disk := d; meta_data := meta_data fs; free_blocks := free_blocks fs |}.

Definition set_free_blocks (fs : FileSystem) (bm : option (list bool))
  : FileSystem :=
  {| disk := disk fs; meta_data := meta_data fs; free_blocks := bm |}.

(** A file system structure that was never mounted. *)
Definition unmounted : FileSystem :=
  {| disk := None; meta_data := mkSuperBlock 0 0 0 0; free_blocks := None |}.

(** [fs->free_blocks[i] = v]: undefined on a null bitmap and outside the
    [calloc]ed bytes. *)
Definition bitmap_store (bm : option (list bool)) (i : Z) (v : bool)
  : result (option (list bool)) :=
  match bm with
  | Some l =>
      if (0 <=? i) && (i <? Z.of_nat (length l))
      then Ok (Some (<[Z.to_nat i := v]> l)) else Undef
  | None => Undef
  end.

(** [fs->free_blocks[i]]. *)
Definition bitmap_load (bm : option (list bool)) (i : Z) : result bool :=
  match bm with
  | Some l =>
      match l !! Z.to_nat i with
      | Some v => if 0 <=? i then Ok v else Undef
      | None => Undef
      end
  | None => Undef
  end.

(** *** [fs_format] *)

(** The loop [for (int i = 1; i < blocks; i++)] of [fs_format], over the
    remaining block numbers. *)
Fixpoint format_clear (ns : list Z) (disk : option Disk) : bool * option Disk :=
  match ns with
  | [] => (true, disk)
  | i :: rest =>
      let '(r, disk1) := disk_write disk i empty_block in
      if negb (r =? BLOCK_SIZE) then (false, disk1)
      else format_clear rest disk1
  end.

(** [fs_format].  The source's [if] of the rounding lost its opening brace
    to the comment on the same line; it is read as the [if]/[else] its
    layout shows.  No statement of the function writes block 0. *)
Definition fs_format (fs : FileSystem) (d : Disk) : bool * FileSystem * option Disk :=
  match free_blocks fs with
  | Some _ => (false, fs, Some d)
  | None =>
      let nblocks := wrap32 (disk_blocks d) in
      let iblocks :=
        if nblocks mod 10 =? 0 then nblocks / 10 else nblocks / 10 + 1 in
      let fs1 :=
        {| disk := disk fs;
           meta_data :=
             {| magic_number := wrap32 MAGIC_NUMBER; blocks := nblocks;
                inode_blocks := iblocks;
                inodes := wrap32 (iblocks * INODES_PER_BLOCK) |};
           free_blocks := free_blocks fs |} in
      let '(r, disk1) := format_clear (seqZ 1 (nblocks - 1)) (Some d) in
      (r, fs1, disk1)
  end.

(** *** Inode table access *)

(** [fs_load_inode]: the inode when the function returns [true]. *)
Definition fs_load_inode (fs : FileSystem) (inode_number : Z)
  : option Inode * FileSystem :=
  let block_num := inode_number / INODES_PER_BLOCK + 1 in
  let block_index := inode_number - (block_num - 1) * INODES_PER_BLOCK in
  let '(r, d1, ib) := disk_read (disk fs) block_num empty_block in
  if r =? DISK_FAILURE then (None, set_disk fs d1)
  else
    let node := get_inode ib block_index in
    if valid node =? 0 then (None, set_disk fs d1)
    else (Some node, set_disk fs d1).

(** [fs_save_inode]. *)
Definition fs_save_inode (fs : FileSystem) (inode_number : Z) (node : Inode)
  : bool * FileSystem :=
  let block_num := inode_number / INODES_PER_BLOCK + 1 in
  let block_index := inode_number - (block_num - 1) * INODES_PER_BLOCK in
  let '(r, d1, ib) := disk_read (disk fs) block_num empty_block in
  if r =? DISK_FAILURE then (false, set_disk fs d1)
  else
    let ib1 := set_inode ib block_index node in
    let '(r2, d2) := disk_write d1 block_num ib1 in
    if r2 =? DISK_FAILURE then (false, set_disk fs d2)
    else (true, set_disk fs d2).

(** *** [fs_mount] *)

(** [fs_initialize_free_block_bitmap]. *)
Definition fs_initialize_free_block_bitmap (fs : FileSystem) (sb : Block)
  : FileSystem :=
  set_free_blocks fs
    (Some ((fun i => negb (i <=? inode_blocks (get_super sb)))
             <$> seqZ 0 (blocks (get_super sb)))).

(** [if (p) fs->free_blocks[p] = false] for every pointer of an array. *)
Fixpoint mark_used (ptrs : list Z) (bm : option (list bool))
  : result (option (list bool)) :=
  match ptrs with
  | [] => Ok bm
  | p :: rest =>
      if p =? 0 then mark_used rest bm
      else do bm1 <- bitmap_store bm p false; mark_used rest bm1
  end.

(** The body of the slot loop of [fs_mount]; [false] is its
    [return false]. *)
Definition mount_inode (inode : Inode) (fs : FileSystem) (indirect_blk : Block)
  : result (bool * FileSystem * Block) :=
  if valid inode =? 0 then Ok (true, fs, indirect_blk)
  else
    do bm1 <- mark_used (direct inode) (free_blocks fs);
    if indirect inode =? 0 then Ok (true, set_free_blocks fs bm1, indirect_blk)
    else
      do bm2 <- bitmap_store bm1 (indirect inode) false;
      let '(r, d1, blk) := disk_read (disk fs) (indirect inode) indirect_blk in
      if r =? DISK_FAILURE
      then Ok (false, set_free_blocks (set_disk fs d1) bm2, blk)
      else
        do bm3 <- mark_used (get_pointers blk) bm2;
        Ok (true, set_free_blocks (set_disk fs d1) bm3, blk).

Fixpoint mount_slots (js : list Z) (inode_blk : Block) (fs : FileSystem)
    (indirect_blk : Block) : result (bool * FileSystem * Block) :=
  match js with
  | [] => Ok (true, fs, indirect_blk)
  | j :: rest =>
      do (go, fs1, blk) <- mount_inode (get_inode inode_blk j) fs indirect_blk;
      if go then mount_slots rest inode_blk fs1 blk
      else Ok (false, fs1, blk)
  end.

(** The walk over the inode table; the result of its [disk_read] is not
    looked at. *)
Fixpoint mount_blocks (ns : list Z) (fs : FileSystem)
    (inode_blk indirect_blk : Block) : result (bool * FileSystem) :=
  match ns with
  | [] => Ok (true, fs)
  | i :: rest =>
      let '(_, d1, blk) := disk_read (disk fs) i inode_blk in
      do (go, fs1, iblk) <-
        mount_slots (seqZ 0 INODES_PER_BLOCK) blk (set_disk fs d1) indirect_blk;
      if go then mount_blocks rest fs1 blk iblk
      else Ok (false, fs1)
  end.

(** [fs_mount].  [uninit] is what the uninitialised locals [inode_blk] and
    [indirect_blk] hold.  The result carries the structure and the caller's
    disk; once [fs->disk = disk] is done the two are one object, kept in
    the structure. *)
Definition fs_mount (fs : FileSystem) (d : option Disk) (uninit : Block)
  : result (bool * FileSystem * option Disk) :=
  match free_blocks fs with
  | Some _ => Ok (false, fs, d)
  | None =>
      match d with
      | None => Ok (false, fs, d)
      | Some _ =>
          let '(r, d1, sb) := disk_read d 0 uninit in
          if r =? DISK_FAILURE then Ok (false, fs, d1)
          else if negb (magic_number (get_super sb) =? wrap32 MAGIC_NUMBER)
          then Ok (false, fs, d1)
          else if negb (blocks (get_super sb) =? default 0 (disk_blocks <$> d1))
          then Ok (false, fs, d1)
          else if negb (inode_blocks (get_super sb) =?
                         blocks (get_super sb) / 10 +
                         (if blocks (get_super sb) mod 10 =? 0 then 0 else 1))
          then Ok (false, fs, d1)
          else if negb (inodes (get_super sb) =?
                         wrap32 (inode_blocks (get_super sb) * INODES_PER_BLOCK))
          then Ok (false, fs, d1)
          else
            let fs1 :=
              {| disk := d1; meta_data := get_super sb;
                 free_blocks := free_blocks fs |} in
            let fs2 := fs_initialize_free_block_bitmap fs1 sb in
            do (ok, fs3) <-
              mount_blocks (seqZ 1 (inode_blocks (get_super sb))) fs2
                uninit uninit;
            Ok (ok, fs3, disk fs3)
      end
  end.

(** [fs_unmount]. *)
Definition fs_unmount (fs : FileSystem) : FileSystem :=
  {| disk := None; meta_data := meta_data fs; free_blocks := None |}.

(** *** [fs_create] *)

Fixpoint create_slots (js : list Z) (i : Z) (block : Block) (d : option Disk)
  : option Z * Block * option Disk :=
  match js with
  | [] => (None, block, d)
  | j :: rest =>
      if valid (get_inode block j) =? 0 then
        let block1 := set_u32 block (j * INODE_WORDS) 1 in
        let '(r, d1) := disk_write d i block1 in
        if r =? BLOCK_SIZE then (Some (j + (i - 1) * INODES_PER_BLOCK), block1, d1)
        else create_slots rest i block1 d1
      else create_slots rest i block d
  end.

Fixpoint create_blocks (ns : list Z) (block : Block) (d : option Disk)
  : Z * option Disk :=
  match ns with
  | [] => (-1, d)
  | i :: rest =>
      let '(r, d1, block1) := disk_read d i block in
      if r =? BLOCK_SIZE then
        match create_slots (seqZ 0 INODES_PER_BLOCK) i block1 d1 with
        | (Some n, _, d2) => (n, d2)
        | (None, block2, d2) => create_blocks rest block2 d2
        end
      else create_blocks rest block1 d1
  end.

(** [fs_create]. *)
Definition fs_create (fs : FileSystem) : Z * FileSystem :=
  let '(n, d) :=
    create_blocks (seqZ 1 (inode_blocks (meta_data fs))) empty_block (disk fs) in
  (n, set_disk fs d).

(** *** [fs_remove] *)

(** [if (p) { write blank or return false; fs->free_blocks[p] = true; }]
    for every pointer of an array: the loop over the direct pointers and
    the loop over the entries of the indirect block. *)
Fixpoint release_blocks (ptrs : list Z) (fs : FileSystem)
  : result (bool * FileSystem) :=
  match ptrs with
  | [] => Ok (true, fs)
  | p :: rest =>
      if p =? 0 then release_blocks rest fs
      else
        let '(r, d1) := disk_write (disk fs) p empty_block in
        if r =? DISK_FAILURE then Ok (false, set_disk fs d1)
        else
          do bm <- bitmap_store (free_blocks fs) p true;
          release_blocks rest (set_free_blocks (set_disk fs d1) bm)
  end.

(** The [if (inode.indirect)] part of [fs_remove]. *)
Definition release_indirect (inode : Inode) (fs : FileSystem)
  : result (bool * FileSystem) :=
  if indirect inode =? 0 then Ok (true, fs)
  else
    do bm <- bitmap_store (free_blocks fs) (indirect inode) true;
    let '(r, d1, block) := disk_read (disk fs) (indirect inode) empty_block in
    if r =? DISK_FAILURE then Ok (false, set_free_blocks (set_disk fs d1) bm)
    else
      do (ok, fs1) <-
        release_blocks (get_pointers block) (set_free_blocks (set_disk fs d1) bm);
      if negb ok then Ok (false, fs1)
      else
        let '(r2, d2) := disk_write (disk fs1) (indirect inode) empty_block in
        if r2 =? DISK_FAILURE then Ok (false, set_disk fs1 d2)
        else Ok (true, set_disk fs1 d2).

(** [fs_remove]. *)
Definition fs_remove (fs : FileSystem) (inode_number : Z)
  : result (bool * FileSystem) :=
  match fs_load_inode fs inode_number with
  | (None, fs1) => Ok (false, fs1)
  | (Some inode, fs1) =>
      do (ok, fs2) <- release_blocks (direct inode) fs1;
      if negb ok then Ok (false, fs2)
      else
        do (ok2, fs3) <- release_indirect inode fs2;
        if negb ok2 then Ok (false, fs3)
        else Ok (true, (fs_save_inode fs3 inode_number iblank).2)
  end.

(** *** [fs_stat] *)

Definition fs_stat (fs : FileSystem) (inode_number : Z) : Z * FileSystem :=
  match fs_load_inode fs inode_number with
  | (None, fs1) => (-1, fs1)
  | (Some inode, fs1) => (size inode, fs1)
  end.

(** *** [fs_read] *)

(** [memcpy (dst + doff, src + soff, n)]: undefined when it leaves either
    array. *)
Definition memcpy (dst : list Z) (doff : Z) (src : list Z) (soff n : Z)
  : result (list Z) :=
  if (0 <=? n) && (0 <=? doff) && (0 <=? soff)
     && (doff + n <=? Z.of_nat (length dst))
     && (soff + n <=? Z.of_nat (length src))
  then Ok (take (Z.to_nat doff) dst
             ++ take (Z.to_nat n) (drop (Z.to_nat soff) src)
             ++ drop (Z.to_nat (doff + n)) dst)
  else Undef.

(** [block.pointers[i]]. *)
Definition pointer_at (b : Block) (i : Z) : result Z :=
  if (0 <=? i) && (i <? POINTERS_PER_BLOCK) then Ok (get_u32 b i) else Undef.

(** The copy out of one resolved block, the same statements in both
    branches of [fs_read]: [to_read] is [BLOCK_SIZE] unless
    [inode.size - offset], computed in [size_t], is smaller. *)
Definition read_chunk (fs : FileSystem) (inode : Inode) (ptr : Z)
    (data : list Z) (offset block_pos : Z) : result (Z * FileSystem * list Z) :=
  let '(r, d1, read_block) := disk_read (disk fs) ptr empty_block in
  if r =? DISK_FAILURE then Ok (-1, set_disk fs d1, data)
  else
    let avail := wrap64 (size inode - offset) in
    let to_read := if BLOCK_SIZE >? avail then avail else BLOCK_SIZE in
    do data1 <- memcpy data 0 read_block block_pos to_read;
    Ok (to_read, set_disk fs d1, data1).

(** [fs_read]: the value returned, the structure, and the caller's buffer
    [data].  Whether or not [bytes_read == length], the function returns
    [bytes_read] after the one block it copies. *)
Definition fs_read (fs : FileSystem) (inode_number : Z) (data : list Z)
    (len offset : Z) : result (Z * FileSystem * list Z) :=
  match fs_load_inode fs inode_number with
  | (None, fs1) => Ok (-1, fs1, data)
  | (Some inode, fs1) =>
      let curr_iblk := offset / BLOCK_SIZE in
      let block_pos := offset mod BLOCK_SIZE in
      if inode_number >=?
           wrap32 (inode_blocks (meta_data fs1) * INODES_PER_BLOCK)
      then Ok (-1, fs1, data)
      else
        match free_blocks fs1 with
        | None => Ok (-1, fs1, data)
        | Some _ =>
            if curr_iblk <? POINTERS_PER_INODE then
              read_chunk fs1 inode (direct_at inode curr_iblk)
                data offset block_pos
            else if indirect inode =? 0 then Ok (-1, fs1, data)
            else
              let '(r, d1, ind_blk) :=
                disk_read (disk fs1) (indirect inode) empty_block in
              if r =? DISK_FAILURE then Ok (-1, set_disk fs1 d1, data)
              else
                do ptr <- pointer_at ind_blk (curr_iblk - POINTERS_PER_INODE);
                if ptr =? 0 then Ok (0, set_disk fs1 d1, data)
                else read_chunk (set_disk fs1 d1) inode ptr data offset block_pos
        end
  end.

(** *** [fs_find_free] *)

Fixpoint find_free_scan (ns : list Z) (fs : FileSystem)
  : result (Z * FileSystem) :=
  match ns with
  | [] => Ok (0, fs)
  | i :: rest =>
      do free <- bitmap_load (free_blocks fs) i;
      if free : bool then
        do bm <- bitmap_store (free_blocks fs) i false;
        let '(r, d1) := disk_write (disk fs) i empty_block in
        if r =? DISK_FAILURE then Ok (0, set_free_blocks (set_disk fs d1) bm)
        else Ok (i, set_free_blocks (set_disk fs d1) bm)
      else find_free_scan rest fs
  end.

(** [fs_find_free]. *)
Definition fs_find_free (fs : FileSystem) : result (Z * FileSystem) :=
  find_free_scan (seqZ 0 (blocks (meta_data fs))) fs.

(** *** [fs_write] *)

Definition set_direct (inode : Inode) (i : Z) (p : Z) : Inode :=
  {| valid := valid inode; size := size inode;
     direct := <[Z.to_nat i := p]> (direct inode);
     indirect := indirect inode |}.

Definition set_indirect (inode : Inode) (p : Z) : Inode :=
  {| valid := valid inode; size := size inode; direct := direct inode;
     indirect := p |}.

Definition set_size (inode : Inode) (n : Z) : Inode :=
  {| valid := valid inode; size := n; direct := direct inode;
     indirect := indirect inode |}.

(** The read-modify-write of one block, the same statements in both loops
    of [fs_write]: neither disk result is looked at, and the [memcpy]
    targets the start of the staging block. *)
Definition write_chunk (fs : FileSystem) (ptr : Z) (data : list Z)
    (len bytes_written block_pos : Z) (uninit : Block)
  : result (Z * FileSystem) :=
  let '(_, d1, old_data) := disk_read (disk fs) ptr uninit in
  let to_write :=
    if BLOCK_SIZE - block_pos <=? len - bytes_written
    then BLOCK_SIZE - block_pos else len - bytes_written in
  do staged <- memcpy old_data 0 data bytes_written to_write;
  let '(_, d2) := disk_write d1 ptr staged in
  Ok (to_write, set_disk fs d2).

(** The state of the loops of [fs_write]. *)
Record WriteState := mkWriteState {
  w_fs : FileSystem;
  w_inode : Inode;
  w_bytes_written : Z;
  w_block_pos : Z
}.

(** The loop over the direct pointers; [true] is its [goto END]. *)
Fixpoint write_direct (ns : list Z) (data : list Z) (len : Z) (uninit : Block)
    (st : WriteState) : result (bool * WriteState) :=
  match ns with
  | [] => Ok (false, st)
  | i :: rest =>
      do (got, inode1, fs1) <-
        (if direct_at (w_inode st) i =? 0 then
           do (next_free, fs1) <- fs_find_free (w_fs st);
           if next_free =? 0 then Ok (false, w_inode st, fs1)
           else Ok (true, set_direct (w_inode st) i (wrap32 next_free), fs1)
         else Ok (true, w_inode st, w_fs st));
      if negb got
      then Ok (true, mkWriteState fs1 inode1 (w_bytes_written st) (w_block_pos st))
      else
        do (to_write, fs2) <-
          write_chunk fs1 (direct_at inode1 i) data len
            (w_bytes_written st) (w_block_pos st) uninit;
        let bytes_written := w_bytes_written st + to_write in
        if bytes_written =? len
        then Ok (true, mkWriteState fs2 inode1 bytes_written (w_block_pos st))
        else write_direct rest data len uninit
               (mkWriteState fs2 inode1 bytes_written 0)
  end.

(** The loop over the entries of the indirect block [ind_blk]. *)
Fixpoint write_indirect (ns : list Z) (data : list Z) (len : Z)
    (uninit : Block) (ind_blk : Block) (st : WriteState) : result WriteState :=
  match ns with
  | [] => Ok st
  | i :: rest =>
      do p <- pointer_at ind_blk i;
      do (got, blk1, fs1) <-
        (if p =? 0 then
           do (next_free, fs1) <- fs_find_free (w_fs st);
           if next_free =? 0 then Ok (false, ind_blk, fs1)
           else
             let blk1 := set_u32 ind_blk i (wrap32 next_free) in
             let '(_, d1) := disk_write (disk fs1) (indirect (w_inode st)) blk1 in
             Ok (true, blk1, set_disk fs1 d1)
         else Ok (true, ind_blk, w_fs st));
      if negb got
      then Ok (mkWriteState fs1 (w_inode st) (w_bytes_written st) (w_block_pos st))
      else
        do (to_write, fs2) <-
          write_chunk fs1 (get_u32 blk1 i) data len
            (w_bytes_written st) (w_block_pos st) uninit;
        let bytes_written := w_bytes_written st + to_write in
        if bytes_written =? len
        then Ok (mkWriteState fs2 (w_inode st) bytes_written (w_block_pos st))
        else write_indirect rest data len uninit blk1
               (mkWriteState fs2 (w_inode st) bytes_written 0)
  end.

(** The part of [fs_write] between the direct loop and [END]. *)
Definition write_tail (curr_iblk : Z) (data : list Z) (len : Z)
    (uninit : Block) (st : WriteState) : result WriteState :=
  do (got, inode1, fs1) <-
    (if indirect (w_inode st) =? 0 then
       do (next_free, fs1) <- fs_find_free (w_fs st);
       if next_free =? 0 then Ok (false, w_inode st, fs1)
       else Ok (true, set_indirect (w_inode st) (wrap32 next_free), fs1)
     else Ok (true, w_inode st, w_fs st));
  if negb got
  then Ok (mkWriteState fs1 inode1 (w_bytes_written st) (w_block_pos st))
  else
    let '(_, d1, ind_blk) := disk_read (disk fs1) (indirect inode1) uninit in
    let first := to_int (wrap64 (curr_iblk - POINTERS_PER_INODE)) in
    write_indirect (seqZ first (POINTERS_PER_BLOCK - first)) data len uninit
      ind_blk
      (mkWriteState (set_disk fs1 d1) inode1 (w_bytes_written st)
         (w_block_pos st)).

(** [fs_write]: the value returned and the structure.  [uninit] is what
    the uninitialised locals [old_data] and [ind_blk] hold. *)
Definition fs_write (fs : FileSystem) (inode_number : Z) (data : list Z)
    (len offset : Z) (uninit : Block) : result (Z * FileSystem) :=
  let curr_iblk := offset / BLOCK_SIZE in
  let block_pos := offset mod BLOCK_SIZE in
  match fs_load_inode fs inode_number with
  | (None, fs1) => Ok (-1, fs1)
  | (Some inode, fs1) =>
      let st0 := mkWriteState fs1 inode 0 block_pos in
      do (at_end, st1) <-
        (if curr_iblk <? POINTERS_PER_INODE then
           write_direct (seqZ curr_iblk (POINTERS_PER_INODE - curr_iblk))
             data len uninit st0
         else Ok (false, st0));
      let curr_iblk1 :=
        if curr_iblk <? POINTERS_PER_INODE then POINTERS_PER_INODE
        else curr_iblk in
      do st2 <-
        (if at_end : bool then Ok st1
         else write_tail curr_iblk1 data len uninit st1);
      let inode2 :=
        set_size (w_inode st2)
          (wrap32 (size (w_inode st2) + w_bytes_written st2)) in
      Ok (w_bytes_written st2,
          (fs_save_inode (w_fs st2) inode_number inode2).2)
  end.

End FileSystem.

(** ** Opening and closing a disk ([disk.c]) *)

(** What the program does to its host through [disk_close]: a line on the
    standard output, a descriptor closed. *)
Inductive host_event : Type :=
| ev_print (line : string)
| ev_close (fd : Z).

(** The host as [disk_open] meets it: whether [calloc] returns memory, what
    [open] returns (a descriptor, or -1), whether [truncate] succeeds, the
    bytes of the file at [path] (none when [open] creates it), and the
    outcomes of the system calls to come. *)
Record Host := mkHost {
  host_calloc : bool;
  host_open : Z;
  host_truncate : bool;
  host_file : list Z;
  host_faults : list bool
}.

Section DiskOpen.
Context `{G : Geometry}.

(** [disk_close].  The descriptor field of [struct Disk], which no other
    function reads, travels beside the record; a null pointer is
    dereferenced by the first [printf]. *)
Definition disk_close (disk : option (Z * Disk)) : result (list host_event) :=
  match disk with
  | None => Undef
  | Some (fd, d) =>
      Ok [ev_print (pretty (disk_reads d) +:+ " disk block reads");
          ev_print (pretty (disk_writes d) +:+ " disk block writes");
          ev_close fd]
  end.

(** [truncate (path, n)]: the first [n] bytes of the file, zeros where it
    was shorter. *)
Definition truncate (file : list Z) (n : Z) : list Z :=
  take (Z.to_nat n) (file ++ replicate (Z.to_nat n) 0).

(** The blocks of a file of [n * BLOCK_SIZE] bytes. *)
Definition blocks_of_file (file : list Z) (n : Z) : list Block :=
  (fun i => take (Z.to_nat BLOCK_SIZE) (drop (Z.to_nat (i * BLOCK_SIZE)) file))
    <$> seqZ 0 n.

(** The structure [calloc] returns, as [disk_close] sees it on the failure
    paths: both counters zero.  The descriptor is kept beside it, and
    [disk_close] does not look at the number of blocks. *)
Definition zeroed_disk (h : Host) : Disk :=
  {| disk_image := []; disk_reads := 0; disk_writes := 0;
     disk_faults := host_faults h |}.

(** [disk_open]: the pointer returned (with its descriptor) and what
    happened on the way.  [blocks] is a [size_t]. *)
Definition disk_open (h : Host) (blocks : Z)
  : result (option (Z * Disk) * list host_event) :=
  if blocks >? 1000 then Ok (None, [])
  else if negb (host_calloc h) then
    do evs <- disk_close None; Ok (None, evs)
  else if host_open h =? -1 then
    do evs <- disk_close (Some (0, zeroed_disk h)); Ok (None, evs)
  else if negb (host_truncate h) then
    do evs <- disk_close (Some (host_open h, zeroed_disk h)); Ok (None, evs)
  else
    Ok (Some (host_open h,
              {| disk_image :=
                   blocks_of_file (truncate (host_file h) (blocks * BLOCK_SIZE))
                     blocks;
                 disk_reads := 0; disk_writes := 0;
                 disk_faults := host_faults h |}),
        []).

End DiskOpen.

(** ** [fs_debug] *)

Section DebugReport.
Context `{G : Geometry}.

(** A value of type [int]; arithmetic that leaves the type is undefined. *)
Definition checked_int (z : Z) : result Z :=
  if (- 2 ^ 31 <=? z) && (z <? 2 ^ 31) then Ok z else Undef.

(** [block.inodes[j]], inside the array. *)
Definition inode_slot (b : Block) (j : Z) : result Inode :=
  if (0 <=? j) && (j <? INODES_PER_BLOCK) then Ok (get_inode b j) else Undef.

(** [if (p) printf (fmt, p)] for every entry of an array, on one line. *)
Definition listing (fmt : Z -> string) (ptrs : list Z) : string :=
  foldr (fun p s => if p =? 0 then s else " " +:+ fmt p +:+ s) "" ptrs.

(** The entries [indirect_block.pointers[z]] the last loop of [fs_debug]
    looks at. *)
Fixpoint debug_entries (blk : Block) (zs : list Z) : result (list Z) :=
  match zs with
  | [] => Ok []
  | z :: rest =>
      do p <- pointer_at blk z;
      do ps <- debug_entries blk rest;
      Ok (p :: ps)
  end.

(** The body of the slot loop of [fs_debug] for slot [j] of table block
    [i]: the lines printed; [false] is its [return]. *)
Definition debug_inode (i j : Z) (inode : Inode) (d : option Disk)
    (uninit : Block) : result (bool * list string * option Disk) :=
  if valid inode =? 0 then Ok (true, [], d)
  else
    do base <- checked_int (INODES_PER_BLOCK * (i - 1));
    do number <- checked_int (base + j);
    let report :=
      ["Inode " +:+ pretty number +:+ ":";
       "    size: " +:+ pretty (size inode) +:+ " bytes";
       "    direct blocks:" +:+ listing (fun p => pretty (to_int p)) (direct inode)] in
    if indirect inode =? 0 then Ok (true, report, d)
    else
      let report1 :=
        report ++ ["    indirect block: " +:+ pretty (indirect inode)] in
      let '(r, d1, indirect_block) := disk_read d (indirect inode) uninit in
      if r =? DISK_FAILURE then Ok (false, report1, d1)
      else
        do ptrs <- debug_entries indirect_block (seqZ 0 INODES_PER_BLOCK);
        Ok (true,
            report1 ++ ["    indirect data blocks:" +:+ listing pretty ptrs],
            d1).

Fixpoint debug_slots (js : list Z) (i : Z) (iblock : Block) (d : option Disk)
    (uninit : Block) : result (bool * list string * option Disk) :=
  match js with
  | [] => Ok (true, [], d)
  | j :: rest =>
      do curr_inode <- inode_slot iblock j;
      do (go, out, d1) <- debug_inode i j curr_inode d uninit;
      if go then
        do (go2, out2, d2) <- debug_slots rest i iblock d1 uninit;
        Ok (go2, out ++ out2, d2)
      else Ok (false, out, d1)
  end.

(** The loop over the blocks of the inode table. *)
Fixpoint debug_blocks (ns : list Z) (sb : SuperBlock) (iblocks : Z)
    (d : option Disk) (uninit : Block) : result (list string * option Disk) :=
  match ns with
  | [] => Ok ([], d)
  | i :: rest =>
      let '(r, d1, iblock) := disk_read d i uninit in
      if r =? DISK_FAILURE then Ok ([], d1)
      else
        do curr_inodes <-
          (if iblocks =? i then
             do done <- checked_int ((i - 1) * INODES_PER_BLOCK);
             Ok (to_int (wrap32 (inodes sb - done)))
           else Ok INODES_PER_BLOCK);
        do (go, out, d2) <- debug_slots (seqZ 0 curr_inodes) i iblock d1 uninit;
        if go then
          do (out2, d3) <- debug_blocks rest sb iblocks d2 uninit;
          Ok (out ++ out2, d3)
        else Ok (out, d2)
  end.

(** [fs_debug]: the lines printed, and the disk.  [uninit] is what the
    uninitialised local blocks hold. *)
Definition fs_debug (d : option Disk) (uninit : Block)
  : result (list string * option Disk) :=
  let '(r, d1, block) := disk_read d 0 uninit in
  if r =? DISK_FAILURE then Ok ([], d1)
  else
    let sb := get_super block in
    let report :=
      ["SuperBlock:";
       "    magic number is " +:+
         (if magic_number sb =? wrap32 MAGIC_NUMBER then "valid" else "invalid");
       "    " +:+ pretty (blocks sb) +:+ " blocks";
       "    " +:+ pretty (inode_blocks sb) +:+ " inode blocks";
       "    " +:+ pretty (inodes sb) +:+ " inodes"] in
    let iblocks := to_int (inode_blocks sb) in
    do (out, d2) <- debug_blocks (seqZ 1 iblocks) sb iblocks d1 uninit;
    Ok (report ++ out, d2).

End DebugReport.

(** ** Vocabulary of the statements *)

(** The blocks behind a disk pointer, and the environment's pending
    outcomes. *)
Definition image_of (d : option Disk) : list Block :=
  default [] (disk_image <$> d).

Definition faults_of (d : option Disk) : list bool :=
  default [] (disk_faults <$> d).

(** No system call of the device fails from here on. *)
Definition quiet (d : option Disk) : Prop := faults_of d = [].

(** Every block of the backing file has [BLOCK_SIZE] bytes. *)
Definition image_ok `{Geometry} (d : option Disk) : Prop :=
  Forall block_ok (image_of d).

(** Block [b] of the image, as the views read it. *)
Definition block_of (d : option Disk) (b : Z) : Block :=
  default [] (image_of d !! Z.to_nat b).

(** The super block a mount reads, and what it expects of it. *)
Definition super_of (d : option Disk) : SuperBlock := get_super (block_of d 0).

Definition super_valid `{Geometry} (d : option Disk) : Prop :=
  magic_number (super_of d) = MAGIC_NUMBER
  /\ blocks (super_of d) = Z.of_nat (length (image_of d))
  /\ inode_blocks (super_of d) =
       blocks (super_of d) / 10 + (if blocks (super_of d) mod 10 =? 0 then 0 else 1)
  /\ inodes (super_of d) = wrap32 (inode_blocks (super_of d) * INODES_PER_BLOCK).

(** ** Observing outcomes *)

(** The value a call returned ([None] when it ran into undefined
    behaviour) and the structure it left. *)
Definition returned {A S : Type} (r : result (A * S)) : option A :=
  match r with
  | Ok (a, _) => Some a
  | Undef => None
  end.

Definition state_after `{Geometry} {A : Type} (r : result (A * FileSystem))
  : FileSystem :=
  match r with
  | Ok (_, fs) => fs
  | Undef => unmounted
  end.

(** The structure a call of [fs_mount] left. *)
Definition mounted_by `{Geometry}
    (r : result (bool * FileSystem * option Disk)) : FileSystem :=
  match r with
  | Ok (_, fs, _) => fs
  | Undef => unmounted
  end.

(** ** A device that mounts *)

(** An image of [n] blocks whose block 0 holds the super block
    [fs_format] computes for it, every other block zero. *)
Definition formatted_image `{Geometry} (n : Z) : list Block :=
  let iblocks := if n mod 10 =? 0 then n / 10 else n / 10 + 1 in
  <[0%nat :=
      set_super empty_block
        (mkSuperBlock MAGIC_NUMBER n iblocks (iblocks * INODES_PER_BLOCK))]>
    (replicate (Z.to_nat n) empty_block).

Definition disk_of_image (image : list Block) : Disk :=
  {| disk_image := image; disk_reads := 0; disk_writes := 0; disk_faults := [] |}.

(** ** Inodes on the device *)

Section Slots.
Context `{G : Geometry}.

(** Where [fs_load_inode] and [fs_save_inode] look for inode [n]. *)
Definition slot_block (n : Z) : Z := n / INODES_PER_BLOCK + 1.
Definition slot_index (n : Z) : Z := n - (slot_block n - 1) * INODES_PER_BLOCK.

Definition inode_on_disk (d : option Disk) (n : Z) : Inode :=
  get_inode (block_of d (slot_block n)) (slot_index n).

(** [fs1] differs from [fs] by what reads do to a disk: counters and
    consumed outcomes of the environment. *)
Definition reads_only (fs fs1 : FileSystem) : Prop :=
  image_of (disk fs1) = image_of (disk fs)
  /\ meta_data fs1 = meta_data fs
  /\ free_blocks fs1 = free_blocks fs
  /\ (quiet (disk fs) -> quiet (disk fs1))
  /\ (is_Some (disk fs1) <-> is_Some (disk fs)).

End Slots.

(** [fs1] works on the device of [fs]: same cached super block, same
    number of blocks; a quiet device stays quiet and well-sized blocks stay
    well-sized. *)
Definition same_device `{Geometry} (fs fs1 : FileSystem) : Prop :=
  meta_data fs1 = meta_data fs
  /\ length (image_of (disk fs1)) = length (image_of (disk fs))
  /\ (quiet (disk fs) -> quiet (disk fs1))
  /\ (image_ok (disk fs) -> image_ok (disk fs1))
  /\ (is_Some (disk fs1) <-> is_Some (disk fs)).

(** Entry [k] of the free-block bitmap, when there is one. *)
Definition bitmap_entry `{Geometry} (fs : FileSystem) (k : Z) : option bool :=
  match free_blocks fs with
  | Some bm => bm !! Z.to_nat k
  | None => None
  end.

(** The block numbers [fs_remove] releases for an inode: its direct
    pointers and, when the indirect pointer is set, the indirect block and
    its entries. *)
Definition indirect_refs `{Geometry} (d : option Disk) (inode : Inode) : list Z :=
  if indirect inode =? 0 then []
  else indirect inode :: get_pointers (block_of d (indirect inode)).

Definition referenced `{Geometry} (d : option Disk) (inode : Inode) : list Z :=
  direct inode ++ indirect_refs d inode.

(** Everything a release loop does: blocks change only at the released
    pointers and become zero there, bitmap entries change only at the
    released pointers and become free there; when the loop runs to its end
    every nonzero pointer of the array is zeroed and free. *)
Definition released `{Geometry} (ptrs : list Z) (fs fs' : FileSystem) : Prop :=
  same_device fs fs'
  /\ length <$> free_blocks fs' = length <$> free_blocks fs
  /\ (forall k, 0 <= k ->
        block_of (disk fs') k = block_of (disk fs) k
        \/ (k ∈ ptrs /\ k ≠ 0 /\ block_of (disk fs') k = empty_block))
  /\ (forall k, 0 <= k ->
        bitmap_entry fs' k = bitmap_entry fs k
        \/ (k ∈ ptrs /\ k ≠ 0 /\ bitmap_entry fs' k = Some true)).

(** The same structure in an environment whose coming system calls have
    the outcomes [outcomes]. *)
Definition with_faults `{Geometry} (fs : FileSystem) (outcomes : list bool)
  : FileSystem :=
  set_disk fs
    ((fun d => {| disk_image := disk_image d; disk_reads := disk_reads d;
                  disk_writes := disk_writes d; disk_faults := outcomes |})
       <$> disk fs).

(** ** The bitmap across operations *)

(** [bm'] comes from [bm] by marking entries not-free. *)
Definition bitmap_marks (bm bm' : option (list bool)) : Prop :=
  match bm, bm' with
  | Some l, Some l' =>
      length l' = length l /\ forall k : nat, l !! k = Some false -> l' !! k = Some false
  | None, None => True
  | _, _ => False
  end.

(** What the walk of [fs_mount] may change. *)
Definition mount_frame `{Geometry} (fs fs' : FileSystem) : Prop :=
  image_of (disk fs') = image_of (disk fs)
  /\ meta_data fs' = meta_data fs
  /\ bitmap_marks (free_blocks fs) (free_blocks fs')
  /\ (quiet (disk fs) -> quiet (disk fs')).

(** Every block number a valid inode of the table refers to lies inside
    the device. *)
Definition pointers_within `{Geometry} (d : option Disk) : Prop :=
  forall i j, 1 <= i <= inode_blocks (super_of d) -> 0 <= j < INODES_PER_BLOCK ->
    valid (get_inode (block_of d i) j) ≠ 0 ->
    forall p, p ∈ referenced d (get_inode (block_of d i) j) ->
      p < Z.of_nat (length (image_of d)).

(** The entries of the super block and of the inode table are not-free. *)
Definition reserved_marked `{Geometry} (fs : FileSystem) : Prop :=
  exists l, free_blocks fs = Some l
    /\ Z.of_nat (length l) = blocks (meta_data fs)
    /\ forall k, 0 <= k <= inode_blocks (meta_data fs) -> k < blocks (meta_data fs) ->
         l !! Z.to_nat k = Some false.

(** What [fs_find_free] and [fs_write] may change: they keep the cached
    super block and the number of blocks and only mark bitmap entries
    not-free. *)
Definition write_frame `{Geometry} (fs fs' : FileSystem) : Prop :=
  meta_data fs' = meta_data fs
  /\ length (image_of (disk fs')) = length (image_of (disk fs))
  /\ (quiet (disk fs) -> quiet (disk fs'))
  /\ (is_Some (disk fs') <-> is_Some (disk fs))
  /\ bitmap_marks (free_blocks fs) (free_blocks fs').

(** The bytes [fs_write] moves in one block. *)
Definition chunk_size `{Geometry} (len bytes_written block_pos : Z) : Z :=
  if BLOCK_SIZE - block_pos <=? len - bytes_written
  then BLOCK_SIZE - block_pos else len - bytes_written.

(** What the loops of [fs_write] keep from one state to a later one: the
    device, the flag, size and shape of the in-memory inode, and the bounds
    of the counters. *)
Definition write_progress `{Geometry} (len : Z) (st st' : WriteState) : Prop :=
  write_frame (w_fs st) (w_fs st')
  /\ valid (w_inode st') = valid (w_inode st)
  /\ size (w_inode st') = size (w_inode st)
  /\ length (direct (w_inode st')) = length (direct (w_inode st))
  /\ (0 <= w_block_pos st < BLOCK_SIZE -> 0 <= w_bytes_written st <= len ->
       0 <= w_block_pos st' < BLOCK_SIZE
       /\ w_bytes_written st <= w_bytes_written st' <= len).



(** ** Mounted states *)

Section Reachable.
Context `{G : Geometry}.

(** The mounted states: what a successful [fs_mount] leaves, and what the
    operations make of a mounted state.  A removal counts when the inode it
    removes, if valid, refers to no block of the super block and inode
    table range. *)
Inductive reachable : FileSystem -> Prop :=
| reach_mount fs0 d uninit fs d' :
    fs_mount fs0 d uninit = Ok (true, fs, d') -> reachable fs
| reach_create fs :
    reachable fs -> reachable (fs_create fs).2
| reach_stat fs n :
    reachable fs -> reachable (fs_stat fs n).2
| reach_read fs n data len offset r fs' data' :
    reachable fs -> fs_read fs n data len offset = Ok (r, fs', data') ->
    reachable fs'
| reach_find_free fs r fs' :
    reachable fs -> fs_find_free fs = Ok (r, fs') -> reachable fs'
| reach_write fs n data len offset uninit r fs' :
    reachable fs -> fs_write fs n data len offset uninit = Ok (r, fs') ->
    reachable fs'
| reach_remove fs n ok fs' :
    reachable fs -> fs_remove fs n = Ok (ok, fs') ->
    (valid (inode_on_disk (disk fs) n) ≠ 0 ->
     forall p, p ∈ referenced (disk fs) (inode_on_disk (disk fs) n) -> p ≠ 0 ->
       inode_blocks (meta_data fs) < p) ->
    reachable fs'.

(** No entry of the bitmap is free. *)
Definition no_free_block (fs : FileSystem) : Prop :=
  forall k, 0 <= k -> bitmap_entry fs k ≠ Some true.

(** The reserved entries are marked and the cached block count is that of
    the device. *)
Definition bitmap_inv (fs : FileSystem) : Prop :=
  reserved_marked fs
  /\ blocks (meta_data fs) = Z.of_nat (length (image_of (disk fs)))
  /\ 0 <= inode_blocks (meta_data fs).

End Reachable.

(** ** Sequences of disk calls *)

(** A call of [disk_read] or [disk_write]. *)
Inductive disk_op : Type :=
| op_read (block : Z) (buf : Block)
| op_write (block : Z) (data : Block).

(** The calls of [ops], one after the other on one disk: each call with the
    value it returned, and the disk at the end. *)
Fixpoint run_ops `{Geometry} (ops : list disk_op) (d : option Disk)
  : list (disk_op * Z) * option Disk :=
  match ops with
  | [] => ([], d)
  | op :: rest =>
      let '(r, d1) :=
        match op with
        | op_read b buf => let '(r, d1, _) := disk_read d b buf in (r, d1)
        | op_write b data => disk_write d b data
        end in
      let '(log, d2) := run_ops rest d1 in
      ((op, r) :: log, d2)
  end.

(** How many reads, and how many writes, of a log returned [BLOCK_SIZE]. *)
Fixpoint completed `{Geometry} (log : list (disk_op * Z)) : Z * Z :=
  match log with
  | [] => (0, 0)
  | (op, r) :: rest =>
      let '(nr, nw) := completed rest in
      if r =? BLOCK_SIZE then
        match op with
        | op_read _ _ => (nr + 1, nw)
        | op_write _ _ => (nr, nw + 1)
        end
      else (nr, nw)
  end.

(** ** The bitmap a mount builds *)

Section TableRefs.
Context `{G : Geometry}.

(** The block numbers the valid inodes of the table of [d] refer to, in
    the order [fs_mount] walks them. *)
Definition slot_refs (d : option Disk) (i j : Z) : list Z :=
  if valid (get_inode (block_of d i) j) =? 0 then []
  else referenced d (get_inode (block_of d i) j).

Definition block_refs (d : option Disk) (js : list Z) (i : Z) : list Z :=
  concat ((fun j => slot_refs d i j) <$> js).

Definition table_refs (d : option Disk) : list Z :=
  concat ((fun i => block_refs d (seqZ 0 INODES_PER_BLOCK) i)
            <$> seqZ 1 (inode_blocks (super_of d))).

(** Block [k] is in use: it holds the super block or the inode table, or a
    valid inode refers to it. *)
Definition in_use (d : option Disk) (k : Z) : bool :=
  (k <=? inode_blocks (super_of d))
  || bool_decide (k ≠ 0 /\ k ∈ table_refs d).

End TableRefs.

(** [l'] is [l] with the entries of the nonzero numbers of [ps] set to
    not-free and every other entry as it was. *)
Definition marks (ps : list Z) (l l' : list bool) : Prop :=
  length l' = length l
  /\ forall k, 0 <= k ->
       l' !! Z.to_nat k
       = if bool_decide (k ≠ 0 /\ k ∈ ps) then Some false else l !! Z.to_nat k.

(** ** Runs on the reference layout *)

Section Demo.
#[local] Existing Instance reference_geometry.

(** A reference device of twenty blocks: super block, two blocks of inode
    table, data blocks from block 3 on; mounted, then inode 0 created. *)
Definition demo_mounted : FileSystem :=
  mounted_by (fs_mount unmounted (Some (disk_of_image (formatted_image 20))) empty_block).

Definition demo_created : FileSystem := (fs_create demo_mounted).2.

(** Ten bytes written at offset 0 of inode 0, then two bytes at offset 4. *)
Definition demo_first_write : result (Z * FileSystem) :=
  fs_write demo_created 0 (seqZ 1 10) 10 0 empty_block.

Definition demo_second_write : result (Z * FileSystem) :=
  fs_write (state_after demo_first_write) 0 [77; 78] 2 4 empty_block.

(** Two blocks of data written at offset 0 of inode 0: the bytes 1, 2, ...
    modulo 251. *)
Definition two_blocks_of_data : list Z :=
  (fun k => k mod 251) <$> seqZ 1 (2 * BLOCK_SIZE).

Definition demo_long_write : result (Z * FileSystem) :=
  fs_write demo_created 0 two_blocks_of_data (2 * BLOCK_SIZE) 0 empty_block.

(** Data whose first two words read as a set validity flag and the size
    42 when the block is taken for a block of inodes. *)
Definition inode_like_data : list Z := [1; 0; 0; 0; 42; 0; 0; 0].

Definition demo_inode_like_write : result (Z * FileSystem) :=
  fs_write demo_created 0 inode_like_data 8 0 empty_block.




(** A device whose super block passes every check of [fs_mount] and whose
    inode 0 is valid with the indirect pointer [p]. *)
Definition image_with_indirect (p : Z) : list Block :=
  <[1%nat := set_inode empty_block 0
               {| valid := 1; size := 0; direct := [0; 0; 0; 0; 0]; indirect := p |}]>
    (formatted_image 20).

(** Indirect pointer 25 on a device of 20 blocks. *)
Definition dangling_disk : Disk := disk_of_image (image_with_indirect 25).

(** Indirect pointer 5, and an environment that fails the third system
    call, the read of the indirect block. *)
Definition unreadable_disk : Disk :=
  {| disk_image := image_with_indirect 5; disk_reads := 0; disk_writes := 0;
     disk_faults := [false; false; true] |}.




(** A device that mounts and whose inode 0 is valid with the direct
    pointer 1, a block of the inode table; mounted, then inode 0 removed. *)
Definition table_pointer_image : list Block :=
  <[1%nat := set_inode empty_block 0
               {| valid := 1; size := 0; direct := [1; 0; 0; 0; 0]; indirect := 0 |}]>
    (formatted_image 20).

Definition table_pointer_mount : result (bool * FileSystem * option Disk) :=
  fs_mount unmounted (Some (disk_of_image table_pointer_image)) empty_block.

Definition table_pointer_removed : result (bool * FileSystem) :=
  fs_remove (mounted_by table_pointer_mount) 0.

End Demo.

(** ** Runs on the small layout *)

Section SmallDemo.
#[local] Existing Instance small_geometry.

(** A small device of ten blocks: super block, one block of inode table
    with two slots, data blocks from block 2 on. *)
Definition small_disk : Disk :=
  Eval vm_compute in disk_of_image (formatted_image 10).

Definition small_mount : result (bool * FileSystem * option Disk) :=
  fs_mount unmounted (Some small_disk) empty_block.

Definition small_mounted : FileSystem := Eval vm_compute in mounted_by small_mount.

(** Inode 0 created; then forty bytes, more than the one direct block
    holds, written at offset 0. *)
Definition small_created : FileSystem :=
  Eval vm_compute in (fs_create small_mounted).2.

Definition forty_bytes : list Z := Eval vm_compute in seqZ 1 40.

Definition small_long_write : result (Z * FileSystem) :=
  fs_write small_created 0 forty_bytes 40 0 empty_block.

Definition small_written : FileSystem :=
  Eval vm_compute in state_after small_long_write.

(** The host of a first [disk_open]: no file at the path yet. *)
Definition fresh_host : Host :=
  {| host_calloc := true; host_open := 3; host_truncate := true;
     host_file := []; host_faults := [] |}.

(** The host of a [disk_open] whose [open] fails. *)
Definition refusing_host : Host :=
  {| host_calloc := true; host_open := -1; host_truncate := true;
     host_file := []; host_faults := [] |}.

(** The small device with bytes left in the data blocks 2 and 5; and the
    same device in an environment that fails the fourth system call. *)
Definition used_image : list Block :=
  Eval vm_compute in
    <[5%nat := replicate 32 7]> (<[2%nat := replicate 32 9]> (formatted_image 10)).

Definition used_disk : Disk := disk_of_image used_image.


(** The written device unmounted and mounted again; inode 0 removed. *)
Definition small_remount : result (bool * FileSystem * option Disk) :=
  fs_mount unmounted (disk small_written) empty_block.

Definition small_remounted : FileSystem :=
  Eval vm_compute in mounted_by small_remount.

Definition small_removed : FileSystem :=
  Eval vm_compute in state_after (fs_remove small_written 0).

(** Three calls of the emulator: a write and a read of block 3, a read
    past the end of the device. *)
Definition three_calls : list disk_op :=
  [op_write 3 (replicate 32 5); op_read 3 empty_block; op_read 12 empty_block].

End SmallDemo.

(** * Properties *)

(** ** Words of a block *)

Lemma byte_at_range (b : Block) (i : Z) : 0 <= byte_at b i < 256.
Proof.
  unfold byte_at. destruct (i <? 0); [lia|]. apply Z.mod_pos_bound. lia.
Qed.

Lemma get_u32_range (b : Block) (w : Z) : 0 <= get_u32 b w < 2 ^ 32.
Proof.
  unfold get_u32.
  pose proof (byte_at_range b (4 * w)).
  pose proof (byte_at_range b (4 * w + 1)).
  pose proof (byte_at_range b (4 * w + 2)).
  pose proof (byte_at_range b (4 * w + 3)).
  lia.
Qed.

Lemma byte_at_insert_ne (b : Block) (n : nat) (v i : Z) :
  Z.to_nat i ≠ n -> byte_at (<[n := v]> b) i = byte_at b i.
Proof.
  intros Hne. unfold byte_at. destruct (i <? 0); [done|].
  by rewrite list_lookup_insert_ne.
Qed.

Lemma byte_at_insert_eq (b : Block) (n : nat) (v i : Z) :
  0 <= i -> Z.to_nat i = n -> (n < length b)%nat ->
  byte_at (<[n := v]> b) i = v mod 256.
Proof.
  intros Hi <- Hlt. unfold byte_at.
  destruct (i <? 0) eqn:E; [lia|].
  by rewrite list_lookup_insert_eq.
Qed.

Lemma length_set_u32 (b : Block) (w v : Z) : length (set_u32 b w v) = length b.
Proof. unfold set_u32. by rewrite !length_insert. Qed.

Lemma split_u32 (v : Z) :
  v mod 256 + 2 ^ 8 * ((v / 2 ^ 8) mod 256) + 2 ^ 16 * ((v / 2 ^ 16) mod 256)
  + 2 ^ 24 * ((v / 2 ^ 24) mod 256) = v mod 2 ^ 32.
Proof.
  change (2 ^ 32) with (2 ^ 8 * (2 ^ 8 * (2 ^ 8 * 2 ^ 8))).
  rewrite !Z.rem_mul_r by lia.
  rewrite !Z.div_div by lia.
  change (2 ^ 8) with 256. change (256 * 256) with (2 ^ 16).
  change (2 ^ 16 * 256) with (2 ^ 24). change (2 ^ 24) with 16777216.
  change (2 ^ 16) with 65536. lia.
Qed.

Lemma mod_256_idem (v : Z) : (v mod 256) mod 256 = v mod 256.
Proof. apply Z.mod_mod. lia. Qed.

Lemma get_u32_set_u32_eq (b : Block) (w v : Z) :
  0 <= w -> 4 * w + 3 < Z.of_nat (length b) ->
  get_u32 (set_u32 b w v) w = wrap32 v.
Proof.
  intros Hw Hlen. unfold get_u32, set_u32, wrap32.
  rewrite (byte_at_insert_ne _ (_ + 3)), (byte_at_insert_ne _ (_ + 2)),
    (byte_at_insert_ne _ (_ + 1)) by lia.
  rewrite (byte_at_insert_eq _ _ _ (4 * w)) by lia.
  rewrite (byte_at_insert_ne _ (_ + 3)), (byte_at_insert_ne _ (_ + 2)) by lia.
  rewrite (byte_at_insert_eq _ _ _ (4 * w + 1))
    by (rewrite ?length_insert; lia).
  rewrite (byte_at_insert_ne _ (_ + 3)) by lia.
  rewrite (byte_at_insert_eq _ _ _ (4 * w + 2))
    by (rewrite ?length_insert; lia).
  rewrite (byte_at_insert_eq _ _ _ (4 * w + 3))
    by (rewrite ?length_insert; lia).
  rewrite !mod_256_idem. apply split_u32.
Qed.

Lemma get_u32_set_u32_ne (b : Block) (w w' v : Z) :
  0 <= w -> 0 <= w' -> w ≠ w' ->
  get_u32 (set_u32 b w v) w' = get_u32 b w'.
Proof.
  intros Hw Hw' Hne. unfold get_u32, set_u32.
  by rewrite !byte_at_insert_ne by lia.
Qed.

Lemma length_set_words (vs : list Z) (b : Block) (w : Z) :
  length (set_words b w vs) = length b.
Proof.
  revert b w. induction vs as [|v vs IH]; intros b w; simpl; [done|].
  by rewrite IH, length_set_u32.
Qed.

Lemma get_u32_set_words_out (vs : list Z) (b : Block) (w w' : Z) :
  0 <= w -> 0 <= w' -> (w' < w \/ w + Z.of_nat (length vs) <= w') ->
  get_u32 (set_words b w vs) w' = get_u32 b w'.
Proof.
  revert b w. induction vs as [|v vs IH]; intros b w Hw Hw' Hout; simpl; [done|].
  simpl in Hout. rewrite IH by lia. apply get_u32_set_u32_ne; lia.
Qed.

Lemma get_u32_set_words_in (vs : list Z) (b : Block) (w : Z) (k : nat) (v : Z) :
  0 <= w -> 4 * (w + Z.of_nat (length vs)) <= Z.of_nat (length b) ->
  vs !! k = Some v ->
  get_u32 (set_words b w vs) (w + Z.of_nat k) = wrap32 v.
Proof.
  revert b w k. induction vs as [|v0 vs IH]; intros b w k Hw Hlen Hk; [done|].
  simpl in *. destruct k as [|k]; simpl in Hk.
  - injection Hk as ->. rewrite Z.add_0_r.
    rewrite get_u32_set_words_out by lia.
    apply get_u32_set_u32_eq; lia.
  - replace (w + Z.of_nat (S k)) with (w + 1 + Z.of_nat k) by lia.
    apply IH; [lia| rewrite length_set_u32; lia | done].
Qed.

Lemma get_u32_empty_block `{Geometry} (w : Z) : get_u32 empty_block w = 0.
Proof.
  assert (Hb : forall i, byte_at empty_block i = 0).
  { intros i. unfold byte_at, empty_block. destruct (i <? 0); [done|].
    destruct (decide (Z.to_nat i < Z.to_nat BLOCK_SIZE)%nat).
    - by rewrite lookup_replicate_2.
    - rewrite (proj1 (lookup_replicate_None _ _ _)); [done | lia]. }
  unfold get_u32. by rewrite !Hb.
Qed.

Lemma block_ok_empty `{G : Geometry} : 0 <= BLOCK_SIZE -> block_ok empty_block.
Proof. intros. unfold block_ok, empty_block. rewrite length_replicate. lia. Qed.

(** ** Inode records of a block *)

Section InodeFacts.
Context `{G : Geometry} (HG : GeometryOk G).

Lemma wrap32_small (z : Z) : 0 <= z < 2 ^ 32 -> wrap32 z = z.
Proof. intros. unfold wrap32. by apply Z.mod_small. Qed.

Lemma wrap32_get_u32 (b : Block) (w : Z) : wrap32 (get_u32 b w) = get_u32 b w.
Proof. apply wrap32_small, get_u32_range. Qed.

Lemma INODE_WORDS_pos : 3 < INODE_WORDS.
Proof. unfold INODE_WORDS. pose proof (ok_pointers_per_inode G HG). lia. Qed.

(** The words of slot [j] lie inside a block of [BLOCK_SIZE] bytes. *)
Lemma slot_fits (b : Block) (j : Z) :
  block_ok b -> 0 <= j < INODES_PER_BLOCK ->
  4 * (j * INODE_WORDS + INODE_WORDS) <= Z.of_nat (length b).
Proof.
  intros Hb Hj. unfold block_ok in Hb. rewrite Hb.
  pose proof (ok_inodes_fit G HG). pose proof INODE_WORDS_pos. nia.
Qed.

Lemma length_set_inode (b : Block) (j : Z) (inode : Inode) :
  length (set_inode b j inode) = length b.
Proof.
  unfold set_inode. by rewrite length_set_u32, length_set_words, !length_set_u32.
Qed.

Lemma block_ok_set_inode (b : Block) (j : Z) (inode : Inode) :
  block_ok b -> block_ok (set_inode b j inode).
Proof. unfold block_ok. by rewrite length_set_inode. Qed.

Lemma block_ok_set_u32 (b : Block) (w v : Z) :
  block_ok b -> block_ok (set_u32 b w v).
Proof. unfold block_ok. by rewrite length_set_u32. Qed.

(** Words outside slot [j] are not touched by a store to the slot. *)
Lemma get_u32_set_inode_out (b : Block) (j w : Z) (inode : Inode) :
  0 <= j -> 0 <= w ->
  (w < j * INODE_WORDS \/ j * INODE_WORDS + INODE_WORDS <= w) ->
  get_u32 (set_inode b j inode) w = get_u32 b w.
Proof.
  intros Hj Hw Hout. unfold set_inode.
  pose proof INODE_WORDS_pos as Hpos. pose proof (ok_pointers_per_inode G HG).
  assert (Hlen : Z.of_nat (length (take (Z.to_nat POINTERS_PER_INODE) (direct inode)))
                 <= POINTERS_PER_INODE) by (rewrite length_take; lia).
  unfold INODE_WORDS in *.
  rewrite get_u32_set_u32_ne by nia.
  rewrite get_u32_set_words_out by nia.
  rewrite !get_u32_set_u32_ne by nia. done.
Qed.

Lemma get_words_ext (b b' : Block) (w n : Z) :
  (forall k, 0 <= k < n -> get_u32 b (w + k) = get_u32 b' (w + k)) ->
  get_words b w n = get_words b' w n.
Proof.
  intros Heq. unfold get_words. apply list_eq. intros i.
  rewrite !list_lookup_fmap.
  destruct (seqZ 0 n !! i) as [k|] eqn:Hk; [|done]. simpl.
  apply lookup_seqZ in Hk as [-> Hi]. f_equal. apply Heq. lia.
Qed.

Lemma get_inode_ext (b b' : Block) (j : Z) :
  (forall k, 0 <= k < INODE_WORDS ->
     get_u32 b (j * INODE_WORDS + k) = get_u32 b' (j * INODE_WORDS + k)) ->
  get_inode b j = get_inode b' j.
Proof.
  intros Heq. unfold get_inode. pose proof (ok_pointers_per_inode G HG).
  unfold INODE_WORDS in *. f_equal.
  - specialize (Heq 0). rewrite !Z.add_0_r in Heq. apply Heq. lia.
  - apply Heq. lia.
  - apply get_words_ext. intros k Hk.
    specialize (Heq (2 + k)). rewrite !Z.add_assoc in Heq. apply Heq. lia.
  - specialize (Heq (2 + POINTERS_PER_INODE)). rewrite !Z.add_assoc in Heq.
    apply Heq. lia.
Qed.

(** A store to slot [j] leaves every other slot as it was. *)
Lemma get_inode_set_inode_ne (b : Block) (j j' : Z) (inode : Inode) :
  0 <= j -> 0 <= j' -> j ≠ j' ->
  get_inode (set_inode b j inode) j' = get_inode b j'.
Proof.
  intros Hj Hj' Hne. apply get_inode_ext. intros k Hk.
  apply get_u32_set_inode_out; [lia|nia|]. nia.
Qed.

(** A store to slot [j] is read back, each field as a 32-bit value. *)
Lemma get_inode_set_inode_eq (b : Block) (j : Z) (inode : Inode) :
  0 <= j -> 4 * (j * INODE_WORDS + INODE_WORDS) <= Z.of_nat (length b) ->
  Z.of_nat (length (direct inode)) = POINTERS_PER_INODE ->
  get_inode (set_inode b j inode) j =
  {| valid := wrap32 (valid inode); size := wrap32 (size inode);
     direct := wrap32 <$> direct inode; indirect := wrap32 (indirect inode) |}.
Proof.
  intros Hj Hfit Hdir. pose proof (ok_pointers_per_inode G HG) as Hppi.
  assert (Htake : take (Z.to_nat POINTERS_PER_INODE) (direct inode) = direct inode).
  { apply take_ge. lia. }
  unfold get_inode, set_inode. rewrite Htake. unfold INODE_WORDS in *.
  set (w := j * (POINTERS_PER_INODE + 3)) in *. f_equal.
  - rewrite get_u32_set_u32_ne by lia.
    rewrite get_u32_set_words_out by lia.
    rewrite get_u32_set_u32_ne by lia.
    apply get_u32_set_u32_eq; lia.
  - rewrite get_u32_set_u32_ne by lia.
    rewrite get_u32_set_words_out by lia.
    apply get_u32_set_u32_eq; rewrite ?length_set_u32; lia.
  - unfold get_words. apply list_eq. intros i. rewrite !list_lookup_fmap.
    destruct (direct inode !! i) as [v|] eqn:Hv; simpl.
    + pose proof (lookup_lt_Some _ _ _ Hv) as Hlt.
      rewrite lookup_seqZ_lt by lia. simpl. f_equal.
      rewrite get_u32_set_u32_ne by lia. rewrite Z.add_0_l.
      apply get_u32_set_words_in; [lia| rewrite !length_set_u32; lia | done].
    + apply lookup_ge_None_1 in Hv. rewrite lookup_seqZ_ge by lia. done.
  - apply get_u32_set_u32_eq; [lia|].
    rewrite length_set_words, !length_set_u32. lia.
Qed.

(** [block.inodes[j].valid = 1] changes the flag of slot [j] and nothing
    else. *)
Lemma get_inode_set_valid_eq (b : Block) (j : Z) :
  0 <= j -> 4 * (j * INODE_WORDS + INODE_WORDS) <= Z.of_nat (length b) ->
  get_inode (set_u32 b (j * INODE_WORDS) 1) j =
  {| valid := 1; size := size (get_inode b j); direct := direct (get_inode b j);
     indirect := indirect (get_inode b j) |}.
Proof.
  intros Hj Hfit. pose proof INODE_WORDS_pos.
  pose proof (ok_pointers_per_inode G HG) as Hppi.
  unfold get_inode. f_equal.
  - rewrite get_u32_set_u32_eq by nia. done.
  - apply get_u32_set_u32_ne; nia.
  - apply get_words_ext. intros k Hk. apply get_u32_set_u32_ne; nia.
  - apply get_u32_set_u32_ne; nia.
Qed.

Lemma get_inode_set_valid_ne (b : Block) (j j' : Z) :
  0 <= j -> 0 <= j' -> j ≠ j' ->
  get_inode (set_u32 b (j * INODE_WORDS) 1) j' = get_inode b j'.
Proof.
  intros Hj Hj' Hne. pose proof INODE_WORDS_pos. apply get_inode_ext.
  intros k Hk. apply get_u32_set_u32_ne; nia.
Qed.

(** Every slot of a zeroed block is the blank inode. *)
Lemma get_inode_empty_block (j : Z) : get_inode empty_block j = iblank.
Proof.
  unfold get_inode, iblank. rewrite !get_u32_empty_block. f_equal.
  unfold get_words. apply list_eq. intros i. rewrite list_lookup_fmap.
  destruct (decide (Z.of_nat i < POINTERS_PER_INODE)) as [Hi|Hi].
  - rewrite lookup_seqZ_lt by done. simpl. rewrite get_u32_empty_block.
    by rewrite lookup_replicate_2 by lia.
  - rewrite lookup_seqZ_ge by lia. simpl. symmetry.
    apply lookup_replicate_None. lia.
Qed.

Lemma get_pointers_empty_block :
  get_pointers empty_block = replicate (Z.to_nat POINTERS_PER_BLOCK) 0.
Proof.
  unfold get_pointers, get_words. apply list_eq. intros i. rewrite list_lookup_fmap.
  destruct (decide (Z.of_nat i < POINTERS_PER_BLOCK)) as [Hi|Hi].
  - rewrite lookup_seqZ_lt by done. simpl. rewrite get_u32_empty_block.
    by rewrite lookup_replicate_2 by lia.
  - rewrite lookup_seqZ_ge by lia. simpl. symmetry.
    apply lookup_replicate_None. lia.
Qed.

End InodeFacts.

(** Projections of updated structures, without unfolding the views. *)
Ltac fs_simpl :=
  unfold fs_initialize_free_block_bitmap, set_free_blocks, set_disk in *;
  cbn [disk meta_data free_blocks] in *.

(** ** The disk emulator *)

Section DiskFacts.
Context `{G : Geometry}.

Lemma syscalls_quiet (d : Disk) : disk_faults d = [] -> syscalls d = (true, d).
Proof. intros H. unfold syscalls. by rewrite H. Qed.

Lemma disk_sanity_check_true (d : Disk) (b : Z) :
  0 <= b < disk_blocks d -> disk_sanity_check (Some d) b = true.
Proof.
  intros H. unfold disk_sanity_check.
  destruct (b <? 0) eqn:E1; [lia|]. destruct (b >=? disk_blocks d) eqn:E2; [lia|].
  done.
Qed.

Lemma disk_sanity_check_false (d : option Disk) (b : Z) :
  ~ (0 <= b < Z.of_nat (length (image_of d))) -> disk_sanity_check d b = false.
Proof.
  intros H. destruct d as [d|]; [|done]. unfold disk_sanity_check, disk_blocks.
  unfold image_of in H. simpl in H.
  destruct (b <? 0) eqn:E1; [done|]. destruct (b >=? _) eqn:E2; [done|]. lia.
Qed.

(** A read outside the device fails and touches nothing. *)
Lemma disk_read_out (d : option Disk) (b : Z) (buf : Block) :
  ~ (0 <= b < Z.of_nat (length (image_of d))) ->
  disk_read d b buf = (DISK_FAILURE, d, buf).
Proof.
  intros H. unfold disk_read. destruct d as [d|]; [|done].
  by rewrite disk_sanity_check_false.
Qed.

(** A read inside a quiet device succeeds. *)
Lemma disk_read_in (d : option Disk) (b : Z) (buf : Block) :
  quiet d -> 0 <= b < Z.of_nat (length (image_of d)) ->
  exists d', disk_read d b buf = (BLOCK_SIZE, d', block_of d b)
    /\ image_of d' = image_of d /\ quiet d'.
Proof.
  intros Hq Hb. destruct d as [d|]; [|simpl in Hb; lia].
  unfold block_of. change (image_of (Some d)) with (disk_image d) in *.
  change (disk_faults d = []) in Hq.
  unfold disk_read. rewrite disk_sanity_check_true by (unfold disk_blocks; lia).
  cbn [negb]. rewrite syscalls_quiet by done.
  destruct (lookup_lt_is_Some_2 (disk_image d) (Z.to_nat b)) as [blk Hblk]; [lia|].
  rewrite Hblk. eexists. split; [reflexivity|]. split; [reflexivity|exact Hq].
Qed.

Lemma disk_write_out (d : option Disk) (b : Z) (data : Block) :
  ~ (0 <= b < Z.of_nat (length (image_of d))) ->
  disk_write d b data = (DISK_FAILURE, d).
Proof.
  intros H. unfold disk_write. destruct d as [d|]; [|done].
  by rewrite disk_sanity_check_false.
Qed.

Lemma disk_write_in (d : option Disk) (b : Z) (data : Block) :
  quiet d -> 0 <= b < Z.of_nat (length (image_of d)) ->
  exists d', disk_write d b data = (BLOCK_SIZE, d')
    /\ image_of d' = <[Z.to_nat b := data]> (image_of d) /\ quiet d'.
Proof.
  intros Hq Hb. destruct d as [d|]; [|simpl in Hb; lia].
  change (image_of (Some d)) with (disk_image d) in *.
  change (disk_faults d = []) in Hq.
  unfold disk_write. rewrite disk_sanity_check_true by (unfold disk_blocks; lia).
  cbn [negb]. rewrite syscalls_quiet by done.
  eexists. split; [reflexivity|]. split; [reflexivity|exact Hq].
Qed.

Lemma syscalls_image (d : Disk) :
  disk_image (syscalls d).2 = disk_image d
  /\ (disk_faults d = [] -> disk_faults (syscalls d).2 = []).
Proof.
  unfold syscalls. destruct (disk_faults d) eqn:E; simpl; [by rewrite E|].
  split; [done|]. intros ?. discriminate.
Qed.

(** The two ways a read can end, whatever the environment does. *)
Lemma disk_read_cases (d : option Disk) (b : Z) (buf : Block) :
  (exists d', disk_read d b buf = (DISK_FAILURE, d', buf)
     /\ image_of d' = image_of d /\ (is_Some d' <-> is_Some d)
     /\ (quiet d -> quiet d'))
  \/ (exists d', disk_read d b buf = (BLOCK_SIZE, d', block_of d b)
       /\ image_of d' = image_of d /\ (is_Some d' <-> is_Some d)
       /\ (quiet d -> quiet d')
       /\ 0 <= b < Z.of_nat (length (image_of d))).
Proof.
  destruct d as [d|]; [|left; by exists None].
  unfold disk_read. destruct (disk_sanity_check (Some d) b) eqn:Hs; cbn [negb].
  - assert (Hb : 0 <= b < Z.of_nat (length (disk_image d))).
    { unfold disk_sanity_check, disk_blocks in Hs.
      destruct (b <? 0) eqn:E1; [done|]. destruct (b >=? _) eqn:E2; [done|]. lia. }
    destruct (syscalls_image d) as [Himg Hqq].
    destruct (syscalls d) as [ok d1]. simpl in Himg, Hqq.
    destruct (lookup_lt_is_Some_2 (disk_image d) (Z.to_nat b)) as [blk Hblk]; [lia|].
    rewrite Himg, Hblk. destruct ok.
    + right. unfold block_of. change (image_of (Some d)) with (disk_image d).
      rewrite Hblk. eexists. split; [reflexivity|].
      split; [done|]. split; [split; by eauto|]. split; [exact Hqq|done].
    + left. eexists. split; [done|]. split; [done|]. split; [split; by eauto|].
      exact Hqq.
  - left. by eexists.
Qed.

Lemma disk_write_cases (d : option Disk) (b : Z) (data : Block) :
  (exists d', disk_write d b data = (DISK_FAILURE, d')
     /\ image_of d' = image_of d /\ (is_Some d' <-> is_Some d)
     /\ (quiet d -> quiet d'))
  \/ (exists d', disk_write d b data = (BLOCK_SIZE, d')
       /\ image_of d' = <[Z.to_nat b := data]> (image_of d)
       /\ (is_Some d' <-> is_Some d)
       /\ (quiet d -> quiet d')
       /\ 0 <= b < Z.of_nat (length (image_of d))).
Proof.
  destruct d as [d|]; [|left; by exists None].
  unfold disk_write. destruct (disk_sanity_check (Some d) b) eqn:Hs; cbn [negb].
  - assert (Hb : 0 <= b < Z.of_nat (length (disk_image d))).
    { unfold disk_sanity_check, disk_blocks in Hs.
      destruct (b <? 0) eqn:E1; [done|]. destruct (b >=? _) eqn:E2; [done|]. lia. }
    destruct (syscalls_image d) as [Himg Hqq].
    destruct (syscalls d) as [ok d1]. simpl in Himg, Hqq. destruct ok.
    + right. eexists. split; [done|]. split.
      { change (image_of (Some ?x)) with (disk_image x). simpl. by rewrite Himg. }
      split; [split; by eauto|]. split; [exact Hqq|done].
    + left. eexists. split; [done|]. split; [done|]. split; [split; by eauto|].
      exact Hqq.
  - left. by eexists.
Qed.

End DiskFacts.

(** ** [fs_format] and a following [fs_mount] *)

Section Format.
Context `{G : Geometry}.

Lemma format_clear_quiet (ns : list Z) (d : option Disk) :
  quiet d ->
  (forall i, i ∈ ns -> 0 <= i < Z.of_nat (length (image_of d))) ->
  exists d', format_clear ns d = (true, d') /\ quiet d'
    /\ length (image_of d') = length (image_of d)
    /\ (forall k : nat, Z.of_nat k ∉ ns -> image_of d' !! k = image_of d !! k)
    /\ (forall i, i ∈ ns -> image_of d' !! Z.to_nat i = Some empty_block).
Proof.
  revert d. induction ns as [|i ns IH]; intros d Hq Hin; simpl.
  - exists d. repeat split; [done .. |]. intros i Hi. by apply elem_of_nil in Hi.
  - assert (Hi : 0 <= i < Z.of_nat (length (image_of d))) by (apply Hin; left).
    destruct (disk_write_in d i empty_block Hq Hi) as (d1 & Hw & Him & Hq1).
    rewrite Hw, Z.eqb_refl. cbn [negb].
    destruct (IH d1 Hq1) as (d2 & Hf & Hq2 & Hlen & Hother & Hcleared).
    { intros j Hj. rewrite Him, length_insert. apply Hin. by right. }
    exists d2. split; [done|]. split; [done|].
    rewrite Hlen, Him, length_insert. split; [done|]. split.
    + intros k Hk. rewrite Hother by (intros ?; apply Hk; by right).
      rewrite Him. apply list_lookup_insert_ne. intros <-. apply Hk.
      rewrite Z2Nat.id by lia. left.
    + intros j Hj. destruct (decide (j ∈ ns)) as [Hjn|Hjn]; [by apply Hcleared|].
      apply elem_of_cons in Hj as [->|?]; [|done].
      rewrite Hother.
      * rewrite Him. apply list_lookup_insert_eq. lia.
      * by rewrite Z2Nat.id by lia.
Qed.

(** [fs_format] never writes block 0: on a quiet device it succeeds, leaves
    block 0 as it found it and fills every other block with zero bytes. *)
Lemma fs_format_image (fs : FileSystem) (d : Disk) :
  free_blocks fs = None -> disk_faults d = [] ->
  disk_blocks d < 2 ^ 32 ->
  exists fs1 d1, fs_format fs d = (true, fs1, d1) /\ quiet d1
    /\ free_blocks fs1 = None
    /\ length (image_of d1) = length (disk_image d)
    /\ image_of d1 !! 0%nat = disk_image d !! 0%nat
    /\ (forall k : nat, (0 < k < length (disk_image d))%nat ->
          image_of d1 !! k = Some empty_block).
Proof.
  intros Hfree Hq Hsmall. unfold fs_format. rewrite Hfree.
  assert (Hwrap : wrap32 (disk_blocks d) = disk_blocks d).
  { unfold wrap32. apply Z.mod_small. unfold disk_blocks in *. lia. }
  rewrite !Hwrap.
  destruct (format_clear_quiet (seqZ 1 (disk_blocks d - 1)) (Some d))
    as (d1 & Hf & Hq1 & Hlen & Hother & Hcleared).
  { exact Hq. }
  { intros i Hi. apply elem_of_seqZ in Hi.
    change (image_of (Some d)) with (disk_image d). unfold disk_blocks in Hi. lia. }
  rewrite Hf. eexists _, d1. split; [reflexivity|]. split; [done|].
  split; [done|]. split; [done|]. split.
  - apply (Hother 0%nat). rewrite elem_of_seqZ. lia.
  - intros k Hk. specialize (Hcleared (Z.of_nat k)).
    rewrite Nat2Z.id in Hcleared. apply Hcleared.
    rewrite elem_of_seqZ. unfold disk_blocks. lia.
Qed.

End Format.

(** ** [fs_mount]: the checks of the super block *)

Section MountChecks.
Context `{G : Geometry} (HG : GeometryOk G).

Lemma BLOCK_SIZE_not_failure : (BLOCK_SIZE =? DISK_FAILURE) = false.
Proof. pose proof (ok_super_fits G HG). unfold DISK_FAILURE. lia. Qed.

Lemma wrap32_magic : wrap32 MAGIC_NUMBER = MAGIC_NUMBER.
Proof. unfold wrap32. apply Z.mod_small. pose proof (ok_magic G HG). lia. Qed.

(** A mounted structure, a missing disk or a super block that fails one of
    the four checks makes [fs_mount] return [false] and leaves the structure
    and the image alone. *)
Lemma fs_mount_rejects (fs : FileSystem) (d : option Disk) (uninit : Block) :
  is_Some (free_blocks fs) \/ ~ super_valid d ->
  exists d', fs_mount fs d uninit = Ok (false, fs, d') /\ image_of d' = image_of d.
Proof.
  intros Hbad. unfold fs_mount.
  destruct (free_blocks fs) as [bm|] eqn:Hfree; [by exists d|].
  destruct Hbad as [[? ?]|Hbad]; [done|].
  destruct d as [d|]; [|by exists None].
  destruct (disk_read_cases (Some d) 0 uninit)
    as [(d1 & Hr & Himg & _)|(d1 & Hr & Himg & [_ Hsome] & _)]; rewrite Hr.
  - rewrite Z.eqb_refl. by exists d1.
  - destruct Hsome as [x ->]; [by eauto|].
    rewrite BLOCK_SIZE_not_failure, wrap32_magic.
    fold (super_of (Some d)). cbn [fmap option_fmap option_map default].
    assert (Hblocks : disk_blocks x = Z.of_nat (length (image_of (Some d)))).
    { unfold disk_blocks. by rewrite <- Himg. }
    rewrite Hblocks.
    repeat match goal with
    | |- context [negb (?a =? ?b)] =>
        destruct (Z.eqb_spec a b); cbn [negb]; [|by eexists]
    end.
    exfalso. apply Hbad. by repeat split.
Qed.

End MountChecks.

(** ** Loading and saving inodes *)

Section InodeTable.
Context `{G : Geometry} (HG : GeometryOk G).

Lemma reads_only_refl (fs : FileSystem) : reads_only fs fs.
Proof. by repeat split. Qed.

Lemma reads_only_trans (fs fs1 fs2 : FileSystem) :
  reads_only fs fs1 -> reads_only fs1 fs2 -> reads_only fs fs2.
Proof.
  intros (H1 & H2 & H3 & H4 & H5) (K1 & K2 & K3 & K4 & K5).
  repeat split; try congruence; try tauto.
Qed.

Lemma reads_only_set_disk (fs : FileSystem) (d' : option Disk) :
  image_of d' = image_of (disk fs) -> (is_Some d' <-> is_Some (disk fs)) ->
  (quiet (disk fs) -> quiet d') -> reads_only fs (set_disk fs d').
Proof. intros H1 H2 H3. unfold reads_only. simpl. tauto. Qed.

Lemma reads_only_same_device (fs fs1 : FileSystem) :
  reads_only fs fs1 -> same_device fs fs1.
Proof.
  intros (H1 & H2 & H3 & H4 & H5). unfold same_device, image_ok.
  rewrite H1. by repeat split; try tauto.
Qed.

Lemma same_device_refl (fs : FileSystem) : same_device fs fs.
Proof. by repeat split. Qed.

Lemma same_device_trans (fs fs1 fs2 : FileSystem) :
  same_device fs fs1 -> same_device fs1 fs2 -> same_device fs fs2.
Proof.
  intros (H1 & H2 & H3 & H4 & H5) (K1 & K2 & K3 & K4 & K5).
  repeat split; try congruence; try tauto.
Qed.

Lemma slot_index_range (n : Z) : 0 <= n -> 0 <= slot_index n < INODES_PER_BLOCK.
Proof.
  intros Hn. unfold slot_index, slot_block.
  pose proof (ok_inodes_per_block G HG) as Hpos.
  pose proof (Z.div_mod n INODES_PER_BLOCK) as Hdm.
  pose proof (Z.mod_pos_bound n INODES_PER_BLOCK Hpos). lia.
Qed.

Lemma slot_block_pos (n : Z) : 0 <= n -> 1 <= slot_block n.
Proof.
  intros Hn. unfold slot_block. pose proof (ok_inodes_per_block G HG).
  pose proof (Z.div_pos n INODES_PER_BLOCK). lia.
Qed.

(** The two ways [fs_load_inode] can end. *)
Lemma fs_load_inode_cases (fs : FileSystem) (n : Z) :
  exists fs1, reads_only fs fs1 /\
    (fs_load_inode fs n = (None, fs1)
     \/ (fs_load_inode fs n = (Some (inode_on_disk (disk fs) n), fs1)
         /\ valid (inode_on_disk (disk fs) n) ≠ 0
         /\ 0 <= slot_block n < Z.of_nat (length (image_of (disk fs))))).
Proof.
  unfold fs_load_inode. fold (slot_block n). fold (slot_index n).
  destruct (disk_read_cases (disk fs) (slot_block n) empty_block)
    as [(d1 & Hr & Himg & Hs & Hq)|(d1 & Hr & Himg & Hs & Hq & Hin)]; rewrite Hr.
  - rewrite Z.eqb_refl. exists (set_disk fs d1).
    split; [by apply reads_only_set_disk|by left].
  - rewrite (BLOCK_SIZE_not_failure HG). fold (inode_on_disk (disk fs) n).
    exists (set_disk fs d1). split; [by apply reads_only_set_disk|].
    destruct (Z.eqb_spec (valid (inode_on_disk (disk fs) n)) 0); [by left|by right].
Qed.


(** On a quiet device a set flag in a block of the device makes it
    succeed. *)
Lemma fs_load_inode_valid (fs : FileSystem) (n : Z) :
  quiet (disk fs) ->
  0 <= slot_block n < Z.of_nat (length (image_of (disk fs))) ->
  valid (inode_on_disk (disk fs) n) ≠ 0 ->
  exists fs1, reads_only fs fs1
    /\ fs_load_inode fs n = (Some (inode_on_disk (disk fs) n), fs1).
Proof.
  intros Hq Hin Hv. unfold fs_load_inode. fold (slot_block n). fold (slot_index n).
  destruct (disk_read_in (disk fs) (slot_block n) empty_block Hq Hin)
    as (d1 & Hr & Himg & Hq1).
  rewrite Hr, (BLOCK_SIZE_not_failure HG). fold (inode_on_disk (disk fs) n).
  destruct (Z.eqb_spec (valid (inode_on_disk (disk fs) n)) 0); [done|].
  exists (set_disk fs d1). split; [|done].
  apply reads_only_set_disk; [done| |done].
  destruct (disk fs) as [d0|], d1 as [d1'|].
  - split; by eauto.
  - rewrite <- Himg in Hin. simpl in Hin. lia.
  - simpl in Hin. lia.
  - done.
Qed.

(** The two ways [fs_save_inode] can end. *)
Lemma fs_save_inode_cases (fs : FileSystem) (n : Z) (node : Inode) :
  exists fs1, free_blocks fs1 = free_blocks fs /\ meta_data fs1 = meta_data fs
    /\ (quiet (disk fs) -> quiet (disk fs1))
    /\ (is_Some (disk fs1) <-> is_Some (disk fs))
    /\ ((fs_save_inode fs n node = (false, fs1)
         /\ image_of (disk fs1) = image_of (disk fs))
        \/ (fs_save_inode fs n node = (true, fs1)
            /\ image_of (disk fs1) =
                 <[Z.to_nat (slot_block n) :=
                     set_inode (block_of (disk fs) (slot_block n)) (slot_index n) node]>
                   (image_of (disk fs))
            /\ 0 <= slot_block n < Z.of_nat (length (image_of (disk fs))))).
Proof.
  unfold fs_save_inode. fold (slot_block n). fold (slot_index n).
  destruct (disk_read_cases (disk fs) (slot_block n) empty_block)
    as [(d1 & Hr & Himg & Hs & Hq)|(d1 & Hr & Himg & Hs & Hq & Hin)]; rewrite Hr.
  - rewrite Z.eqb_refl. exists (set_disk fs d1). simpl.
    split; [done|]. split; [done|]. split; [done|]. split; [done|]. by left.
  - rewrite (BLOCK_SIZE_not_failure HG).
    destruct (disk_write_cases d1 (slot_block n)
                (set_inode (block_of (disk fs) (slot_block n)) (slot_index n) node))
      as [(d2 & Hw & Himg2 & Hs2 & Hq2)|(d2 & Hw & Himg2 & Hs2 & Hq2 & Hin2)];
      rewrite Hw.
    + rewrite Z.eqb_refl. exists (set_disk fs d2). simpl.
      split; [done|]. split; [done|]. split; [tauto|]. split; [tauto|].
      left. split; [done|congruence].
    + rewrite (BLOCK_SIZE_not_failure HG). exists (set_disk fs d2). simpl.
      split; [done|]. split; [done|]. split; [tauto|]. split; [tauto|].
      right. split; [done|]. split; [congruence|done].
Qed.

(** On a quiet device a save into a block of the device succeeds. *)
Lemma fs_save_inode_quiet (fs : FileSystem) (n : Z) (node : Inode) :
  quiet (disk fs) ->
  0 <= slot_block n < Z.of_nat (length (image_of (disk fs))) ->
  exists fs1, fs_save_inode fs n node = (true, fs1)
    /\ free_blocks fs1 = free_blocks fs /\ meta_data fs1 = meta_data fs
    /\ quiet (disk fs1)
    /\ image_of (disk fs1) =
         <[Z.to_nat (slot_block n) :=
             set_inode (block_of (disk fs) (slot_block n)) (slot_index n) node]>
           (image_of (disk fs)).
Proof.
  intros Hq Hin. unfold fs_save_inode. fold (slot_block n). fold (slot_index n).
  destruct (disk_read_in (disk fs) (slot_block n) empty_block Hq Hin)
    as (d1 & Hr & Himg & Hq1).
  rewrite Hr, (BLOCK_SIZE_not_failure HG).
  destruct (disk_write_in d1 (slot_block n)
              (set_inode (block_of (disk fs) (slot_block n)) (slot_index n) node) Hq1)
    as (d2 & Hw & Himg2 & Hq2); [by rewrite Himg|].
  rewrite Hw, (BLOCK_SIZE_not_failure HG).
  exists (set_disk fs d2). simpl.
  split; [done|]. split; [done|]. split; [done|]. split; [done|]. congruence.
Qed.

(** What a block of the device holds after a store to the image. *)
Lemma block_of_insert (d d' : option Disk) (b b' : Z) (data : Block) :
  image_of d' = <[Z.to_nat b := data]> (image_of d) ->
  0 <= b < Z.of_nat (length (image_of d)) -> 0 <= b' ->
  block_of d' b' = if decide (b' = b) then data else block_of d b'.
Proof.
  intros Himg Hb Hb'. unfold block_of. rewrite Himg.
  destruct (decide (b' = b)) as [->|Hne].
  - by rewrite list_lookup_insert_eq by lia.
  - by rewrite list_lookup_insert_ne by lia.
Qed.

Lemma block_of_same (d d' : option Disk) (b : Z) :
  image_of d' = image_of d -> block_of d' b = block_of d b.
Proof. intros Himg. unfold block_of. by rewrite Himg. Qed.

Lemma image_nonempty_is_Some (d : option Disk) :
  (0 < length (image_of d))%nat -> is_Some d.
Proof. destruct d; [by eauto|]. simpl. lia. Qed.

Lemma image_ok_block_of (d : option Disk) (b : Z) :
  image_ok d -> 0 <= b < Z.of_nat (length (image_of d)) -> block_ok (block_of d b).
Proof.
  intros Hok Hb. unfold block_of.
  destruct (lookup_lt_is_Some_2 (image_of d) (Z.to_nat b)) as [blk Hblk]; [lia|].
  rewrite Hblk. simpl. unfold image_ok in Hok.
  rewrite Forall_lookup in Hok. by eapply Hok.
Qed.

Lemma image_ok_insert (d d' : option Disk) (k : nat) (data : Block) :
  image_of d' = <[k := data]> (image_of d) ->
  block_ok data -> image_ok d -> image_ok d'.
Proof.
  intros Himg Hdata Hok. unfold image_ok in *. rewrite Himg.
  by apply Forall_insert.
Qed.

End InodeTable.

(** ** [fs_remove] *)

Section Remove.
Context `{G : Geometry} (HG : GeometryOk G).

Lemma bitmap_store_cases (bm : option (list bool)) (i : Z) (v : bool) (bm' : option (list bool)) :
  bitmap_store bm i v = Ok bm' ->
  exists l, bm = Some l /\ bm' = Some (<[Z.to_nat i := v]> l)
    /\ 0 <= i < Z.of_nat (length l).
Proof.
  unfold bitmap_store. destruct bm as [l|]; [|done].
  destruct (0 <=? i) eqn:E1; [|done]. destruct (i <? Z.of_nat (length l)) eqn:E2; [|done].
  simpl. intros [= <-]. exists l. repeat split; [lia|lia].
Qed.

Lemma released_refl (ptrs : list Z) (fs : FileSystem) : released ptrs fs fs.
Proof.
  split; [apply same_device_refl|]. split; [done|]. split; intros; by left.
Qed.

Lemma released_trans (ps qs rs : list Z) (fs fs1 fs2 : FileSystem) :
  released ps fs fs1 -> released qs fs1 fs2 ->
  (forall k, k ∈ ps -> k ≠ 0 -> k ∈ rs) -> (forall k, k ∈ qs -> k ≠ 0 -> k ∈ rs) ->
  released rs fs fs2.
Proof.
  intros (Hd & Hs & Hb & He) (Hd' & Hs' & Hb' & He') Hps Hqs.
  split; [by eapply same_device_trans|]. split; [congruence|]. split.
  - intros k Hk. destruct (Hb' k Hk) as [->|(? & ? & ?)]; [|right; by auto].
    destruct (Hb k Hk) as [->|(? & ? & ?)]; [by left|right; by auto].
  - intros k Hk. destruct (He' k Hk) as [->|(? & ? & ?)]; [|right; by auto].
    destruct (He k Hk) as [->|(? & ? & ?)]; [by left|right; by auto].
Qed.

(** The effect of a disk operation that changes no block. *)
Lemma released_set_disk (ptrs : list Z) (fs : FileSystem) (d' : option Disk) :
  image_of d' = image_of (disk fs) -> (is_Some d' <-> is_Some (disk fs)) ->
  (quiet (disk fs) -> quiet d') -> released ptrs fs (set_disk fs d').
Proof.
  intros Himg Hs Hq. split.
  { apply reads_only_same_device. by apply reads_only_set_disk. }
  split; [done|]. split; intros k Hk; left; [|done].
  by apply block_of_same.
Qed.

(** The effect of zeroing block [p] and freeing its entry. *)
Lemma released_step (fs : FileSystem) (p : Z) (d1 : option Disk) (bm : option (list bool)) :
  p ≠ 0 ->
  image_of d1 = <[Z.to_nat p := empty_block]> (image_of (disk fs)) ->
  (is_Some d1 <-> is_Some (disk fs)) -> (quiet (disk fs) -> quiet d1) ->
  0 <= p < Z.of_nat (length (image_of (disk fs))) ->
  bitmap_store (free_blocks fs) p true = Ok bm ->
  released [p] fs (set_free_blocks (set_disk fs d1) bm)
  /\ block_of d1 p = empty_block
  /\ bitmap_entry (set_free_blocks (set_disk fs d1) bm) p = Some true.
Proof.
  intros Hp Himg Hs Hq Hin Hst.
  apply bitmap_store_cases in Hst as (l & Hl & -> & Hpl).
  assert (Hblk : forall k, 0 <= k ->
            block_of d1 k = if decide (k = p) then empty_block else block_of (disk fs) k).
  { intros k Hk. by apply block_of_insert. }
  split; [|split].
  - split.
    { unfold same_device. simpl. rewrite Himg, length_insert.
      split; [done|]. split; [done|]. split; [done|]. split; [|done].
      intros Hok. eapply image_ok_insert; [exact Himg| |done].
      apply block_ok_empty. pose proof (ok_super_fits G HG). lia. }
    split; [simpl; rewrite Hl; simpl; by rewrite length_insert|]. split.
    + intros k Hk. simpl. rewrite Hblk by done.
      destruct (decide (k = p)) as [->|]; [right|by left].
      split; [by apply list_elem_of_singleton|done].
    + intros k Hk. unfold bitmap_entry. simpl. rewrite Hl.
      destruct (decide (k = p)) as [->|].
      * right. split; [by apply list_elem_of_singleton|]. split; [done|].
        apply list_lookup_insert_eq. lia.
      * left. apply list_lookup_insert_ne. lia.
  - rewrite Hblk by lia. by rewrite decide_True.
  - unfold bitmap_entry. simpl. apply list_lookup_insert_eq. lia.
Qed.

Lemma release_blocks_effect (ptrs : list Z) (fs : FileSystem) (ok : bool) (fs' : FileSystem) :
  release_blocks ptrs fs = Ok (ok, fs') ->
  released ptrs fs fs'
  /\ (ok = true -> forall p, p ∈ ptrs -> p ≠ 0 ->
        block_of (disk fs') p = empty_block /\ bitmap_entry fs' p = Some true).
Proof.
  revert fs. induction ptrs as [|p ptrs IH]; intros fs Hrel; simpl in Hrel.
  - injection Hrel as <- <-. split; [apply released_refl|].
    intros _ p Hp. by apply elem_of_nil in Hp.
  - destruct (Z.eqb_spec p 0) as [->|Hp].
    { destruct (IH fs Hrel) as [Hr Hall]. split.
      - eapply released_trans; [apply (released_refl [])|exact Hr| |];
          intros k Hk _; [by apply elem_of_nil in Hk|by right].
      - intros Hok q Hqin Hq0. apply elem_of_cons in Hqin as [->|Hqin]; [done|].
        by apply Hall. }
    destruct (disk_write_cases (disk fs) p empty_block)
      as [(d1 & Hw & Himg & Hs & Hq)|(d1 & Hw & Himg & Hs & Hq & Hin)];
      rewrite Hw in Hrel.
    { rewrite Z.eqb_refl in Hrel. injection Hrel as <- <-.
      split; [by apply released_set_disk|done]. }
    rewrite (BLOCK_SIZE_not_failure HG) in Hrel.
    destruct (bitmap_store (free_blocks fs) p true) as [bm|] eqn:Hst; [|done].
    destruct (released_step fs p d1 bm Hp Himg Hs Hq Hin Hst) as (Hstep & Hblk & Hent).
    destruct (IH _ Hrel) as [Hr Hall]. split.
    + eapply released_trans; [exact Hstep|exact Hr| |]; intros k Hk _.
      * apply list_elem_of_singleton in Hk as ->. left.
      * by right.
    + intros Hok q Hqin Hq0.
      destruct (decide (q ∈ ptrs)) as [Hin'|Hnin]; [by apply Hall|].
      apply elem_of_cons in Hqin as [->|Hqin]; [|done].
      destruct Hr as (_ & _ & Hb & He). split.
      * destruct (Hb p) as [->|(? & ? & ?)]; [lia|done|done].
      * destruct (He p) as [->|(? & ? & ?)]; [lia|done|done].
Qed.

(** The effect of freeing the entry of [p] around a read. *)
Lemma released_store (fs : FileSystem) (p : Z) (d1 : option Disk) (bm : option (list bool)) :
  p ≠ 0 ->
  image_of d1 = image_of (disk fs) ->
  (is_Some d1 <-> is_Some (disk fs)) -> (quiet (disk fs) -> quiet d1) ->
  bitmap_store (free_blocks fs) p true = Ok bm ->
  released [p] fs (set_free_blocks (set_disk fs d1) bm)
  /\ bitmap_entry (set_free_blocks (set_disk fs d1) bm) p = Some true
  /\ 0 <= p.
Proof.
  intros Hp Himg Hs Hq Hst.
  apply bitmap_store_cases in Hst as (l & Hl & -> & Hpl).
  split; [|split; [|lia]].
  - split.
    { unfold same_device, image_ok. simpl. rewrite Himg. tauto. }
    split; [simpl; rewrite Hl; simpl; by rewrite length_insert|]. split.
    + intros k Hk. left. simpl. by apply block_of_same.
    + intros k Hk. unfold bitmap_entry. simpl. rewrite Hl.
      destruct (decide (k = p)) as [->|].
      * right. split; [by apply list_elem_of_singleton|]. split; [done|].
        apply list_lookup_insert_eq. lia.
      * left. apply list_lookup_insert_ne. lia.
  - unfold bitmap_entry. simpl. apply list_lookup_insert_eq. lia.
Qed.

(** The effect of zeroing block [p]. *)
Lemma released_write (fs : FileSystem) (p : Z) (d1 : option Disk) :
  p ≠ 0 ->
  image_of d1 = <[Z.to_nat p := empty_block]> (image_of (disk fs)) ->
  (is_Some d1 <-> is_Some (disk fs)) -> (quiet (disk fs) -> quiet d1) ->
  0 <= p < Z.of_nat (length (image_of (disk fs))) ->
  released [p] fs (set_disk fs d1) /\ block_of d1 p = empty_block.
Proof.
  intros Hp Himg Hs Hq Hin.
  assert (Hblk : forall k, 0 <= k ->
            block_of d1 k = if decide (k = p) then empty_block else block_of (disk fs) k).
  { intros k Hk. by apply block_of_insert. }
  split.
  - split.
    { unfold same_device. simpl. rewrite Himg, length_insert.
      split; [done|]. split; [done|]. split; [done|]. split; [|done].
      intros Hok. eapply image_ok_insert; [exact Himg| |done].
      apply block_ok_empty. pose proof (ok_super_fits G HG). lia. }
    split; [done|]. split.
    + intros k Hk. simpl. rewrite Hblk by done.
      destruct (decide (k = p)) as [->|]; [right|by left].
      split; [by apply list_elem_of_singleton|done].
    + intros k Hk. by left.
  - rewrite Hblk by lia. by rewrite decide_True.
Qed.

Lemma release_indirect_effect (inode : Inode) (fs : FileSystem) (ok : bool) (fs' : FileSystem) :
  release_indirect inode fs = Ok (ok, fs') ->
  released (indirect_refs (disk fs) inode) fs fs'
  /\ (ok = true -> forall p, p ∈ indirect_refs (disk fs) inode -> p ≠ 0 ->
        block_of (disk fs') p = empty_block /\ bitmap_entry fs' p = Some true).
Proof.
  unfold release_indirect, indirect_refs.
  destruct (Z.eqb_spec (indirect inode) 0) as [Hz|Hnz].
  { intros [= <- <-]. split; [apply released_refl|].
    intros _ p Hp. by apply elem_of_nil in Hp. }
  set (ps := get_pointers (block_of (disk fs) (indirect inode))).
  destruct (bitmap_store (free_blocks fs) (indirect inode) true) as [bm|] eqn:Hst; [|done].
  destruct (disk_read_cases (disk fs) (indirect inode) empty_block)
    as [(d1 & Hr & Himg & Hs & Hq)|(d1 & Hr & Himg & Hs & Hq & Hin)]; rewrite Hr.
  { rewrite Z.eqb_refl. intros [= <- <-].
    destruct (released_store fs _ d1 bm Hnz Himg Hs Hq Hst) as (Hrel & _ & _).
    split; [|done].
    eapply released_trans; [exact Hrel|apply (released_refl [])| |]; intros k Hk _.
    - apply list_elem_of_singleton in Hk as ->. left.
    - by apply elem_of_nil in Hk. }
  rewrite (BLOCK_SIZE_not_failure HG).
  destruct (released_store fs _ d1 bm Hnz Himg Hs Hq Hst) as (Hrel0 & Hent0 & Hpos).
  set (fs0 := set_free_blocks (set_disk fs d1) bm) in *. fold ps.
  destruct (release_blocks ps fs0) as [[ok1 fs1]|] eqn:Hrb; [|done].
  destruct (release_blocks_effect ps fs0 ok1 fs1 Hrb) as [Hrel1 Hall1].
  assert (Hrel01 : released (indirect inode :: ps) fs fs1).
  { eapply released_trans; [exact Hrel0|exact Hrel1| |]; intros k Hk _.
    - apply list_elem_of_singleton in Hk as ->. left.
    - by right. }
  destruct ok1; cbn [negb].
  2:{ intros [= <- <-]. by split. }
  destruct (disk_write_cases (disk fs1) (indirect inode) empty_block)
    as [(d2 & Hw & Himg2 & Hs2 & Hq2)|(d2 & Hw & Himg2 & Hs2 & Hq2 & Hin2)];
    rewrite Hw.
  { rewrite Z.eqb_refl. intros [= <- <-]. split; [|done].
    eapply released_trans;
      [exact Hrel01|apply (released_set_disk [] fs1 d2 Himg2 Hs2 Hq2)| |];
      intros k Hk _; [done|by apply elem_of_nil in Hk]. }
  rewrite (BLOCK_SIZE_not_failure HG). intros [= <- <-].
  destruct (released_write fs1 _ d2 Hnz Himg2 Hs2 Hq2 Hin2) as [Hrel2 Hblk2].
  split.
  { eapply released_trans; [exact Hrel01|exact Hrel2| |]; intros k Hk _; [done|].
    apply list_elem_of_singleton in Hk as ->. left. }
  intros _ p Hp Hp0.
  destruct Hrel1 as (_ & _ & Hb1 & He1). destruct Hrel2 as (_ & _ & Hb2 & He2).
  assert (Hp' : 0 <= p).
  { apply elem_of_cons in Hp as [->|Hp]; [done|].
    unfold ps, get_pointers, get_words in Hp.
    apply list_elem_of_fmap in Hp as (k & -> & _).
    apply get_u32_range. }
  assert (Hent : bitmap_entry fs1 p = Some true).
  { destruct (decide (p ∈ ps)) as [Hin'|Hnin]; [by apply Hall1|].
    apply elem_of_cons in Hp as [->|Hp]; [|done].
    destruct (He1 (indirect inode) Hpos) as [->|(? & ? & ?)]; done. }
  assert (Hblk : p = indirect inode \/ block_of (disk fs1) p = empty_block).
  { destruct (decide (p ∈ ps)) as [Hin'|Hnin]; [right; by apply Hall1|].
    apply elem_of_cons in Hp as [->|Hp]; [by left|done]. }
  split.
  - simpl. destruct (Hb2 p Hp') as [Heq|(? & ? & ?)]; [|done].
    simpl in Heq. destruct Hblk as [->|Hblk]; [done|]. by rewrite Heq.
  - destruct (He2 p Hp') as [->|(? & ? & ?)]; done.
Qed.

(** What a successful [fs_remove] went through. *)
Lemma fs_remove_true_inv (fs : FileSystem) (n : Z) (fs' : FileSystem) :
  fs_remove fs n = Ok (true, fs') ->
  exists fs1 fs2 fs3,
    reads_only fs fs1
    /\ fs_load_inode fs n = (Some (inode_on_disk (disk fs) n), fs1)
    /\ valid (inode_on_disk (disk fs) n) ≠ 0
    /\ 0 <= slot_block n < Z.of_nat (length (image_of (disk fs)))
    /\ release_blocks (direct (inode_on_disk (disk fs) n)) fs1 = Ok (true, fs2)
    /\ release_indirect (inode_on_disk (disk fs) n) fs2 = Ok (true, fs3)
    /\ fs' = (fs_save_inode fs3 n iblank).2.
Proof.
  unfold fs_remove.
  destruct (fs_load_inode_cases HG fs n) as (fs1 & Hro & [Hl|(Hl & Hv & Hin)]);
    rewrite Hl; [done|].
  destruct (release_blocks _ fs1) as [[[] fs2]|] eqn:Hrb; cbn [negb]; [|done|done].
  destruct (release_indirect _ fs2) as [[[] fs3]|] eqn:Hri; cbn [negb]; [|done|done].
  intros [= <-]. by exists fs1, fs2, fs3.
Qed.


(** After a save on a quiet device the slot holds the saved record. *)
Lemma inode_on_disk_after_save (fs : FileSystem) (n : Z) (node : Inode) :
  0 <= n -> quiet (disk fs) -> image_ok (disk fs) ->
  0 <= slot_block n < Z.of_nat (length (image_of (disk fs))) ->
  Z.of_nat (length (direct node)) = POINTERS_PER_INODE ->
  exists fs1, fs_save_inode fs n node = (true, fs1)
    /\ free_blocks fs1 = free_blocks fs /\ same_device fs fs1 /\ quiet (disk fs1)
    /\ inode_on_disk (disk fs1) n =
         {| valid := wrap32 (valid node); size := wrap32 (size node);
            direct := wrap32 <$> direct node; indirect := wrap32 (indirect node) |}
    /\ (forall k, 0 <= k -> k ≠ slot_block n ->
          block_of (disk fs1) k = block_of (disk fs) k).
Proof.
  intros Hn Hq Hok Hin Hdir.
  destruct (fs_save_inode_quiet HG fs n node Hq Hin) as (fs1 & Hs & Hfree & Hmeta & Hq1 & Himg).
  pose proof (image_ok_block_of _ _ Hok Hin) as Hblk.
  exists fs1. split; [done|]. split; [done|]. split; [|split; [done|split]].
  - unfold same_device. rewrite Himg, length_insert.
    split; [done|]. split; [done|]. split; [done|]. split.
    + intros _. eapply image_ok_insert; [exact Himg| |done].
      by apply block_ok_set_inode.
    + split; intros _; apply image_nonempty_is_Some;
        rewrite ?Himg, ?length_insert; lia.
  - unfold inode_on_disk. rewrite (block_of_insert _ _ _ _ _ Himg Hin) by lia.
    rewrite decide_True by done.
    apply (get_inode_set_inode_eq HG); [apply (slot_index_range HG n Hn)| |done].
    pose proof (slot_index_range HG n Hn).
    by apply (slot_fits HG).
  - intros k Hk Hne. rewrite (block_of_insert _ _ _ _ _ Himg Hin) by lia.
    by rewrite decide_False.
Qed.

End Remove.


(** ** Removing an inode *)

Section RemoveClaims.
Context `{G : Geometry}.

Lemma iblank_read_back :
  {| valid := wrap32 (valid iblank); size := wrap32 (size iblank);
     direct := wrap32 <$> direct iblank; indirect := wrap32 (indirect iblank) |}
  = iblank.
Proof. unfold iblank. simpl. by rewrite fmap_replicate. Qed.



End RemoveClaims.

(** ** [fs_create] *)

Section Create.
Context `{G : Geometry} (HG : GeometryOk G).

(** Slot [j] of table block [i] is inode number [j + (i - 1) * INODES_PER_BLOCK]. *)
Lemma slot_of_number (i j : Z) :
  0 <= j < INODES_PER_BLOCK ->
  slot_block (j + (i - 1) * INODES_PER_BLOCK) = i
  /\ slot_index (j + (i - 1) * INODES_PER_BLOCK) = j.
Proof.
  intros Hj. unfold slot_index, slot_block.
  rewrite Z.div_add by lia. rewrite Z.div_small by lia. lia.
Qed.

Lemma number_of_slot (n : Z) :
  n = slot_index n + (slot_block n - 1) * INODES_PER_BLOCK.
Proof. unfold slot_index. lia. Qed.

(** The scan of one table block on a quiet device: it claims the first
    slot of the range whose flag is unset, or finds every flag set. *)
Lemma create_slots_spec (k : nat) (j0 i : Z) (block : Block) (d : option Disk) :
  quiet d -> 0 <= i < Z.of_nat (length (image_of d)) -> 0 <= j0 ->
  match create_slots (seqZ j0 (Z.of_nat k)) i block d with
  | (Some n, _, d') =>
      exists j, j0 <= j < j0 + Z.of_nat k /\ n = j + (i - 1) * INODES_PER_BLOCK
        /\ valid (get_inode block j) = 0
        /\ (forall j', j0 <= j' < j -> valid (get_inode block j') ≠ 0)
        /\ image_of d' = <[Z.to_nat i := set_u32 block (j * INODE_WORDS) 1]> (image_of d)
        /\ quiet d'
  | (None, block', d') =>
      block' = block /\ d' = d
      /\ forall j', j0 <= j' < j0 + Z.of_nat k -> valid (get_inode block j') ≠ 0
  end.
Proof.
  intros Hq Hi. revert j0. induction k as [|k IH]; intros j0 Hj0.
  { simpl. split; [done|]. split; [done|]. lia. }
  rewrite seqZ_cons by lia. cbn [create_slots].
  replace (Z.pred (Z.of_nat (S k))) with (Z.of_nat k) by lia.
  destruct (Z.eqb_spec (valid (get_inode block j0)) 0) as [Hv|Hv].
  - destruct (disk_write_in d i (set_u32 block (j0 * INODE_WORDS) 1) Hq Hi)
      as (d1 & Hw & Himg & Hq1).
    rewrite Hw, Z.eqb_refl. exists j0. split; [lia|]. split; [done|].
    split; [done|]. split; [lia|]. by split.
  - specialize (IH (Z.succ j0) ltac:(lia)).
    destruct (create_slots (seqZ (Z.succ j0) (Z.of_nat k)) i block d)
      as [[[n|] block'] d'].
    + destruct IH as (j & Hj & Hn & Hvj & Hbefore & Himg & Hq').
      exists j. split; [lia|]. split; [done|]. split; [done|]. split; [|done].
      intros j' Hj'. destruct (decide (j' = j0)) as [->|]; [done|].
      apply Hbefore. lia.
    + destruct IH as (-> & -> & Hall). split; [done|]. split; [done|].
      intros j' Hj'. destruct (decide (j' = j0)) as [->|]; [done|].
      apply Hall. lia.
Qed.

(** The scan of the table blocks [i0 .. i0 + k - 1] on a quiet device. *)
Lemma create_blocks_spec (k : nat) (i0 : Z) (block : Block) (d : option Disk) :
  quiet d -> 1 <= i0 -> i0 + Z.of_nat k <= Z.of_nat (length (image_of d)) ->
  exists d', create_blocks (seqZ i0 (Z.of_nat k)) block d
             = ((create_blocks (seqZ i0 (Z.of_nat k)) block d).1, d')
    /\ quiet d' /\
    let r := (create_blocks (seqZ i0 (Z.of_nat k)) block d).1 in
    (r = -1 /\ image_of d' = image_of d
     /\ forall i j, i0 <= i < i0 + Z.of_nat k -> 0 <= j < INODES_PER_BLOCK ->
          valid (get_inode (block_of d i) j) ≠ 0)
    \/ (exists i j, i0 <= i < i0 + Z.of_nat k /\ 0 <= j < INODES_PER_BLOCK
          /\ r = j + (i - 1) * INODES_PER_BLOCK
          /\ valid (get_inode (block_of d i) j) = 0
          /\ (forall i' j', 0 <= j' < INODES_PER_BLOCK ->
                 (i0 <= i' < i \/ (i' = i /\ j' < j)) ->
                 valid (get_inode (block_of d i') j') ≠ 0)
          /\ image_of d' =
               <[Z.to_nat i := set_u32 (block_of d i) (j * INODE_WORDS) 1]> (image_of d)).
Proof.
  revert i0 block d. induction k as [|k IH]; intros i0 block d Hq Hi0 Hlen.
  { simpl. exists d. split; [done|]. split; [done|]. left.
    split; [done|]. split; [done|]. lia. }
  rewrite seqZ_cons by lia. cbn [create_blocks].
  replace (Z.pred (Z.of_nat (S k))) with (Z.of_nat k) by lia.
  destruct (disk_read_in d i0 block Hq) as (d1 & Hr & Himg1 & Hq1); [lia|].
  rewrite Hr, Z.eqb_refl.
  pose proof (ok_inodes_per_block G HG) as Hipb.
  pose proof (create_slots_spec (Z.to_nat INODES_PER_BLOCK) 0 i0 (block_of d i0) d1 Hq1)
    as Hslots.
  rewrite Z2Nat.id in Hslots by lia.
  specialize (Hslots ltac:(rewrite Himg1; lia) ltac:(lia)).
  destruct (create_slots (seqZ 0 INODES_PER_BLOCK) i0 (block_of d i0) d1)
    as [[[n|] block'] d2].
  - destruct Hslots as (j & Hj & Hn & Hvj & Hbefore & Himg & Hq2).
    exists d2. split; [done|]. split; [done|]. right. simpl.
    exists i0, j. split; [lia|]. split; [lia|]. split; [done|]. split; [done|].
    split; [|by rewrite Himg, Himg1].
    intros i' j' Hj' [Hi'|[-> Hlt]]; [lia|]. apply Hbefore. lia.
  - destruct Hslots as (-> & -> & Hall).
    destruct (IH (Z.succ i0) (block_of d i0) d1 Hq1 ltac:(lia)
                ltac:(rewrite Himg1; lia)) as (d' & Heq & Hq' & Hcases).
    exists d'. split; [done|]. split; [done|].
    assert (Hblk : forall i, block_of d1 i = block_of d i).
    { intros i. by apply block_of_same. }
    simpl in Hcases. destruct Hcases as [(Hr' & Himg & Hall')|
      (i & j & Hi & Hj & Hn & Hvj & Hbefore & Himg)].
    + left. split; [done|]. split; [congruence|].
      intros i j Hi Hj. destruct (decide (i = i0)) as [->|].
      * apply Hall. lia.
      * rewrite <- Hblk. apply Hall'; lia.
    + right. exists i, j. split; [lia|]. split; [done|]. split; [done|].
      rewrite <- Hblk. split; [done|]. split; [|by rewrite Himg, Himg1].
      intros i' j' Hj' Hlt. destruct (decide (i' = i0)) as [->|].
      * apply Hall. lia.
      * rewrite <- Hblk. apply Hbefore; [done|]. lia.
Qed.

End Create.

(** ** Creating an inode *)

Section CreateClaims.
Context `{G : Geometry}.


End CreateClaims.

(** ** [fs_mount]: the walk over the inode table *)

Section MountWalk.
Context `{G : Geometry} (HG : GeometryOk G).

Lemma bitmap_marks_refl (bm : option (list bool)) : bitmap_marks bm bm.
Proof. by destruct bm. Qed.

Lemma bitmap_marks_trans (a b c : option (list bool)) :
  bitmap_marks a b -> bitmap_marks b c -> bitmap_marks a c.
Proof.
  destruct a, b, c; simpl; try done. intros [H1 H2] [K1 K2].
  split; [congruence|]. intros k Hk. by apply K2, H2.
Qed.

Lemma bitmap_store_false_marks (bm bm' : option (list bool)) (i : Z) :
  bitmap_store bm i false = Ok bm' -> bitmap_marks bm bm'.
Proof.
  intros Hst. apply bitmap_store_cases in Hst as (l & -> & -> & Hi). simpl.
  split; [by rewrite length_insert|]. intros k Hk.
  destruct (decide (k = Z.to_nat i)) as [->|].
  - apply list_lookup_insert_eq. lia.
  - by rewrite list_lookup_insert_ne.
Qed.

Lemma mark_used_marks (ptrs : list Z) (bm bm' : option (list bool)) :
  mark_used ptrs bm = Ok bm' -> bitmap_marks bm bm'.
Proof.
  revert bm. induction ptrs as [|p ptrs IH]; intros bm; simpl.
  - intros [= <-]. apply bitmap_marks_refl.
  - destruct (p =? 0); [apply IH|].
    destruct (bitmap_store bm p false) as [bm1|] eqn:Hst; [|done].
    intros Hm. eapply bitmap_marks_trans; [by eapply bitmap_store_false_marks|by apply IH].
Qed.

(** Marking succeeds when the nonzero pointers lie inside the bitmap. *)
Lemma mark_used_ok (ptrs : list Z) (l : list bool) :
  (forall p, p ∈ ptrs -> p ≠ 0 -> 0 <= p < Z.of_nat (length l)) ->
  exists l', mark_used ptrs (Some l) = Ok (Some l') /\ length l' = length l.
Proof.
  revert l. induction ptrs as [|p ptrs IH]; intros l Hin; simpl.
  - by exists l.
  - destruct (Z.eqb_spec p 0) as [->|Hp].
    + apply IH. intros q Hq. apply Hin. by right.
    + unfold bitmap_store.
      assert (Hr : 0 <= p < Z.of_nat (length l)) by (apply Hin; [left|done]).
      destruct (0 <=? p) eqn:E1; [|lia]. destruct (p <? Z.of_nat (length l)) eqn:E2; [|lia].
      simpl. destruct (IH (<[Z.to_nat p := false]> l)) as (l' & Hm & Hlen).
      { rewrite length_insert. intros q Hq. apply Hin. by right. }
      exists l'. split; [done|]. by rewrite Hlen, length_insert.
Qed.

Lemma mount_frame_refl (fs : FileSystem) : mount_frame fs fs.
Proof. split; [done|]. split; [done|]. split; [apply bitmap_marks_refl|done]. Qed.

Lemma mount_frame_trans (fs fs1 fs2 : FileSystem) :
  mount_frame fs fs1 -> mount_frame fs1 fs2 -> mount_frame fs fs2.
Proof.
  intros (H1 & H2 & H3 & H4) (K1 & K2 & K3 & K4).
  split; [congruence|]. split; [congruence|].
  split; [by eapply bitmap_marks_trans|tauto].
Qed.

Lemma mount_inode_frame (inode : Inode) (fs : FileSystem) (blk : Block)
    (go : bool) (fs' : FileSystem) (blk' : Block) :
  mount_inode inode fs blk = Ok (go, fs', blk') -> mount_frame fs fs'.
Proof.
  unfold mount_inode. destruct (valid inode =? 0).
  { intros [= <- <- <-]. apply mount_frame_refl. }
  destruct (mark_used (direct inode) (free_blocks fs)) as [bm1|] eqn:Hm1; [|done].
  apply mark_used_marks in Hm1.
  destruct (indirect inode =? 0).
  { intros [= <- <- <-]. by repeat split. }
  destruct (bitmap_store bm1 (indirect inode) false) as [bm2|] eqn:Hst; [|done].
  apply bitmap_store_false_marks in Hst.
  destruct (disk_read_cases (disk fs) (indirect inode) blk)
    as [(d1 & Hr & Himg & Hs & Hq)|(d1 & Hr & Himg & Hs & Hq & Hin)]; rewrite Hr.
  { rewrite Z.eqb_refl. intros [= <- <- <-].
    split; [done|]. split; [done|]. split; [by eapply bitmap_marks_trans|done]. }
  rewrite (BLOCK_SIZE_not_failure HG).
  destruct (mark_used _ bm2) as [bm3|] eqn:Hm3; [|done].
  apply mark_used_marks in Hm3. intros [= <- <- <-].
  split; [done|]. split; [done|]. split; [|done].
  eapply bitmap_marks_trans; [exact Hm1|]. by eapply bitmap_marks_trans.
Qed.

Lemma mount_slots_frame (js : list Z) (inode_blk : Block) (fs : FileSystem)
    (blk : Block) (go : bool) (fs' : FileSystem) (blk' : Block) :
  mount_slots js inode_blk fs blk = Ok (go, fs', blk') -> mount_frame fs fs'.
Proof.
  revert fs blk. induction js as [|j js IH]; intros fs blk; simpl.
  - intros [= <- <- <-]. apply mount_frame_refl.
  - destruct (mount_inode _ fs blk) as [[[go1 fs1] blk1]|] eqn:Hi; [|done].
    apply mount_inode_frame in Hi. destruct go1.
    + intros Hs. eapply mount_frame_trans; [exact Hi|by eapply IH].
    + by intros [= <- <- <-].
Qed.

Lemma mount_blocks_frame (ns : list Z) (fs : FileSystem) (inode_blk blk : Block)
    (go : bool) (fs' : FileSystem) :
  mount_blocks ns fs inode_blk blk = Ok (go, fs') -> mount_frame fs fs'.
Proof.
  revert fs inode_blk blk. induction ns as [|i ns IH]; intros fs inode_blk blk; simpl.
  - intros [= <- <-]. apply mount_frame_refl.
  - destruct (disk_read_cases (disk fs) i inode_blk)
      as [(d1 & Hr & Himg & Hs & Hq)|(d1 & Hr & Himg & Hs & Hq & Hin)]; rewrite Hr.
    all: destruct (mount_slots _ _ (set_disk fs d1) blk)
           as [[[go1 fs1] blk1]|] eqn:Hsl; [|done].
    all: apply mount_slots_frame in Hsl.
    all: assert (Hf1 : mount_frame fs fs1)
           by (eapply mount_frame_trans; [|exact Hsl];
               split; [done|]; split; [done|]; split; [apply bitmap_marks_refl|done]).
    all: destruct go1; [|by intros [= <- <-]].
    all: intros Hb; eapply mount_frame_trans; [exact Hf1|by eapply IH].
Qed.

Lemma bitmap_marks_Some (l : list bool) (bm' : option (list bool)) :
  bitmap_marks (Some l) bm' ->
  exists l', bm' = Some l' /\ length l' = length l
    /\ forall k : nat, l !! k = Some false -> l' !! k = Some false.
Proof. destruct bm' as [l'|]; [|done]. intros [H1 H2]. by exists l'. Qed.

Lemma referenced_same (d d' : option Disk) (inode : Inode) :
  image_of d' = image_of d -> referenced d' inode = referenced d inode.
Proof.
  intros Himg. unfold referenced, indirect_refs. by rewrite (block_of_same _ _ _ Himg).
Qed.

Lemma get_words_nonneg (b : Block) (w n p : Z) : p ∈ get_words b w n -> 0 <= p.
Proof.
  unfold get_words. intros Hp. apply list_elem_of_fmap in Hp as (k & -> & _).
  apply get_u32_range.
Qed.

Lemma referenced_nonneg (d : option Disk) (b : Block) (j p : Z) :
  p ∈ referenced d (get_inode b j) -> 0 <= p.
Proof.
  unfold referenced, indirect_refs. rewrite elem_of_app. intros [Hp|Hp].
  - simpl in Hp. by eapply get_words_nonneg.
  - destruct (_ =? 0); [by apply elem_of_nil in Hp|].
    apply elem_of_cons in Hp as [->|Hp]; [apply get_u32_range|].
    unfold get_pointers in Hp. by eapply get_words_nonneg.
Qed.

(** On a quiet device the body of the slot loop goes through when the
    pointers of the inode lie inside the device. *)
Lemma mount_inode_ok (inode : Inode) (fs : FileSystem) (blk : Block) (l : list bool) :
  quiet (disk fs) -> free_blocks fs = Some l ->
  length l = length (image_of (disk fs)) ->
  (valid inode ≠ 0 -> forall p, p ∈ referenced (disk fs) inode ->
     0 <= p < Z.of_nat (length (image_of (disk fs)))) ->
  exists fs' blk', mount_inode inode fs blk = Ok (true, fs', blk').
Proof.
  intros Hq Hfree Hlen Hin. unfold mount_inode.
  destruct (Z.eqb_spec (valid inode) 0) as [|Hv]; [by eauto|].
  specialize (Hin Hv). unfold referenced, indirect_refs in Hin. rewrite Hfree.
  destruct (mark_used_ok (direct inode) l) as (l1 & Hm1 & Hlen1).
  { intros p Hp _. rewrite Hlen. apply Hin. rewrite elem_of_app. by left. }
  rewrite Hm1.
  destruct (Z.eqb_spec (indirect inode) 0) as [|Hnz]; [by eauto|].
  assert (Hind : 0 <= indirect inode < Z.of_nat (length (image_of (disk fs)))).
  { apply Hin. rewrite elem_of_app. right. left. }
  unfold bitmap_store.
  destruct (0 <=? indirect inode) eqn:E1; [|lia].
  destruct (indirect inode <? Z.of_nat (length l1)) eqn:E2; [|lia]. simpl.
  destruct (disk_read_in (disk fs) (indirect inode) blk Hq Hind) as (d1 & Hr & Himg & Hq1).
  rewrite Hr, (BLOCK_SIZE_not_failure HG).
  destruct (mark_used_ok (get_pointers (block_of (disk fs) (indirect inode)))
              (<[Z.to_nat (indirect inode) := false]> l1)) as (l3 & Hm3 & Hlen3).
  { intros p Hp _. rewrite length_insert, Hlen1, Hlen. apply Hin.
    rewrite elem_of_app. right. by right. }
  rewrite Hm3. by eauto.
Qed.

Lemma mount_slots_ok (js : list Z) (inode_blk : Block) (fs : FileSystem)
    (blk : Block) (l : list bool) :
  quiet (disk fs) -> free_blocks fs = Some l ->
  length l = length (image_of (disk fs)) ->
  (forall j, j ∈ js -> valid (get_inode inode_blk j) ≠ 0 ->
     forall p, p ∈ referenced (disk fs) (get_inode inode_blk j) ->
       p < Z.of_nat (length (image_of (disk fs)))) ->
  exists fs' blk', mount_slots js inode_blk fs blk = Ok (true, fs', blk').
Proof.
  revert fs blk l. induction js as [|j js IH]; intros fs blk l Hq Hfree Hlen Hin; simpl.
  { by eauto. }
  destruct (mount_inode_ok (get_inode inode_blk j) fs blk l Hq Hfree Hlen)
    as (fs1 & blk1 & Hi).
  { intros Hv p Hp. split; [by eapply referenced_nonneg|].
    apply (Hin j); [left|done|done]. }
  rewrite Hi. destruct (mount_inode_frame _ _ _ _ _ _ Hi) as (Himg & _ & Hbm & Hq1).
  rewrite Hfree in Hbm. apply bitmap_marks_Some in Hbm as (l1 & Hfree1 & Hlen1 & _).
  apply (IH fs1 blk1 l1); [by apply Hq1|done|by rewrite Hlen1, Himg|].
  intros j' Hj' Hv p Hp. rewrite Himg. apply (Hin j'); [by right|done|].
  by rewrite <- (referenced_same _ _ _ Himg).
Qed.

Lemma mount_blocks_ok (ns : list Z) (fs : FileSystem) (inode_blk blk : Block)
    (l : list bool) :
  quiet (disk fs) -> free_blocks fs = Some l ->
  length l = length (image_of (disk fs)) ->
  (forall i, i ∈ ns -> 0 <= i < Z.of_nat (length (image_of (disk fs)))) ->
  (forall i j, i ∈ ns -> 0 <= j < INODES_PER_BLOCK ->
     valid (get_inode (block_of (disk fs) i) j) ≠ 0 ->
     forall p, p ∈ referenced (disk fs) (get_inode (block_of (disk fs) i) j) ->
       p < Z.of_nat (length (image_of (disk fs)))) ->
  exists fs', mount_blocks ns fs inode_blk blk = Ok (true, fs').
Proof.
  revert fs inode_blk blk l.
  induction ns as [|i ns IH]; intros fs inode_blk blk l Hq Hfree Hlen Hrange Hin; simpl.
  { by eauto. }
  destruct (disk_read_in (disk fs) i inode_blk Hq) as (d1 & Hr & Himg & Hq1).
  { apply Hrange. left. }
  rewrite Hr.
  destruct (mount_slots_ok (seqZ 0 INODES_PER_BLOCK) (block_of (disk fs) i)
              (set_disk fs d1) blk l) as (fs1 & blk1 & Hsl); [done|done|..].
  { simpl. by rewrite Himg. }
  { intros j Hj Hv p Hp. simpl in *. rewrite Himg.
    apply elem_of_seqZ in Hj.
    apply (Hin i j); [left|lia|done|]. by rewrite <- (referenced_same _ _ _ Himg). }
  rewrite Hsl.
  destruct (mount_slots_frame _ _ _ _ _ _ _ Hsl) as (Himg1 & _ & Hbm & Hq2).
  simpl in Himg1, Hbm, Hq2. rewrite Hfree in Hbm.
  apply bitmap_marks_Some in Hbm as (l1 & Hfree1 & Hlen1 & _).
  assert (Himg' : image_of (disk fs1) = image_of (disk fs)) by congruence.
  apply (IH fs1 (block_of (disk fs) i) blk1 l1);
    [by apply Hq2|done|by rewrite Hlen1, Himg'|..].
  - intros i' Hi'. rewrite Himg'. apply Hrange. by right.
  - intros i' j Hi' Hj Hv p Hp. rewrite Himg'.
    rewrite (block_of_same _ _ _ Himg') in Hv, Hp.
    rewrite (referenced_same _ _ _ Himg') in Hp.
    by apply (Hin i' j); [right|..].
Qed.

Lemma initial_bitmap (nb ib : Z) :
  let l := (fun i => negb (i <=? ib)) <$> seqZ 0 nb in
  length l = Z.to_nat nb
  /\ forall k, 0 <= k <= ib -> k < nb -> l !! Z.to_nat k = Some false.
Proof.
  simpl. split; [by rewrite length_fmap, length_seqZ|].
  intros k Hk Hnb. rewrite list_lookup_fmap, lookup_seqZ_lt by lia. simpl.
  rewrite Z2Nat.id, Z.add_0_l by lia. destruct (k <=? ib) eqn:E; [done|lia].
Qed.

(** What a successful [fs_mount] established. *)
Lemma fs_mount_true (fs : FileSystem) (d : option Disk) (uninit : Block)
    (fs' : FileSystem) (d' : option Disk) :
  fs_mount fs d uninit = Ok (true, fs', d') ->
  free_blocks fs = None /\ super_valid d /\ d' = disk fs'
  /\ image_of (disk fs') = image_of d /\ meta_data fs' = super_of d
  /\ reserved_marked fs' /\ (quiet d -> quiet (disk fs')).
Proof.
  unfold fs_mount. destruct (free_blocks fs) as [bm|] eqn:Hfree; [done|].
  destruct d as [d|]; [|done].
  destruct (disk_read_cases (Some d) 0 uninit)
    as [(d1 & Hr & Himg & _)|(d1 & Hr & Himg & [_ Hsome] & Hq & _)]; rewrite Hr.
  { by rewrite Z.eqb_refl. }
  destruct Hsome as [x ->]; [by eauto|].
  rewrite (BLOCK_SIZE_not_failure HG), (wrap32_magic HG).
  fold (super_of (Some d)). cbn [fmap option_fmap option_map default].
  assert (Hblocks : disk_blocks x = Z.of_nat (length (image_of (Some d)))).
  { unfold disk_blocks. by rewrite <- Himg. }
  rewrite Hblocks.
  repeat match goal with
  | |- context [negb (?a =? ?b)] =>
      destruct (Z.eqb_spec a b); cbn [negb]; [|done]
  end.
  destruct (mount_blocks _ _ uninit uninit) as [[go fs3]|] eqn:Hmb; [|done].
  intros [= -> <- <-].
  destruct (mount_blocks_frame _ _ _ _ _ _ Hmb) as (Himg3 & Hmeta3 & Hbm3 & Hq3).
  unfold fs_initialize_free_block_bitmap, set_free_blocks in Himg3, Hmeta3, Hbm3, Hq3.
  cbn [disk meta_data free_blocks] in Himg3, Hmeta3, Hbm3, Hq3.
  split; [done|]. split; [by repeat split|]. split; [done|].
  split; [congruence|]. split; [done|]. split; [|tauto].
  fold (super_of (Some d)) in Hbm3, Hmeta3.
  apply bitmap_marks_Some in Hbm3 as (l' & Hfree' & Hlen' & Hfalse).
  destruct (initial_bitmap (blocks (super_of (Some d))) (inode_blocks (super_of (Some d))))
    as [Hlen0 Hinit].
  exists l'. split; [done|]. rewrite Hmeta3. split.
  - rewrite Hlen', Hlen0. pose proof (get_u32_range (block_of (Some d) 0) 1).
    unfold super_of, get_super. cbn [blocks]. lia.
  - intros k Hk Hnb. apply Hfalse. by apply Hinit.
Qed.

(** On a quiet device of at least two blocks with a valid super block,
    [fs_mount] succeeds when the pointers of the valid inodes lie inside the
    device. *)
Lemma fs_mount_ok (fs : FileSystem) (d : option Disk) (uninit : Block) :
  free_blocks fs = None -> quiet d -> super_valid d ->
  (2 <= length (image_of d))%nat -> pointers_within d ->
  exists fs', fs_mount fs d uninit = Ok (true, fs', disk fs').
Proof.
  intros Hfree Hq (Hmagic & Hblocks & Hib & Hinodes) Hlen Hptrs.
  unfold fs_mount. rewrite Hfree.
  destruct d as [d|]; [|simpl in Hlen; lia].
  destruct (disk_read_in (Some d) 0 uninit Hq) as (d1 & Hr & Himg & Hq1); [lia|].
  rewrite Hr, (BLOCK_SIZE_not_failure HG), (wrap32_magic HG).
  fold (super_of (Some d)).
  assert (Hd1 : default 0 (disk_blocks <$> d1) = Z.of_nat (length (image_of (Some d)))).
  { destruct d1 as [x|]; [|by rewrite <- Himg in Hlen; simpl in Hlen; lia].
    simpl. unfold disk_blocks. by rewrite <- Himg. }
  rewrite Hd1, Hmagic, Z.eqb_refl. cbn [negb].
  rewrite (proj2 (Z.eqb_eq _ _) Hblocks). cbn [negb].
  rewrite (proj2 (Z.eqb_eq _ _) Hib). cbn [negb].
  rewrite (proj2 (Z.eqb_eq _ _) Hinodes). cbn [negb].
  destruct (initial_bitmap (blocks (super_of (Some d))) (inode_blocks (super_of (Some d))))
    as [Hlen0 _].
  assert (Hibr : 0 <= inode_blocks (super_of (Some d))
                 < Z.of_nat (length (image_of (Some d)))).
  { rewrite Hib, Hblocks.
    pose proof (Z.div_mod (Z.of_nat (length (image_of (Some d)))) 10 ltac:(lia)).
    pose proof (Z.mod_pos_bound (Z.of_nat (length (image_of (Some d)))) 10 ltac:(lia)).
    destruct (Z.eqb_spec (Z.of_nat (length (image_of (Some d))) mod 10) 0); lia. }
  destruct (mount_blocks_ok (seqZ 1 (inode_blocks (super_of (Some d))))
              (fs_initialize_free_block_bitmap
                 {| disk := d1; meta_data := super_of (Some d); free_blocks := None |}
                 (block_of (Some d) 0)) uninit uninit
              ((fun i => negb (i <=? inode_blocks (super_of (Some d))))
                 <$> seqZ 0 (blocks (super_of (Some d)))))
    as (fs3 & Hmb); [done|done|..].
  - fs_simpl. rewrite Hlen0, Himg, Hblocks. lia.
  - intros i Hi. apply elem_of_seqZ in Hi. fs_simpl. rewrite Himg. lia.
  - intros i j Hi Hj Hv p Hp. apply elem_of_seqZ in Hi. fs_simpl. rewrite Himg.
    rewrite (block_of_same _ _ _ Himg) in Hv, Hp.
    rewrite (referenced_same _ _ _ Himg) in Hp.
    apply (Hptrs i j); [lia|done|done|done].
  - rewrite Hmb. by exists fs3.
Qed.

End MountWalk.

(** ** Mounting *)

Section MountClaims.
Context `{G : Geometry}.

(** C4 (amended): [fs_mount] returns [false] and leaves the structure and
    the image as they are when the structure is already mounted or when the
    super block in block 0 fails a check (magic number, block count against
    the device, inode blocks against the rounding rule, inode count); it
    returns [true], with the bitmap allocated and the super block cached,
    when the structure is unmounted, the checks pass, no system call fails,
    the device has at least two blocks and every block number a valid inode
    refers to lies inside the device. *)
Theorem fs_mount_checks (fs : FileSystem) (d : option Disk) (uninit : Block) :
  GeometryOk G ->
  (is_Some (free_blocks fs) \/ ~ super_valid d ->
     exists d', fs_mount fs d uninit = Ok (false, fs, d')
       /\ image_of d' = image_of d)
  /\ (free_blocks fs = None -> super_valid d -> quiet d ->
       (2 <= length (image_of d))%nat -> pointers_within d ->
       exists fs', fs_mount fs d uninit = Ok (true, fs', disk fs')
         /\ is_Some (free_blocks fs') /\ meta_data fs' = super_of d
         /\ image_of (disk fs') = image_of d).
Proof.
  intros HG. split; [by apply fs_mount_rejects|].
  intros Hfree Hsv Hq Hlen Hptrs.
  destruct (fs_mount_ok HG fs d uninit Hfree Hq Hsv Hlen Hptrs) as (fs' & Hm).
  exists fs'. split; [done|].
  destruct (fs_mount_true HG _ _ _ _ _ Hm) as (_ & _ & _ & Himg & Hmeta & (l & Hl & _) & _).
  split; [by rewrite Hl; eauto|]. by split.
Qed.

End MountClaims.

(** ** [fs_find_free] *)

Section FindFree.
Context `{G : Geometry} (HG : GeometryOk G).

Lemma write_frame_refl (fs : FileSystem) : write_frame fs fs.
Proof. unfold write_frame. pose proof (bitmap_marks_refl (free_blocks fs)). tauto. Qed.

Lemma write_frame_trans (fs fs1 fs2 : FileSystem) :
  write_frame fs fs1 -> write_frame fs1 fs2 -> write_frame fs fs2.
Proof.
  intros (H1 & H2 & H3 & H4 & H5) (K1 & K2 & K3 & K4 & K5).
  split; [congruence|]. split; [congruence|]. split; [tauto|]. split; [tauto|].
  by eapply bitmap_marks_trans.
Qed.

Lemma write_frame_set_disk (fs : FileSystem) (d' : option Disk) :
  length (image_of d') = length (image_of (disk fs)) ->
  (is_Some d' <-> is_Some (disk fs)) -> (quiet (disk fs) -> quiet d') ->
  write_frame fs (set_disk fs d').
Proof.
  intros Hlen Hs Hq. unfold write_frame. fs_simpl.
  pose proof (bitmap_marks_refl (free_blocks fs)). tauto.
Qed.

Lemma disk_write_frame (fs : FileSystem) (b : Z) (data : Block) (r : Z) (d' : option Disk) :
  disk_write (disk fs) b data = (r, d') -> write_frame fs (set_disk fs d').
Proof.
  intros Hw.
  destruct (disk_write_cases (disk fs) b data)
    as [(d1 & Hw' & Himg & Hs & Hq)|(d1 & Hw' & Himg & Hs & Hq & Hin)];
    rewrite Hw in Hw'; injection Hw' as -> ->.
  - apply write_frame_set_disk; [by rewrite Himg|done|done].
  - apply write_frame_set_disk; [by rewrite Himg, length_insert|done|done].
Qed.

Lemma disk_read_frame (fs : FileSystem) (b : Z) (buf : Block) (r : Z)
    (d' : option Disk) (out : Block) :
  disk_read (disk fs) b buf = (r, d', out) -> write_frame fs (set_disk fs d').
Proof.
  intros Hr.
  destruct (disk_read_cases (disk fs) b buf)
    as [(d1 & Hr' & Himg & Hs & Hq)|(d1 & Hr' & Himg & Hs & Hq & Hin)];
    rewrite Hr in Hr'; injection Hr' as -> -> ->;
    (apply write_frame_set_disk; [by rewrite Himg|done|done]).
Qed.

Lemma bitmap_load_cases (bm : option (list bool)) (i : Z) (v : bool) :
  bitmap_load bm i = Ok v ->
  exists l, bm = Some l /\ l !! Z.to_nat i = Some v /\ 0 <= i.
Proof.
  unfold bitmap_load. destruct bm as [l|]; [|done].
  destruct (l !! Z.to_nat i) as [v'|] eqn:Hl; [|done].
  destruct (0 <=? i) eqn:E; [|done]. intros [= ->]. exists l. split; [done|].
  split; [done|lia].
Qed.

(** Whatever the scan returns, it only marked entries; a nonzero result is
    a block of the scanned range whose entry was free. *)
Lemma find_free_scan_frame (ns : list Z) (fs : FileSystem) (r : Z) (fs' : FileSystem) :
  find_free_scan ns fs = Ok (r, fs') ->
  write_frame fs fs'
  /\ (r ≠ 0 -> r ∈ ns /\ bitmap_entry fs r = Some true
               /\ bitmap_entry fs' r = Some false
               /\ block_of (disk fs') r = empty_block).
Proof.
  induction ns as [|i ns IH]; simpl.
  - intros [= <- <-]. split; [apply write_frame_refl|done].
  - destruct (bitmap_load (free_blocks fs) i) as [free|] eqn:Hload; [|done].
    apply bitmap_load_cases in Hload as (l & Hl & Hli & Hi).
    destruct free.
    + destruct (bitmap_store (free_blocks fs) i false) as [bm|] eqn:Hst; [|done].
      pose proof (bitmap_store_false_marks _ _ _ Hst) as Hmarks.
      apply bitmap_store_cases in Hst as (l0 & Hl0 & -> & Hil).
      rewrite Hl in Hl0. injection Hl0 as <-.
      destruct (disk_write (disk fs) i empty_block) as [rw d1] eqn:Hw.
      pose proof (disk_write_frame fs i empty_block rw d1 Hw)
        as (Hd1 & Hd2 & Hd3 & Hd4 & _).
      assert (Hframe : write_frame fs
                (set_free_blocks (set_disk fs d1) (Some (<[Z.to_nat i := false]> l)))).
      { unfold write_frame. fs_simpl. rewrite Hl in *. tauto. }
      destruct (disk_write_cases (disk fs) i empty_block)
        as [(d1' & Hw' & _)|(d1' & Hw' & Himg & _ & _ & Hin)];
        rewrite Hw in Hw'; injection Hw' as -> ->.
      * rewrite Z.eqb_refl. intros [= <- <-]. by split.
      * rewrite (BLOCK_SIZE_not_failure HG). intros [= <- <-]. split; [done|].
        intros _. split; [left|]. unfold bitmap_entry. rewrite Hl.
        split; [done|]. fs_simpl. split; [apply list_lookup_insert_eq; lia|].
        rewrite (block_of_insert _ _ _ _ _ Himg Hin) by lia. by rewrite decide_True.
    + intros Hscan. destruct (IH Hscan) as [Hframe Hnz]. split; [done|].
      intros Hr. destruct (Hnz Hr) as (? & ? & ? & ?). split; [by right|done].
Qed.

(** The scan is defined on a bitmap that covers the scanned range. *)
Lemma find_free_scan_total (ns : list Z) (fs : FileSystem) (l : list bool) :
  free_blocks fs = Some l ->
  (forall i, i ∈ ns -> 0 <= i < Z.of_nat (length l)) ->
  exists r fs', find_free_scan ns fs = Ok (r, fs').
Proof.
  intros Hl. induction ns as [|i ns IH]; intros Hin; simpl; [by eauto|].
  assert (Hi : 0 <= i < Z.of_nat (length l)) by (apply Hin; left).
  unfold bitmap_load, bitmap_store. rewrite Hl.
  destruct (lookup_lt_is_Some_2 l (Z.to_nat i)) as [v Hv]; [lia|]. rewrite Hv.
  destruct (0 <=? i) eqn:E1; [|lia]. destruct (i <? Z.of_nat (length l)) eqn:E2; [|lia].
  destruct v; simpl.
  - destruct (disk_write (disk fs) i empty_block) as [rw d1].
    destruct (rw =? DISK_FAILURE); by eauto.
  - apply IH. intros j Hj. apply Hin. by right.
Qed.

(** On a quiet device the scan returns 0 exactly when no entry of the
    range is free, provided entry 0 is not free. *)
Lemma find_free_scan_zero (ns : list Z) (fs : FileSystem) (l : list bool) (fs' : FileSystem) :
  quiet (disk fs) -> free_blocks fs = Some l ->
  (forall i, i ∈ ns -> 0 <= i < Z.of_nat (length (image_of (disk fs)))) ->
  l !! 0%nat = Some false ->
  find_free_scan ns fs = Ok (0, fs') ->
  fs' = fs /\ forall i, i ∈ ns -> l !! Z.to_nat i ≠ Some true.
Proof.
  intros Hq Hl Hin H0. induction ns as [|i ns IH]; simpl.
  - intros [= <-]. split; [done|]. intros i Hi. by apply elem_of_nil in Hi.
  - destruct (bitmap_load (free_blocks fs) i) as [free|] eqn:Hload; [|done].
    apply bitmap_load_cases in Hload as (l0 & Hl0 & Hli & Hi).
    rewrite Hl in Hl0. injection Hl0 as <-.
    destruct free.
    + destruct (bitmap_store (free_blocks fs) i false) as [bm|] eqn:Hst; [|done].
      destruct (disk_write_in (disk fs) i empty_block Hq) as (d1 & Hw & _).
      { apply Hin. left. }
      rewrite Hw, (BLOCK_SIZE_not_failure HG). intros [= -> _].
      change (Z.to_nat 0) with 0%nat in Hli. congruence.
    + intros Hscan. destruct IH as [-> Hall]; [|done|].
      { intros j Hj. apply Hin. by right. }
      split; [done|]. intros j Hj. apply elem_of_cons in Hj as [->|Hj].
      * by rewrite Hli.
      * by apply Hall.
Qed.

End FindFree.

(** ** [fs_write]: what the loops keep *)

Section WriteFrame.
Context `{G : Geometry} (HG : GeometryOk G).



Lemma write_chunk_frame (fs : FileSystem) (ptr : Z) (data : list Z)
    (len bw bp : Z) (uninit : Block) (tw : Z) (fs' : FileSystem) :
  write_chunk fs ptr data len bw bp uninit = Ok (tw, fs') ->
  write_frame fs fs' /\ free_blocks fs' = free_blocks fs
  /\ tw = chunk_size len bw bp.
Proof.
  unfold write_chunk. fold (chunk_size len bw bp).
  destruct (disk_read (disk fs) ptr uninit) as [[rr d1] old_data] eqn:Hr.
  pose proof (disk_read_frame fs ptr uninit rr d1 old_data Hr) as Hf1.
  destruct (memcpy old_data 0 data bw (chunk_size len bw bp)) as [staged|] eqn:Hm; [|done].
  destruct (disk_write d1 ptr staged) as [rw d2] eqn:Hw.
  intros [= <- <-].
  pose proof (disk_write_frame (set_disk fs d1) ptr staged rw d2 Hw) as Hf2.
  split; [|done]. by eapply write_frame_trans.
Qed.

Lemma chunk_size_range (len bw bp : Z) :
  0 <= bp < BLOCK_SIZE -> 0 <= bw <= len ->
  0 <= chunk_size len bw bp <= len - bw.
Proof.
  intros Hbp Hbw. unfold chunk_size.
  destruct (BLOCK_SIZE - bp <=? len - bw) eqn:E; lia.
Qed.

Lemma chunk_size_le_block (len bw bp : Z) :
  chunk_size len bw bp <= BLOCK_SIZE - bp.
Proof. unfold chunk_size. destruct (BLOCK_SIZE - bp <=? len - bw) eqn:E; lia. Qed.

Lemma write_progress_refl (len : Z) (st : WriteState) : write_progress len st st.
Proof.
  split; [apply write_frame_refl|]. split; [done|]. split; [done|]. split; [done|].
  intros. lia.
Qed.

Lemma write_progress_trans (len : Z) (st st1 st2 : WriteState) :
  write_progress len st st1 -> write_progress len st1 st2 ->
  write_progress len st st2.
Proof.
  intros (H1 & H2 & H3 & H4 & H5) (K1 & K2 & K3 & K4 & K5).
  split; [by eapply write_frame_trans|]. split; [congruence|].
  split; [congruence|]. split; [congruence|].
  intros Hbp Hbw. destruct (H5 Hbp Hbw) as [Hbp1 Hbw1].
  destruct (K5 Hbp1 ltac:(lia)) as [Hbp2 Hbw2]. lia.
Qed.

(** One chunk written: the state the loops continue with, or end in. *)
Lemma write_progress_chunk (len : Z) (st : WriteState) (fs2 : FileSystem)
    (inode1 : Inode) (bp' : Z) :
  write_frame (w_fs st) fs2 ->
  valid inode1 = valid (w_inode st) -> size inode1 = size (w_inode st) ->
  length (direct inode1) = length (direct (w_inode st)) ->
  bp' = w_block_pos st \/ bp' = 0 ->
  write_progress len st
    (mkWriteState fs2 inode1
       (w_bytes_written st + chunk_size len (w_bytes_written st) (w_block_pos st)) bp').
Proof.
  intros Hf Hv Hs Hd Hbp'. split; [done|]. split; [done|]. split; [done|].
  split; [done|]. intros Hbp Hbw. simpl.
  pose proof (chunk_size_range len _ _ Hbp Hbw).
  pose proof (ok_super_fits G HG). split; [|lia]. destruct Hbp' as [->| ->]; lia.
Qed.

Lemma fs_find_free_frame (fs : FileSystem) (r : Z) (fs' : FileSystem) :
  fs_find_free fs = Ok (r, fs') -> write_frame fs fs'.
Proof. intros H. by apply (find_free_scan_frame HG) in H as [? _]. Qed.

Lemma write_direct_frame (ns : list Z) (data : list Z) (len : Z) (uninit : Block)
    (st : WriteState) (at_end : bool) (st' : WriteState) :
  write_direct ns data len uninit st = Ok (at_end, st') ->
  write_progress len st st'.
Proof.
  revert st. induction ns as [|i ns IH]; intros st; simpl.
  { intros [= <- <-]. apply write_progress_refl. }
  destruct (direct_at (w_inode st) i =? 0).
  - destruct (fs_find_free (w_fs st)) as [[nf fs1]|] eqn:Hff; [|done].
    apply fs_find_free_frame in Hff.
    destruct (nf =? 0); cbn [negb].
    { intros [= <- <-]. split; [done|]. split; [done|]. split; [done|].
      split; [done|]. simpl. intros. lia. }
    destruct (write_chunk fs1 _ data len _ _ uninit) as [[tw fs2]|] eqn:Hwc; [|done].
    destruct (write_chunk_frame _ _ _ _ _ _ _ _ _ Hwc) as (Hf2 & _ & ->).
    assert (Hstep : forall bp', bp' = w_block_pos st \/ bp' = 0 ->
              write_progress len st
                (mkWriteState fs2 (set_direct (w_inode st) i (wrap32 nf))
                   (w_bytes_written st
                    + chunk_size len (w_bytes_written st) (w_block_pos st)) bp')).
    { intros bp' Hbp'. apply write_progress_chunk; [|done|done| |done].
      - by eapply write_frame_trans.
      - simpl. by rewrite length_insert. }
    destruct (_ =? len).
    + intros [= <- <-]. apply Hstep. by left.
    + intros Hrec. eapply write_progress_trans; [apply (Hstep 0); by right|].
      by apply IH.
  - cbn [negb].
    destruct (write_chunk (w_fs st) _ data len _ _ uninit) as [[tw fs2]|] eqn:Hwc; [|done].
    destruct (write_chunk_frame _ _ _ _ _ _ _ _ _ Hwc) as (Hf2 & _ & ->).
    assert (Hstep : forall bp', bp' = w_block_pos st \/ bp' = 0 ->
              write_progress len st
                (mkWriteState fs2 (w_inode st)
                   (w_bytes_written st
                    + chunk_size len (w_bytes_written st) (w_block_pos st)) bp')).
    { intros bp' Hbp'. by apply write_progress_chunk. }
    destruct (_ =? len).
    + intros [= <- <-]. apply Hstep. by left.
    + intros Hrec. eapply write_progress_trans; [apply (Hstep 0); by right|].
      by apply IH.
Qed.

Lemma write_indirect_frame (ns : list Z) (data : list Z) (len : Z) (uninit : Block)
    (ind_blk : Block) (st : WriteState) (st' : WriteState) :
  write_indirect ns data len uninit ind_blk st = Ok st' ->
  write_progress len st st' /\ w_inode st' = w_inode st.
Proof.
  revert st ind_blk. induction ns as [|i ns IH]; intros st ind_blk; simpl.
  { intros [= <-]. split; [apply write_progress_refl|done]. }
  destruct (pointer_at ind_blk i) as [p|]; [|done].
  destruct (p =? 0).
  - destruct (fs_find_free (w_fs st)) as [[nf fs1]|] eqn:Hff; [|done].
    apply fs_find_free_frame in Hff.
    destruct (nf =? 0); cbn [negb].
    { intros [= <-]. split; [|done]. split; [done|]. split; [done|]. split; [done|].
      split; [done|]. simpl. intros. lia. }
    destruct (disk_write (disk fs1) (indirect (w_inode st))
                (set_u32 ind_blk i (wrap32 nf))) as [rw d1] eqn:Hw.
    pose proof (disk_write_frame fs1 _ _ rw d1 Hw) as Hf1.
    destruct (write_chunk (set_disk fs1 d1) _ data len _ _ uninit)
      as [[tw fs2]|] eqn:Hwc; [|done].
    destruct (write_chunk_frame _ _ _ _ _ _ _ _ _ Hwc) as (Hf2 & _ & ->).
    assert (Hstep : forall bp', bp' = w_block_pos st \/ bp' = 0 ->
              write_progress len st
                (mkWriteState fs2 (w_inode st)
                   (w_bytes_written st
                    + chunk_size len (w_bytes_written st) (w_block_pos st)) bp')).
    { intros bp' Hbp'. apply write_progress_chunk; [|done|done|done|done].
      eapply write_frame_trans; [exact Hff|]. by eapply write_frame_trans. }
    destruct (_ =? len).
    + intros [= <-]. split; [|done]. apply Hstep. by left.
    + intros Hrec. apply IH in Hrec as [Hp Hi].
      split; [|done]. eapply write_progress_trans; [apply (Hstep 0); by right|done].
  - cbn [negb].
    destruct (write_chunk (w_fs st) _ data len _ _ uninit) as [[tw fs2]|] eqn:Hwc; [|done].
    destruct (write_chunk_frame _ _ _ _ _ _ _ _ _ Hwc) as (Hf2 & _ & ->).
    assert (Hstep : forall bp', bp' = w_block_pos st \/ bp' = 0 ->
              write_progress len st
                (mkWriteState fs2 (w_inode st)
                   (w_bytes_written st
                    + chunk_size len (w_bytes_written st) (w_block_pos st)) bp')).
    { intros bp' Hbp'. by apply write_progress_chunk. }
    destruct (_ =? len).
    + intros [= <-]. split; [|done]. apply Hstep. by left.
    + intros Hrec. apply IH in Hrec as [Hp Hi].
      split; [|done]. eapply write_progress_trans; [apply (Hstep 0); by right|done].
Qed.

Lemma write_tail_frame (curr_iblk : Z) (data : list Z) (len : Z) (uninit : Block)
    (st st' : WriteState) :
  write_tail curr_iblk data len uninit st = Ok st' ->
  write_progress len st st' /\ direct (w_inode st') = direct (w_inode st).
Proof.
  unfold write_tail.
  destruct (indirect (w_inode st) =? 0).
  - destruct (fs_find_free (w_fs st)) as [[nf fs1]|] eqn:Hff; [|done].
    apply fs_find_free_frame in Hff.
    destruct (nf =? 0); cbn [negb].
    { intros [= <-]. split; [|done]. split; [done|]. split; [done|]. split; [done|].
      split; [done|]. simpl. intros. lia. }
    destruct (disk_read (disk fs1) _ uninit) as [[rr d1] ind_blk] eqn:Hr.
    apply disk_read_frame in Hr. intros Hwi.
    apply write_indirect_frame in Hwi as [Hp Hi]. rewrite Hi. split; [|done].
    eapply write_progress_trans; [|exact Hp].
    split; [by eapply write_frame_trans|]. split; [done|]. split; [done|].
    split; [done|]. simpl. intros. lia.
  - cbn [negb].
    destruct (disk_read (disk (w_fs st)) _ uninit) as [[rr d1] ind_blk] eqn:Hr.
    apply disk_read_frame in Hr. intros Hwi.
    apply write_indirect_frame in Hwi as [Hp Hi]. rewrite Hi. split; [|done].
    eapply write_progress_trans; [|exact Hp].
    split; [done|]. split; [done|]. split; [done|].
    split; [done|]. simpl. intros. lia.
Qed.

Lemma reads_only_write_frame (fs fs1 : FileSystem) :
  reads_only fs fs1 -> write_frame fs fs1.
Proof.
  intros (H1 & H2 & H3 & H4 & H5). unfold write_frame. rewrite H1, H3.
  pose proof (bitmap_marks_refl (free_blocks fs)). tauto.
Qed.

Lemma fs_save_inode_frame (fs : FileSystem) (n : Z) (node : Inode) :
  write_frame fs (fs_save_inode fs n node).2.
Proof.
  destruct (fs_save_inode_cases HG fs n node)
    as (fs1 & Hfree & Hmeta & Hq & Hs & [[-> Himg]|[-> [Himg _]]]); simpl.
  all: unfold write_frame; rewrite Hfree, Himg, ?length_insert.
  all: pose proof (bitmap_marks_refl (free_blocks fs)); tauto.
Qed.

(** The two ways [fs_write] returns a value. *)
Lemma fs_write_inv (fs : FileSystem) (n : Z) (data : list Z) (len offset : Z)
    (uninit : Block) (r : Z) (fs' : FileSystem) :
  fs_write fs n data len offset uninit = Ok (r, fs') ->
  (r = -1 /\ fs_load_inode fs n = (None, fs'))
  \/ (exists inode fs1 st2,
        fs_load_inode fs n = (Some inode, fs1)
        /\ write_progress len (mkWriteState fs1 inode 0 (offset mod BLOCK_SIZE)) st2
        /\ r = w_bytes_written st2
        /\ fs' = (fs_save_inode (w_fs st2) n
                    (set_size (w_inode st2)
                       (wrap32 (size (w_inode st2) + w_bytes_written st2)))).2).
Proof.
  unfold fs_write.
  destruct (fs_load_inode fs n) as [[inode|] fs1] eqn:Hl.
  2:{ intros [= <- <-]. by left. }
  set (st0 := mkWriteState fs1 inode 0 (offset mod BLOCK_SIZE)).
  intros Hw. right. exists inode, fs1.
  assert (Hloops : exists at_end st1,
            (if offset / BLOCK_SIZE <? POINTERS_PER_INODE
             then write_direct (seqZ (offset / BLOCK_SIZE)
                                  (POINTERS_PER_INODE - offset / BLOCK_SIZE))
                    data len uninit st0
             else Ok (false, st0)) = Ok (at_end, st1)
            /\ write_progress len st0 st1).
  { destruct (offset / BLOCK_SIZE <? POINTERS_PER_INODE).
    - destruct (write_direct _ data len uninit st0) as [[at_end st1]|] eqn:Hwd; [|done].
      exists at_end, st1. split; [done|]. by eapply write_direct_frame.
    - exists false, st0. split; [done|]. apply write_progress_refl. }
  destruct Hloops as (at_end & st1 & Heq & Hp1). rewrite Heq in Hw.
  destruct at_end.
  - injection Hw as <- <-. by exists st1.
  - destruct (write_tail _ data len uninit st1) as [st2|] eqn:Hwt; [|done].
    injection Hw as <- <-. exists st2. split; [done|].
    apply write_tail_frame in Hwt as [Hp2 _].
    split; [by eapply write_progress_trans|done].
Qed.

Lemma fs_write_frame (fs : FileSystem) (n : Z) (data : list Z) (len offset : Z)
    (uninit : Block) (r : Z) (fs' : FileSystem) :
  fs_write fs n data len offset uninit = Ok (r, fs') -> write_frame fs fs'.
Proof.
  intros Hw. destruct (fs_load_inode_cases HG fs n) as (fs1 & Hro & Hl).
  apply reads_only_write_frame in Hro.
  apply fs_write_inv in Hw as [[_ Hl']|(inode & fs1' & st2 & Hl' & (Hf & _) & _ & ->)];
    rewrite Hl' in Hl.
  - destruct Hl as [[= <-]|[[=] _]]. done.
  - destruct Hl as [[=]|[[= _ <-] _]].
    eapply write_frame_trans; [exact Hro|].
    eapply write_frame_trans; [exact Hf|]. apply fs_save_inode_frame.
Qed.

End WriteFrame.

(** ** [fs_write]: the loops are defined *)

Section WriteTotal.
Context `{G : Geometry} (HG : GeometryOk G).


Lemma block_ok_empty_block : block_ok empty_block.
Proof. apply block_ok_empty. pose proof (ok_super_fits G HG). lia. Qed.











End WriteTotal.

(** ** Short writes *)

Section WriteClaims.
Context `{G : Geometry}.

Lemma length_direct_get_inode (b : Block) (j : Z) :
  0 <= POINTERS_PER_INODE ->
  Z.of_nat (length (direct (get_inode b j))) = POINTERS_PER_INODE.
Proof.
  intros H. unfold get_inode, get_words. simpl.
  rewrite length_fmap, length_seqZ. lia.
Qed.


End WriteClaims.

(** ** The reserved entries of the bitmap *)

Section Reserved.
Context `{G : Geometry} (HG : GeometryOk G).

Lemma bitmap_inv_marks (fs fs' : FileSystem) :
  bitmap_inv fs -> meta_data fs' = meta_data fs ->
  length (image_of (disk fs')) = length (image_of (disk fs)) ->
  bitmap_marks (free_blocks fs) (free_blocks fs') ->
  bitmap_inv fs'.
Proof.
  intros ((l & Hl & Hlen & Hres) & Hblocks & Hib) Hmeta Himg Hbm. rewrite Hl in Hbm.
  apply bitmap_marks_Some in Hbm as (l' & Hl' & Hlen' & Hfalse).
  split; [|by rewrite Hmeta, Himg].
  exists l'. rewrite Hmeta, Hlen'. split; [done|]. split; [done|].
  intros k Hk Hkb. by apply Hfalse, Hres.
Qed.

Lemma bitmap_inv_write_frame (fs fs' : FileSystem) :
  bitmap_inv fs -> write_frame fs fs' -> bitmap_inv fs'.
Proof. intros Hinv (Hmeta & Hlen & _ & _ & Hbm). by eapply bitmap_inv_marks. Qed.

Lemma bitmap_inv_reads_only (fs fs' : FileSystem) :
  bitmap_inv fs -> reads_only fs fs' -> bitmap_inv fs'.
Proof.
  intros Hinv Hro. eapply bitmap_inv_write_frame; [done|].
  by apply reads_only_write_frame.
Qed.

Lemma create_slots_length (js : list Z) (i : Z) (block : Block) (d : option Disk) :
  length (image_of (create_slots js i block d).2) = length (image_of d).
Proof.
  revert block d. induction js as [|j js IH]; intros block d; cbn [create_slots]; [done|].
  destruct (valid (get_inode block j) =? 0); [|apply IH].
  destruct (disk_write_cases d i (set_u32 block (j * INODE_WORDS) 1))
    as [(d1 & Hw & Himg & _)|(d1 & Hw & Himg & _)]; rewrite Hw.
  - rewrite (proj2 (Z.eqb_neq _ _)); [by rewrite IH, Himg|].
    pose proof (BLOCK_SIZE_not_failure HG). lia.
  - rewrite Z.eqb_refl. simpl. by rewrite Himg, length_insert.
Qed.

Lemma create_blocks_length (ns : list Z) (block : Block) (d : option Disk) :
  length (image_of (create_blocks ns block d).2) = length (image_of d).
Proof.
  revert block d. induction ns as [|i ns IH]; intros block d; cbn [create_blocks]; [done|].
  destruct (disk_read_cases d i block)
    as [(d1 & Hr & Himg & _)|(d1 & Hr & Himg & _)]; rewrite Hr.
  - rewrite (proj2 (Z.eqb_neq _ _)); [by rewrite IH, Himg|].
    pose proof (BLOCK_SIZE_not_failure HG). unfold DISK_FAILURE in *. lia.
  - rewrite Z.eqb_refl.
    pose proof (create_slots_length (seqZ 0 INODES_PER_BLOCK) i (block_of d i) d1) as Hs.
    destruct (create_slots _ i (block_of d i) d1) as [[[n|] block2] d2]; simpl in Hs.
    + simpl. by rewrite Hs, Himg.
    + by rewrite IH, Hs, Himg.
Qed.

Lemma fs_create_inv (fs : FileSystem) : bitmap_inv fs -> bitmap_inv (fs_create fs).2.
Proof.
  intros Hinv. unfold fs_create.
  pose proof (create_blocks_length (seqZ 1 (inode_blocks (meta_data fs)))
                empty_block (disk fs)) as Hlen.
  destruct (create_blocks _ _ _) as [n d]. simpl in *.
  eapply bitmap_inv_marks; [exact Hinv|done|done|apply bitmap_marks_refl].
Qed.

Lemma fs_stat_inv (fs : FileSystem) (n : Z) : bitmap_inv fs -> bitmap_inv (fs_stat fs n).2.
Proof.
  intros Hinv. unfold fs_stat.
  destruct (fs_load_inode_cases HG fs n) as (fs1 & Hro & [Hl|[Hl _]]); rewrite Hl;
    by eapply bitmap_inv_reads_only.
Qed.

Lemma read_chunk_reads_only (fs : FileSystem) (inode : Inode) (ptr : Z)
    (data : list Z) (offset bp r : Z) (fs' : FileSystem) (data' : list Z) :
  read_chunk fs inode ptr data offset bp = Ok (r, fs', data') -> reads_only fs fs'.
Proof.
  unfold read_chunk.
  destruct (disk_read_cases (disk fs) ptr empty_block)
    as [(d1 & Hr & Himg & Hs & Hq)|(d1 & Hr & Himg & Hs & Hq & _)]; rewrite Hr.
  - rewrite Z.eqb_refl. intros [= <- <- <-]. by apply reads_only_set_disk.
  - rewrite (BLOCK_SIZE_not_failure HG).
    destruct (memcpy _ _ _ _ _); [|done]. intros [= <- <- <-].
    by apply reads_only_set_disk.
Qed.

Lemma fs_read_reads_only (fs : FileSystem) (n : Z) (data : list Z) (len offset r : Z)
    (fs' : FileSystem) (data' : list Z) :
  fs_read fs n data len offset = Ok (r, fs', data') -> reads_only fs fs'.
Proof.
  unfold fs_read.
  destruct (fs_load_inode_cases HG fs n) as (fs1 & Hro & [Hl|[Hl _]]); rewrite Hl.
  { by intros [= <- <- <-]. }
  destruct (_ >=? _); [by intros [= <- <- <-]|].
  destruct (free_blocks fs1); [|by intros [= <- <- <-]].
  destruct (_ <? POINTERS_PER_INODE).
  { intros Hrc. apply read_chunk_reads_only in Hrc. by eapply reads_only_trans. }
  destruct (indirect _ =? 0); [by intros [= <- <- <-]|].
  destruct (disk_read_cases (disk fs1) (indirect (inode_on_disk (disk fs) n)) empty_block)
    as [(d1 & Hr & Himg & Hs & Hq)|(d1 & Hr & Himg & Hs & Hq & _)]; rewrite Hr.
  - rewrite Z.eqb_refl. intros [= <- <- <-].
    eapply reads_only_trans; [exact Hro|]. by apply reads_only_set_disk.
  - rewrite (BLOCK_SIZE_not_failure HG).
    destruct (pointer_at _ _) as [ptr|]; [|done].
    assert (Hro1 : reads_only fs (set_disk fs1 d1)).
    { eapply reads_only_trans; [exact Hro|]. by apply reads_only_set_disk. }
    destruct (ptr =? 0); [by intros [= <- <- <-]|].
    intros Hrc. apply read_chunk_reads_only in Hrc. by eapply reads_only_trans.
Qed.

(** The entries behind the indirect pointer at the time [fs_remove] reads
    them are entries of the initial image, the zero entries apart. *)
Lemma indirect_refs_released (ps : list Z) (fs fs1 fs2 : FileSystem) (b : Block) (j k : Z) :
  image_of (disk fs1) = image_of (disk fs) -> released ps fs1 fs2 ->
  k ∈ indirect_refs (disk fs2) (get_inode b j) -> k ≠ 0 ->
  k ∈ indirect_refs (disk fs) (get_inode b j).
Proof.
  intros Himg (_ & _ & Hb & _) Hk Hk0. unfold indirect_refs in *.
  destruct (indirect (get_inode b j) =? 0); [done|].
  apply elem_of_cons in Hk as [->|Hk]; [left|]. right.
  destruct (Hb (indirect (get_inode b j))) as [Heq|(_ & _ & Heq)].
  - apply get_u32_range.
  - by rewrite <- (block_of_same _ _ _ Himg), <- Heq.
  - rewrite Heq, (get_pointers_empty_block) in Hk.
    apply elem_of_replicate in Hk as [? _]. done.
Qed.

(** [fs_remove] frees entries only: those of the nonzero block numbers the
    removed inode refers to. *)
Lemma fs_remove_bitmap (fs : FileSystem) (n : Z) (ok : bool) (fs' : FileSystem) :
  fs_remove fs n = Ok (ok, fs') ->
  meta_data fs' = meta_data fs
  /\ length (image_of (disk fs')) = length (image_of (disk fs))
  /\ length <$> free_blocks fs' = length <$> free_blocks fs
  /\ forall k, 0 <= k ->
       bitmap_entry fs' k = bitmap_entry fs k
       \/ (valid (inode_on_disk (disk fs) n) ≠ 0
           /\ k ∈ referenced (disk fs) (inode_on_disk (disk fs) n)
           /\ k ≠ 0 /\ bitmap_entry fs' k = Some true).
Proof.
  unfold fs_remove.
  destruct (fs_load_inode_cases HG fs n) as (fs1 & Hro & [Hl|(Hl & Hv & _)]);
    rewrite Hl; destruct Hro as (Himg1 & Hmeta1 & Hfree1 & _).
  { intros [= <- <-]. rewrite Himg1, Hfree1. split; [done|]. split; [done|].
    split; [done|]. intros k _. left. unfold bitmap_entry. by rewrite Hfree1. }
  set (inode := inode_on_disk (disk fs) n) in *.
  assert (Hfrom1 : forall fs3, released (referenced (disk fs) inode) fs1 fs3 ->
            meta_data fs3 = meta_data fs
            /\ length (image_of (disk fs3)) = length (image_of (disk fs))
            /\ length <$> free_blocks fs3 = length <$> free_blocks fs
            /\ forall k, 0 <= k ->
                 bitmap_entry fs3 k = bitmap_entry fs k
                 \/ (valid inode ≠ 0 /\ k ∈ referenced (disk fs) inode
                     /\ k ≠ 0 /\ bitmap_entry fs3 k = Some true)).
  { intros fs3 ((Hmeta & Hlen & _) & Hblen & _ & He).
    split; [congruence|]. split; [by rewrite Hlen, Himg1|]. split; [congruence|].
    intros k Hk. destruct (He k Hk) as [Heq|(Hin & Hk0 & Htrue)].
    - left. rewrite Heq. unfold bitmap_entry. by rewrite Hfree1.
    - by right. }
  destruct (release_blocks (direct inode) fs1) as [[ok1 fs2]|] eqn:Hrb; [|done].
  destruct (release_blocks_effect HG _ _ _ _ Hrb) as [Hrel1 _].
  assert (Hrel1' : released (referenced (disk fs) inode) fs1 fs2).
  { eapply released_trans; [exact Hrel1|apply (released_refl [])| |].
    - intros k Hk _. unfold referenced. rewrite elem_of_app. by left.
    - intros k Hk _. by apply elem_of_nil in Hk. }
  destruct ok1; cbn [negb]; [|intros [= <- <-]; by apply Hfrom1].
  destruct (release_indirect inode fs2) as [[ok2 fs3]|] eqn:Hri; [|done].
  destruct (release_indirect_effect HG _ _ _ _ Hri) as [Hrel2 _].
  assert (Hrel2' : released (referenced (disk fs) inode) fs1 fs3).
  { eapply released_trans; [exact Hrel1|exact Hrel2| |].
    - intros k Hk _. unfold referenced. rewrite elem_of_app. by left.
    - intros k Hk Hk0. unfold referenced. rewrite elem_of_app. right.
      by eapply indirect_refs_released. }
  destruct ok2; cbn [negb]; [|intros [= <- <-]; by apply Hfrom1].
  intros [= <- <-].
  destruct (Hfrom1 fs3 Hrel2') as (Hm & Hlen & Hblen & He).
  destruct (fs_save_inode_cases HG fs3 n iblank)
    as (fs4 & Hfree4 & Hmeta4 & _ & _ & [[-> Himg4]|[-> [Himg4 _]]]); simpl.
  all: split; [congruence|].
  all: split; [by rewrite Himg4, ?length_insert|].
  all: split; [congruence|].
  all: intros k Hk; unfold bitmap_entry; rewrite Hfree4; by apply He.
Qed.

Lemma fs_remove_inv (fs : FileSystem) (n : Z) (ok : bool) (fs' : FileSystem) :
  bitmap_inv fs -> fs_remove fs n = Ok (ok, fs') ->
  (valid (inode_on_disk (disk fs) n) ≠ 0 ->
   forall p, p ∈ referenced (disk fs) (inode_on_disk (disk fs) n) -> p ≠ 0 ->
     inode_blocks (meta_data fs) < p) ->
  bitmap_inv fs'.
Proof.
  intros ((l & Hl & Hlen & Hres) & Hblocks & Hib) Hrm Hside.
  destruct (fs_remove_bitmap fs n ok fs' Hrm) as (Hmeta & Himg & Hblen & He).
  rewrite Hl in Hblen. destruct (free_blocks fs') as [l'|] eqn:Hl'; [|done].
  simpl in Hblen. injection Hblen as Hblen.
  split; [|by rewrite Hmeta, Himg]. exists l'. rewrite Hmeta, Hblen.
  split; [done|]. split; [done|]. intros k Hk Hkb.
  destruct (He k ltac:(lia)) as [Heq|(Hv & Hin & Hk0 & _)].
  - unfold bitmap_entry in Heq. rewrite Hl, Hl' in Heq. rewrite Heq. by apply Hres.
  - specialize (Hside Hv k Hin Hk0). lia.
Qed.

(** In a state with the invariant [fs_find_free] is defined, returns 0 or
    a block number past the inode table, and on a quiet device returns 0
    exactly when no entry is free. *)
Lemma fs_find_free_reserved (fs : FileSystem) :
  bitmap_inv fs ->
  exists r fs', fs_find_free fs = Ok (r, fs')
    /\ (r = 0 \/ inode_blocks (meta_data fs) < r < blocks (meta_data fs))
    /\ (r ≠ 0 -> bitmap_entry fs r = Some true
                 /\ bitmap_entry fs' r = Some false
                 /\ block_of (disk fs') r = empty_block)
    /\ (quiet (disk fs) -> (r = 0 <-> no_free_block fs)).
Proof.
  intros ((l & Hl & Hlen & Hres) & Hblocks & Hib).
  destruct (find_free_scan_total (seqZ 0 (blocks (meta_data fs))) fs l Hl)
    as (r & fs' & Hscan).
  { intros i Hi. apply elem_of_seqZ in Hi. lia. }
  exists r, fs'. split; [done|].
  destruct (find_free_scan_frame HG _ _ _ _ Hscan) as [_ Hnz].
  assert (Hpast : r ≠ 0 -> inode_blocks (meta_data fs) < r < blocks (meta_data fs)).
  { intros Hr. destruct (Hnz Hr) as (Hin & Htrue & _). apply elem_of_seqZ in Hin.
    split; [|lia]. destruct (decide (r <= inode_blocks (meta_data fs))) as [Hle|]; [|lia].
    unfold bitmap_entry in Htrue. rewrite Hl, (Hres r) in Htrue by lia. done. }
  split; [destruct (decide (r = 0)); [by left|right; by apply Hpast]|].
  split; [intros Hr; by destruct (Hnz Hr) as (_ & ? & ? & ?)|]. intros Hq. split.
  - intros ->.
    assert (Hn0 : 0 < blocks (meta_data fs) \/ blocks (meta_data fs) <= 0) by lia.
    intros k Hk Htrue. unfold bitmap_entry in Htrue. rewrite Hl in Htrue.
    pose proof (lookup_lt_Some _ _ _ Htrue) as Hklt.
    destruct (find_free_scan_zero HG (seqZ 0 (blocks (meta_data fs))) fs l fs' Hq Hl)
      as [_ Hall]; [| |exact Hscan|].
    + intros i Hi. apply elem_of_seqZ in Hi. lia.
    + apply (Hres 0); lia.
    + apply (Hall k); [|done]. apply elem_of_seqZ. lia.
  - intros Hnone. destruct (decide (r = 0)) as [|Hr]; [done|].
    destruct (Hnz Hr) as (Hin & Htrue & _). apply elem_of_seqZ in Hin.
    exfalso. by apply (Hnone r); [lia|].
Qed.

End Reserved.

(** ** The reserved entries in mounted states *)

Section ReservedClaims.
Context `{G : Geometry}.

Lemma reachable_bitmap_inv (fs : FileSystem) :
  GeometryOk G -> reachable fs -> bitmap_inv fs.
Proof.
  intros HG Hreach. induction Hreach as
    [fs0 d uninit fs d' Hm | fs _ IH | fs n _ IH
    | fs n data len offset r fs' data' _ IH Hrd | fs r fs' _ IH Hff
    | fs n data len offset uninit r fs' _ IH Hw | fs n ok fs' _ IH Hrm Hside].
  - destruct (fs_mount_true HG _ _ _ _ _ Hm)
      as (_ & (_ & Hblocks & _) & _ & Himg & Hmeta & Hres & _).
    split; [done|]. rewrite Hmeta, Himg. split; [done|].
    unfold super_of, get_super. cbn [inode_blocks]. apply get_u32_range.
  - by apply (fs_create_inv HG).
  - by apply (fs_stat_inv HG).
  - eapply bitmap_inv_reads_only; [exact IH|by eapply (fs_read_reads_only HG)].
  - eapply bitmap_inv_write_frame; [exact IH|by eapply (fs_find_free_frame HG)].
  - eapply bitmap_inv_write_frame; [exact IH|by eapply (fs_write_frame HG)].
  - by eapply (fs_remove_inv HG).
Qed.

(** C9 (amended): in every state reached from a successful mount by
    create, stat, read, find_free, write, and by removals of inodes that
    refer to no block of [0, inode_blocks], the bitmap entries of the blocks
    [0, inode_blocks] are not-free.  There [fs_find_free] is defined and
    returns 0 or the number of a block past the inode table, whose entry was
    free, is now not-free and whose block is zeroed; on a device without I/O
    errors it returns 0 exactly when no entry is free. *)
Theorem reserved_blocks_stay_marked (fs : FileSystem) :
  GeometryOk G -> reachable fs ->
  reserved_marked fs
  /\ exists r fs', fs_find_free fs = Ok (r, fs')
       /\ (r = 0 \/ inode_blocks (meta_data fs) < r < blocks (meta_data fs))
       /\ (r ≠ 0 -> bitmap_entry fs r = Some true
                    /\ bitmap_entry fs' r = Some false
                    /\ block_of (disk fs') r = empty_block)
       /\ (quiet (disk fs) -> (r = 0 <-> no_free_block fs)).
Proof.
  intros HG Hreach. pose proof (reachable_bitmap_inv fs HG Hreach) as Hinv.
  split; [apply Hinv|]. by apply (fs_find_free_reserved HG).
Qed.

End ReservedClaims.


(** ** The disk emulator: round trip and bounds *)

Section DiskLaws.
Context `{G : Geometry}.

(** X1: on a device whose system calls succeed, [disk_write] to a block
    inside the device returns [BLOCK_SIZE]; a [disk_read] of that block then
    returns [BLOCK_SIZE] with the data written, and a [disk_read] of any
    other block of the device returns what the block held before. *)
Theorem disk_write_then_read (d : option Disk) (b : Z) (data buf : Block) :
  quiet d -> 0 <= b < Z.of_nat (length (image_of d)) ->
  exists d1, disk_write d b data = (BLOCK_SIZE, d1)
    /\ (exists d2, disk_read d1 b buf = (BLOCK_SIZE, d2, data))
    /\ forall b', 0 <= b' < Z.of_nat (length (image_of d)) -> b' ≠ b ->
         exists d2, disk_read d1 b' buf = (BLOCK_SIZE, d2, block_of d b').
Proof.
  intros Hq Hb.
  destruct (disk_write_in d b data Hq Hb) as (d1 & Hw & Himg & Hq1).
  exists d1. split; [exact Hw|].
  assert (Hlen : length (image_of d1) = length (image_of d))
    by (rewrite Himg; apply length_insert).
  split.
  - destruct (disk_read_in d1 b buf Hq1) as (d2 & Hr & _); [lia|].
    exists d2. rewrite Hr. f_equal. unfold block_of. rewrite Himg.
    rewrite list_lookup_insert_eq by lia. done.
  - intros b' Hb' Hne.
    destruct (disk_read_in d1 b' buf Hq1) as (d2 & Hr & _); [lia|].
    exists d2. rewrite Hr. f_equal. unfold block_of. rewrite Himg.
    rewrite list_lookup_insert_ne by lia. done.
Qed.

(** X2: a block number outside the device, or a null disk, makes
    [disk_read] and [disk_write] return [DISK_FAILURE] before any system
    call: the disk with its counters, the pending outcomes of the
    environment and the caller's buffer are as they were. *)
Theorem disk_access_outside_device (d : option Disk) (b : Z) (data : Block) :
  ~ (0 <= b < Z.of_nat (length (image_of d))) ->
  disk_read d b data = (DISK_FAILURE, d, data)
  /\ disk_write d b data = (DISK_FAILURE, d).
Proof.
  intros Hb. split; [by apply disk_read_out | by apply disk_write_out].
Qed.

End DiskLaws.

Section DiskCounters.
Context `{G : Geometry}.

Lemma disk_read_counters (d : Disk) (b : Z) (buf : Block) :
  exists d', (disk_read (Some d) b buf).1.2 = Some d'
    /\ length (disk_image d') = length (disk_image d)
    /\ disk_writes d' = disk_writes d
    /\ (((disk_read (Some d) b buf).1.1 = BLOCK_SIZE
         /\ disk_reads d' = disk_reads d + 1)
        \/ ((disk_read (Some d) b buf).1.1 = DISK_FAILURE
            /\ disk_reads d' = disk_reads d)).
Proof.
  unfold disk_read.
  destruct (negb (disk_sanity_check (Some d) b)).
  { exists d. cbn. eauto 10. }
  unfold syscalls. destruct (disk_faults d) as [|[] rest]; cbn.
  - destruct (disk_image d !! Z.to_nat b); cbn; eexists; eauto 10.
  - eexists; cbn; eauto 10.
  - destruct (disk_image d !! Z.to_nat b); cbn; eexists; cbn; eauto 10.
Qed.

Lemma disk_write_counters (d : Disk) (b : Z) (data : Block) :
  exists d', (disk_write (Some d) b data).2 = Some d'
    /\ length (disk_image d') = length (disk_image d)
    /\ disk_reads d' = disk_reads d
    /\ (((disk_write (Some d) b data).1 = BLOCK_SIZE
         /\ disk_writes d' = disk_writes d + 1)
        \/ ((disk_write (Some d) b data).1 = DISK_FAILURE
            /\ disk_writes d' = disk_writes d)).
Proof.
  unfold disk_write.
  destruct (negb (disk_sanity_check (Some d) b)).
  { exists d. cbn. eauto 10. }
  unfold syscalls. destruct (disk_faults d) as [|[] rest]; cbn;
    eexists; (split; [reflexivity|]); cbn; rewrite ?length_insert; eauto 10.
Qed.

(** X3: over any sequence of [disk_read] and [disk_write] calls on an open
    disk, every call returns [BLOCK_SIZE] or [DISK_FAILURE], the number of
    blocks stays, and the counters [reads] and [writes] grow by exactly the
    numbers of reads and of writes that returned [BLOCK_SIZE]; these are the
    two numbers [disk_close] then prints. *)
Theorem disk_counters_count_completed_calls (ops : list disk_op) (d : Disk) (fd : Z) :
  BLOCK_SIZE ≠ DISK_FAILURE ->
  exists d', (run_ops ops (Some d)).2 = Some d'
    /\ Forall (fun e => e.2 = BLOCK_SIZE \/ e.2 = DISK_FAILURE) (run_ops ops (Some d)).1
    /\ disk_blocks d' = disk_blocks d
    /\ disk_reads d' = disk_reads d + (completed (run_ops ops (Some d)).1).1
    /\ disk_writes d' = disk_writes d + (completed (run_ops ops (Some d)).1).2
    /\ disk_close (Some (fd, d'))
       = Ok [ev_print (pretty (disk_reads d + (completed (run_ops ops (Some d)).1).1)
                       +:+ " disk block reads");
             ev_print (pretty (disk_writes d + (completed (run_ops ops (Some d)).1).2)
                       +:+ " disk block writes");
             ev_close fd].
Proof.
  intros Hbs.
  assert (Hmain : exists d', (run_ops ops (Some d)).2 = Some d'
    /\ Forall (fun e => e.2 = BLOCK_SIZE \/ e.2 = DISK_FAILURE) (run_ops ops (Some d)).1
    /\ length (disk_image d') = length (disk_image d)
    /\ disk_reads d' = disk_reads d + (completed (run_ops ops (Some d)).1).1
    /\ disk_writes d' = disk_writes d + (completed (run_ops ops (Some d)).1).2).
  { revert d. induction ops as [|op rest IH]; intros d.
    - exists d. cbn. repeat split; [constructor|lia|lia].
    - destruct op as [b buf|b data].
      + destruct (disk_read_counters d b buf) as (d1 & Hd1 & Hlen & Hw & Hr).
        cbn [run_ops]. destruct (disk_read (Some d) b buf) as [[r dd] out].
        cbn in Hd1, Hr. subst dd.
        destruct (IH d1) as (d' & Hd' & Hall & Hlen' & Hr' & Hw').
        destruct (run_ops rest (Some d1)) as [log d2]. cbn in *.
        exists d'. split; [done|]. split.
        { constructor; [cbn; tauto|done]. }
        split; [congruence|].
        destruct (completed log) as [nr nw]. cbn in *.
        destruct Hr as [[-> Hr]|[-> Hr]].
        * rewrite Z.eqb_refl. cbn. lia.
        * destruct (DISK_FAILURE =? BLOCK_SIZE) eqn:E; [lia|]. cbn. lia.
      + destruct (disk_write_counters d b data) as (d1 & Hd1 & Hlen & Hr & Hw).
        cbn [run_ops]. destruct (disk_write (Some d) b data) as [r dd].
        cbn in Hd1, Hw. subst dd.
        destruct (IH d1) as (d' & Hd' & Hall & Hlen' & Hr' & Hw').
        destruct (run_ops rest (Some d1)) as [log d2]. cbn in *.
        exists d'. split; [done|]. split.
        { constructor; [cbn; tauto|done]. }
        split; [congruence|].
        destruct (completed log) as [nr nw]. cbn in *.
        destruct Hw as [[-> Hw]|[-> Hw]].
        * rewrite Z.eqb_refl. cbn. lia.
        * destruct (DISK_FAILURE =? BLOCK_SIZE) eqn:E; [lia|]. cbn. lia. }
  destruct Hmain as (d' & Hd' & Hall & Hlen & Hr & Hw).
  exists d'. split; [done|]. split; [done|].
  split; [unfold disk_blocks; lia|]. split; [done|]. split; [done|].
  unfold disk_close. by rewrite Hr, Hw.
Qed.

End DiskCounters.

Section DiskOpenFacts.
Context `{G : Geometry}.

Lemma length_truncate (file : list Z) (n : Z) :
  length (truncate file n) = Z.to_nat n.
Proof.
  unfold truncate. rewrite length_take, length_app, length_replicate. lia.
Qed.

Lemma truncate_empty (n : Z) : truncate [] n = replicate (Z.to_nat n) 0.
Proof.
  unfold truncate. cbn. apply take_ge. by rewrite length_replicate.
Qed.

Lemma blocks_of_file_lookup (file : list Z) (n : Z) (k : nat) :
  (k < Z.to_nat n)%nat ->
  blocks_of_file file n !! k
  = Some (take (Z.to_nat BLOCK_SIZE) (drop (Z.to_nat (Z.of_nat k * BLOCK_SIZE)) file)).
Proof.
  intros Hk. unfold blocks_of_file. rewrite list_lookup_fmap.
  rewrite lookup_seqZ_lt by lia. cbn. do 3 f_equal; lia.
Qed.

(** X4: [disk_open] hands out no disk of more than 1000 blocks, and then
    touches nothing.  A disk it returns has exactly [blocks] blocks of
    [BLOCK_SIZE] bytes each and both counters at zero; opened over a file
    that [open] had to create, every block is zero. *)
Theorem disk_open_device (h : Host) (nblocks : Z) :
  0 < BLOCK_SIZE -> 0 <= nblocks ->
  (1000 < nblocks -> disk_open h nblocks = Ok (None, []))
  /\ forall fd d evs,
       disk_open h nblocks = Ok (Some (fd, d), evs) ->
       nblocks <= 1000 /\ fd = host_open h /\ evs = []
       /\ disk_blocks d = nblocks /\ image_ok (Some d)
       /\ disk_reads d = 0 /\ disk_writes d = 0
       /\ (host_file h = [] -> disk_image d = disk_image (blank_disk nblocks)).
Proof.
  intros Hbs Hn. split.
  { intros Hbig. unfold disk_open.
    destruct (nblocks >? 1000) eqn:E; [done|lia]. }
  intros fd d evs. unfold disk_open.
  destruct (nblocks >? 1000) eqn:E; [done|].
  destruct (host_calloc h); cbn; [|done].
  destruct (host_open h =? -1); cbn; [done|].
  destruct (host_truncate h); cbn; [|done].
  intros [= <- <- <-]. cbn.
  split; [lia|]. split; [done|]. split; [done|].
  assert (Hlen : length (blocks_of_file (truncate (host_file h) (nblocks * BLOCK_SIZE))
                           nblocks) = Z.to_nat nblocks).
  { unfold blocks_of_file. rewrite length_fmap, length_seqZ. done. }
  split; [unfold disk_blocks; cbn; lia|].
  split.
  { unfold image_ok, image_of. cbn. apply Forall_lookup. intros k b Hk.
    assert (k < Z.to_nat nblocks)%nat
      by (rewrite <- Hlen; by eapply lookup_lt_Some).
    rewrite blocks_of_file_lookup in Hk by done. injection Hk as <-.
    unfold block_ok. rewrite length_take, length_drop, length_truncate. nia. }
  split; [done|]. split; [done|].
  intros Hfile. rewrite Hfile, truncate_empty in Hlen |- *.
  apply list_eq. intros k. unfold blank_disk. cbn.
  destruct (decide (k < Z.to_nat nblocks)%nat) as [Hk|Hk].
  - rewrite blocks_of_file_lookup by done.
    rewrite (lookup_replicate_2 _ _ k) by done. f_equal.
    unfold empty_block. rewrite drop_replicate, take_replicate. f_equal. nia.
  - rewrite (lookup_ge_None_2 _ k) by (rewrite Hlen; lia).
    symmetry. apply lookup_ge_None_2. rewrite length_replicate. lia.
Qed.

(** X5: the failure paths of [disk_open].  When [calloc] fails the null
    pointer goes to [disk_close], which dereferences it.  When [open] fails
    the zeroed structure goes to [disk_close], which reports zero reads and
    writes and closes descriptor 0; when [truncate] fails it closes the
    descriptor just opened.  In both cases [disk_open] returns null. *)
Theorem disk_open_failure_paths (h : Host) (nblocks : Z) :
  nblocks <= 1000 ->
  (host_calloc h = false -> disk_open h nblocks = Undef)
  /\ (host_calloc h = true -> host_open h = -1 ->
        disk_open h nblocks
        = Ok (None, [ev_print "0 disk block reads"; ev_print "0 disk block writes";
                     ev_close 0]))
  /\ (host_calloc h = true -> host_open h ≠ -1 -> host_truncate h = false ->
        disk_open h nblocks
        = Ok (None, [ev_print "0 disk block reads"; ev_print "0 disk block writes";
                     ev_close (host_open h)])).
Proof.
  intros Hn. unfold disk_open.
  destruct (nblocks >? 1000) eqn:E; [lia|].
  split; [intros ->; done|]. split.
  - intros -> ->. done.
  - intros -> Hfd ->. cbn. destruct (host_open h =? -1) eqn:E1; [lia|]. done.
Qed.

End DiskOpenFacts.

(** ** [fs_format]: what it computes and what it clears *)

Section FormatLaws.
Context `{G : Geometry}.

Lemma rounding_rule (n : Z) :
  0 <= n ->
  (if n mod 10 =? 0 then n / 10 else n / 10 + 1) = (n + 9) / 10.
Proof.
  intros Hn. pose proof (Z.div_mod n 10 ltac:(lia)) as Hdm.
  pose proof (Z.mod_pos_bound n 10 ltac:(lia)) as Hm.
  destruct (n mod 10 =? 0) eqn:E.
  - apply Z.eqb_eq in E. apply (Z.div_unique _ _ _ 9); lia.
  - apply Z.eqb_neq in E. apply (Z.div_unique _ _ _ (n mod 10 - 1)); lia.
Qed.



(** X6: [fs_format] refuses a mounted structure and touches nothing.  On an
    unmounted one, over a device whose writes succeed, it returns [true];
    the structure caches the super block of the device, with
    [inode_blocks] the block count divided by ten and rounded up, and stays
    unmounted with the disk pointer it had; every block but block 0 is zero
    and block 0 is as it was. *)
Theorem fs_format_effect (fs : FileSystem) (d : Disk) :
  disk_faults d = [] -> disk_blocks d < 2 ^ 32 ->
  (is_Some (free_blocks fs) -> fs_format fs d = (false, fs, Some d))
  /\ (free_blocks fs = None ->
      exists d1,
        fs_format fs d
        = (true,
           {| disk := disk fs;
              meta_data :=
                {| magic_number := wrap32 MAGIC_NUMBER; blocks := disk_blocks d;
                   inode_blocks := (disk_blocks d + 9) / 10;
                   inodes := wrap32 ((disk_blocks d + 9) / 10 * INODES_PER_BLOCK) |};
              free_blocks := None |},
           d1)
        /\ length (image_of d1) = length (disk_image d)
        /\ block_of d1 0 = block_of (Some d) 0
        /\ forall k, 0 < k < disk_blocks d -> block_of d1 k = empty_block).
Proof.
  intros Hq Hsmall. split.
  { intros [bm Hbm]. unfold fs_format. by rewrite Hbm. }
  intros Hfree. unfold fs_format. rewrite Hfree.
  assert (Hwrap : wrap32 (disk_blocks d) = disk_blocks d).
  { unfold wrap32. apply Z.mod_small. unfold disk_blocks in *. lia. }
  rewrite !Hwrap, rounding_rule by (unfold disk_blocks; lia).
  destruct (format_clear_quiet (seqZ 1 (disk_blocks d - 1)) (Some d))
    as (d1 & Hf & Hq1 & Hlen & Hother & Hcleared).
  { exact Hq. }
  { intros i Hi. apply elem_of_seqZ in Hi.
    change (image_of (Some d)) with (disk_image d). unfold disk_blocks in Hi. lia. }
  rewrite Hf. exists d1. split; [reflexivity|]. split; [done|]. split.
  - unfold block_of. change (Z.to_nat 0) with 0%nat.
    rewrite (Hother 0%nat); [done|]. rewrite elem_of_seqZ. lia.
  - intros k Hk. unfold block_of. rewrite Hcleared; [done|].
    rewrite elem_of_seqZ. lia.
Qed.


End FormatLaws.

(** ** [fs_mount]: the bitmap it builds *)

Section MountBitmap.
Context `{G : Geometry} (HG : GeometryOk G).

Lemma marks_nil (l : list bool) : marks [] l l.
Proof.
  split; [done|]. intros k Hk. rewrite bool_decide_eq_false_2; [done|].
  intros [_ Hin]. by apply elem_of_nil in Hin.
Qed.

Lemma marks_app (ps qs : list Z) (l l1 l2 : list bool) :
  marks ps l l1 -> marks qs l1 l2 -> marks (ps ++ qs) l l2.
Proof.
  intros [Hlen1 H1] [Hlen2 H2]. split; [congruence|]. intros k Hk.
  rewrite H2, H1 by done.
  destruct (decide (k ≠ 0 /\ k ∈ qs)) as [Hq|Hq].
  - rewrite (bool_decide_eq_true_2 _ Hq), bool_decide_eq_true_2; [done|].
    split; [tauto|]. apply elem_of_app. tauto.
  - rewrite (bool_decide_eq_false_2 _ Hq).
    destruct (decide (k ≠ 0 /\ k ∈ ps)) as [Hp|Hp].
    + rewrite (bool_decide_eq_true_2 _ Hp), bool_decide_eq_true_2; [done|].
      split; [tauto|]. apply elem_of_app. tauto.
    + rewrite (bool_decide_eq_false_2 _ Hp), bool_decide_eq_false_2; [done|].
      rewrite elem_of_app. tauto.
Qed.

Lemma marks_zero (ps : list Z) (l l' : list bool) :
  marks ps l l' -> marks (0 :: ps) l l'.
Proof.
  intros [Hlen H]. split; [done|]. intros k Hk. rewrite H by done.
  apply (f_equal (fun b : bool => if b then Some false else l !! Z.to_nat k)).
  apply bool_decide_ext. rewrite elem_of_cons. split; [tauto|].
  intros [Hk0 [->|Hin]]; [done|tauto].
Qed.

Lemma bitmap_store_marks (l : list bool) (p : Z) (bm' : option (list bool)) :
  bitmap_store (Some l) p false = Ok bm' -> p ≠ 0 ->
  exists l', bm' = Some l' /\ marks [p] l l'.
Proof.
  intros Hst Hp. apply bitmap_store_cases in Hst as (l0 & [= <-] & -> & Hr).
  eexists. split; [done|]. split; [apply length_insert|]. intros k Hk.
  destruct (decide (k = p)) as [->|Hne].
  - rewrite bool_decide_eq_true_2 by (split; [done|left]).
    apply list_lookup_insert_eq. lia.
  - rewrite bool_decide_eq_false_2.
    + apply list_lookup_insert_ne. lia.
    + intros [_ Hin]. by apply list_elem_of_singleton in Hin.
Qed.

Lemma mark_used_exact (ptrs : list Z) (l : list bool) (bm' : option (list bool)) :
  mark_used ptrs (Some l) = Ok bm' ->
  exists l', bm' = Some l' /\ marks ptrs l l'.
Proof.
  revert l. induction ptrs as [|p ptrs IH]; intros l; cbn [mark_used].
  - intros [= <-]. exists l. split; [done|apply marks_nil].
  - destruct (Z.eqb_spec p 0) as [->|Hp].
    + intros Hm. destruct (IH l Hm) as (l' & -> & Hmk).
      exists l'. split; [done|]. by apply marks_zero.
    + destruct (bitmap_store (Some l) p false) as [bm1|] eqn:Hst; [|done].
      destruct (bitmap_store_marks l p bm1 Hst Hp) as (l1 & -> & Hm1).
      intros Hm. destruct (IH l1 Hm) as (l' & -> & Hmk).
      exists l'. split; [done|]. by apply (marks_app [p] ptrs l l1 l').
Qed.

(** The numbers [fs_mount] marks for the inode in one slot. *)
Lemma mount_inode_exact (inode : Inode) (fs : FileSystem) (blk : Block)
    (l : list bool) (fs' : FileSystem) (blk' : Block) :
  mount_inode inode fs blk = Ok (true, fs', blk') -> free_blocks fs = Some l ->
  exists l', free_blocks fs' = Some l'
    /\ marks (if valid inode =? 0 then [] else referenced (disk fs) inode) l l'.
Proof.
  unfold mount_inode, referenced, indirect_refs. intros Hm Hl. rewrite Hl in Hm.
  destruct (valid inode =? 0).
  { injection Hm as <- <-. exists l. split; [done|apply marks_nil]. }
  destruct (mark_used (direct inode) (Some l)) as [bm1|] eqn:Hm1; [|done].
  apply mark_used_exact in Hm1 as (l1 & -> & Hmk1).
  destruct (Z.eqb_spec (indirect inode) 0) as [Hi|Hi].
  { injection Hm as <- <-. exists l1. split; [done|]. by rewrite app_nil_r. }
  destruct (bitmap_store (Some l1) (indirect inode) false) as [bm2|] eqn:Hst; [|done].
  apply bitmap_store_marks in Hst as (l2 & -> & Hmk2); [|done].
  destruct (disk_read_cases (disk fs) (indirect inode) blk)
    as [(d1 & Hr & _)|(d1 & Hr & _)]; rewrite Hr in Hm.
  { by rewrite Z.eqb_refl in Hm. }
  rewrite (BLOCK_SIZE_not_failure HG) in Hm.
  destruct (mark_used _ (Some l2)) as [bm3|] eqn:Hm3; [|done].
  apply mark_used_exact in Hm3 as (l3 & -> & Hmk3).
  injection Hm as <- <-. exists l3. split; [done|].
  apply (marks_app _ _ l l1 l3); [done|].
  by apply (marks_app [indirect inode] _ l1 l2 l3).
Qed.

Lemma mount_slots_exact (js : list Z) (inode_blk : Block) (fs : FileSystem)
    (blk : Block) (l : list bool) (fs' : FileSystem) (blk' : Block) :
  mount_slots js inode_blk fs blk = Ok (true, fs', blk') -> free_blocks fs = Some l ->
  exists l', free_blocks fs' = Some l'
    /\ marks (concat ((fun j => if valid (get_inode inode_blk j) =? 0 then []
                                else referenced (disk fs) (get_inode inode_blk j))
                        <$> js)) l l'.
Proof.
  revert fs blk l. induction js as [|j js IH]; intros fs blk l; cbn [mount_slots].
  - intros [= <- <-] Hl. exists l. split; [done|apply marks_nil].
  - destruct (mount_inode _ fs blk) as [[[go1 fs1] blk1]|] eqn:Hi; [|done].
    destruct go1; [|done]. intros Hs Hl.
    destruct (mount_inode_exact _ _ _ _ _ _ Hi Hl) as (l1 & Hl1 & Hmk1).
    apply (mount_inode_frame HG) in Hi as (Himg & _).
    destruct (IH _ _ _ Hs Hl1) as (l' & Hl' & Hmk).
    exists l'. split; [done|]. cbn [fmap list_fmap concat].
    apply (marks_app _ _ l l1 l'); [done|].
    rewrite (list_fmap_ext _
               (fun j => if valid (get_inode inode_blk j) =? 0 then []
                         else referenced (disk fs1) (get_inode inode_blk j)) js);
      [exact Hmk|].
    intros _ j' _. cbv beta.
    destruct (valid (get_inode inode_blk j') =? 0); [done|].
    symmetry. by apply referenced_same.
Qed.

Lemma mount_blocks_exact (ns : list Z) (fs : FileSystem) (inode_blk blk : Block)
    (l : list bool) (fs' : FileSystem) :
  mount_blocks ns fs inode_blk blk = Ok (true, fs') -> free_blocks fs = Some l ->
  quiet (disk fs) ->
  (forall i, i ∈ ns -> 0 <= i < Z.of_nat (length (image_of (disk fs)))) ->
  exists l', free_blocks fs' = Some l'
    /\ marks (concat ((fun i => block_refs (disk fs) (seqZ 0 INODES_PER_BLOCK) i)
                        <$> ns)) l l'.
Proof.
  revert fs inode_blk blk l.
  induction ns as [|i ns IH]; intros fs inode_blk blk l; cbn [mount_blocks].
  - intros [= <-] Hl _ _. exists l. split; [done|apply marks_nil].
  - intros Hm Hl Hq Hin.
    destruct (disk_read_in (disk fs) i inode_blk Hq) as (d1 & Hr & Himg & Hq1).
    { apply Hin. left. }
    rewrite Hr in Hm.
    destruct (mount_slots _ _ (set_disk fs d1) blk)
      as [[[go1 fs1] blk1]|] eqn:Hsl; [|done].
    destruct go1; [|done].
    destruct (mount_slots_exact _ _ _ _ l _ _ Hsl) as (l1 & Hl1 & Hmk1); [done|].
    apply (mount_slots_frame HG) in Hsl as (Himg1 & _ & _ & Hq2).
    fs_simpl.
    destruct (IH _ _ _ _ Hm Hl1) as (l' & Hl' & Hmk).
    { tauto. }
    { intros i' Hi'. rewrite Himg1, Himg. apply Hin. by right. }
    exists l'. split; [done|]. cbn [fmap list_fmap concat].
    apply (marks_app _ _ l l1 l').
    + unfold block_refs, slot_refs.
      rewrite (list_fmap_ext _
                 (fun j => if valid (get_inode (block_of (disk fs) i) j) =? 0 then []
                           else referenced d1 (get_inode (block_of (disk fs) i) j))
                 (seqZ 0 INODES_PER_BLOCK));
        [exact Hmk1|].
      intros _ j _. cbv beta.
      destruct (valid (get_inode (block_of (disk fs) i) j) =? 0); [done|].
      symmetry. by apply referenced_same.
    + rewrite (list_fmap_ext _
                 (fun i => block_refs (disk fs1) (seqZ 0 INODES_PER_BLOCK) i) ns);
        [exact Hmk|].
      intros _ i' _. cbv beta.
      unfold block_refs. f_equal. apply list_fmap_ext. intros _ j _.
      unfold slot_refs.
      assert (Himg2 : image_of (disk fs1) = image_of (disk fs)) by congruence.
      rewrite (block_of_same _ _ _ Himg2).
      destruct (valid (get_inode (block_of (disk fs) i') j) =? 0); [done|].
      symmetry. by apply referenced_same.
Qed.

Lemma table_refs_same (d d' : option Disk) :
  image_of d' = image_of d -> table_refs d' = table_refs d.
Proof.
  intros Himg. unfold table_refs, super_of.
  rewrite (block_of_same _ _ _ Himg). f_equal.
  apply list_fmap_ext. intros _ i _. unfold block_refs. f_equal.
  apply list_fmap_ext. intros _ j _. unfold slot_refs.
  rewrite (block_of_same _ _ _ Himg).
  destruct (valid (get_inode (block_of d i) j) =? 0); [done|].
  by apply referenced_same.
Qed.

Lemma super_valid_inode_blocks (d : option Disk) :
  super_valid d -> (2 <= length (image_of d))%nat ->
  0 <= inode_blocks (super_of d) < Z.of_nat (length (image_of d)).
Proof.
  intros (_ & Hblocks & Hib & _) Hlen. rewrite Hib, Hblocks.
  pose proof (Z.div_mod (Z.of_nat (length (image_of d))) 10 ltac:(lia)).
  pose proof (Z.mod_pos_bound (Z.of_nat (length (image_of d))) 10 ltac:(lia)).
  destruct (Z.eqb_spec (Z.of_nat (length (image_of d)) mod 10) 0); lia.
Qed.

(** The bitmap after a successful mount: the initial bitmap with the
    numbers of [table_refs] marked. *)
Lemma fs_mount_marks (fs : FileSystem) (d : option Disk) (uninit : Block)
    (fs' : FileSystem) (d' : option Disk) :
  quiet d -> (2 <= length (image_of d))%nat ->
  fs_mount fs d uninit = Ok (true, fs', d') ->
  exists l, free_blocks fs' = Some l
    /\ marks (table_refs d)
         ((fun i => negb (i <=? inode_blocks (super_of d)))
            <$> seqZ 0 (Z.of_nat (length (image_of d)))) l.
Proof.
  intros Hq Hlen Hm.
  destruct (fs_mount_true HG _ _ _ _ _ Hm) as (Hfree & Hsv & _).
  pose proof (super_valid_inode_blocks d Hsv Hlen) as Hibr.
  destruct Hsv as (Hmagic & Hblocks & Hib & Hinodes).
  revert Hm. unfold fs_mount. rewrite Hfree.
  destruct d as [d|]; [|done].
  destruct (disk_read_in (Some d) 0 uninit Hq) as (d1 & Hr & Himg & Hq1); [lia|].
  rewrite Hr, (BLOCK_SIZE_not_failure HG), (wrap32_magic HG).
  fold (super_of (Some d)).
  repeat match goal with
  | |- context [negb (?a =? ?b)] =>
      destruct (Z.eqb_spec a b); cbn [negb]; [|done]
  end.
  destruct (mount_blocks _ _ uninit uninit) as [[go fs3]|] eqn:Hmb; [|done].
  intros [= -> <- <-].
  eapply mount_blocks_exact in Hmb as (l' & Hl' & Hmk).
  2: { fs_simpl. reflexivity. }
  2: { by fs_simpl. }
  2: { intros i Hi. apply elem_of_seqZ in Hi. fs_simpl. rewrite Himg. lia. }
  fs_simpl. fold (super_of (Some d)) in Hmk.
  exists l'. split; [done|].
  rewrite <- Hblocks. rewrite <- (table_refs_same (Some d) d1 Himg).
  unfold table_refs, super_of. rewrite (block_of_same _ _ _ Himg). exact Hmk.
Qed.

Lemma fs_mount_bitmap_lookup (fs : FileSystem) (d : option Disk) (uninit : Block)
    (fs' : FileSystem) (d' : option Disk) :
  quiet d -> (2 <= length (image_of d))%nat ->
  fs_mount fs d uninit = Ok (true, fs', d') ->
  exists l, free_blocks fs' = Some l
    /\ length l = length (image_of d)
    /\ forall k, 0 <= k < Z.of_nat (length (image_of d)) ->
         l !! Z.to_nat k = Some (negb (in_use d k)).
Proof.
  intros Hq Hlen Hm.
  destruct (fs_mount_marks _ _ _ _ _ Hq Hlen Hm) as (l & Hl & Hlen' & Hmk).
  exists l. split; [done|]. split.
  { rewrite Hlen', length_fmap, length_seqZ. lia. }
  intros k Hk. rewrite Hmk by lia. unfold in_use.
  destruct (bool_decide _); [by rewrite orb_true_r|].
  rewrite orb_false_r, list_lookup_fmap, lookup_seqZ_lt by lia.
  cbn. do 3 f_equal. lia.
Qed.

End MountBitmap.

Section MountBitmapResult.
Context `{G : Geometry}.

(** X8: the bitmap is rebuilt from the inode table.  After a successful
    [fs_mount] of a device of at least two blocks whose reads succeed, the
    bitmap has one entry for each block and the entry of block [k] is
    not-free exactly when [k] is at most [inode_blocks] or some valid inode
    of the table refers to [k] (as a direct pointer, as its indirect block,
    or through its indirect block); every other entry is free. *)
Theorem fs_mount_rebuilds_bitmap (fs : FileSystem) (d : option Disk) (uninit : Block)
    (fs' : FileSystem) (d' : option Disk) :
  GeometryOk G -> quiet d -> (2 <= length (image_of d))%nat ->
  fs_mount fs d uninit = Ok (true, fs', d') ->
  exists l, free_blocks fs' = Some l
    /\ length l = length (image_of d)
    /\ forall k, 0 <= k < Z.of_nat (length (image_of d)) ->
         l !! Z.to_nat k = Some (negb (in_use d k)).
Proof. intros HG. by apply fs_mount_bitmap_lookup. Qed.

End MountBitmapResult.

(** ** Unmounting, and mounting again *)

Section Remount.
Context `{G : Geometry} (HG : GeometryOk G).

Lemma super_valid_same (d d' : option Disk) :
  image_of d' = image_of d -> super_valid d -> super_valid d'.
Proof.
  intros Himg. unfold super_valid, super_of.
  by rewrite (block_of_same _ _ _ Himg), Himg.
Qed.

Lemma elem_of_concat_2 {A : Type} (x : A) (l : list A) (ls : list (list A)) :
  x ∈ l -> l ∈ ls -> x ∈ concat ls.
Proof.
  intros Hx. induction ls as [|l' ls IH]; intros Hl.
  - by apply elem_of_nil in Hl.
  - cbn. apply elem_of_app. apply elem_of_cons in Hl as [<-|Hl]; [by left|].
    right. by apply IH.
Qed.

Lemma elem_of_table_refs (d : option Disk) (i j p : Z) :
  1 <= i <= inode_blocks (super_of d) -> 0 <= j < INODES_PER_BLOCK ->
  valid (get_inode (block_of d i) j) ≠ 0 ->
  p ∈ referenced d (get_inode (block_of d i) j) ->
  p ∈ table_refs d.
Proof.
  intros Hi Hj Hv Hp. unfold table_refs.
  apply (elem_of_concat_2 _ (block_refs d (seqZ 0 INODES_PER_BLOCK) i)).
  - unfold block_refs. apply (elem_of_concat_2 _ (slot_refs d i j)).
    + unfold slot_refs. by destruct (Z.eqb_spec (valid (get_inode (block_of d i) j)) 0).
    + apply list_elem_of_fmap. exists j. split; [done|]. apply elem_of_seqZ. lia.
  - apply list_elem_of_fmap. exists i. split; [done|]. apply elem_of_seqZ. lia.
Qed.

(** A mount that succeeded stored inside the bitmap: the pointers of the
    valid inodes lie inside the device. *)
Lemma fs_mount_pointers_within (fs : FileSystem) (d : option Disk) (uninit : Block)
    (fs' : FileSystem) (d' : option Disk) :
  quiet d -> (2 <= length (image_of d))%nat ->
  fs_mount fs d uninit = Ok (true, fs', d') -> pointers_within d.
Proof.
  intros Hq Hlen Hm.
  destruct (fs_mount_marks HG _ _ _ _ _ Hq Hlen Hm) as (l & Hl & Hlen' & Hmk).
  intros i j Hi Hj Hv p Hp.
  destruct (decide (p = 0)) as [->|Hp0]; [lia|].
  pose proof (referenced_nonneg _ _ _ _ Hp) as Hp1.
  specialize (Hmk p Hp1).
  rewrite bool_decide_eq_true_2 in Hmk
    by (split; [done|by eapply elem_of_table_refs]).
  apply lookup_lt_Some in Hmk.
  rewrite Hlen', length_fmap, length_seqZ in Hmk. lia.
Qed.

Lemma marks_unique (ps : list Z) (l l1 l2 : list bool) :
  marks ps l l1 -> marks ps l l2 -> l1 = l2.
Proof.
  intros [_ H1] [_ H2]. apply list_eq. intros k.
  specialize (H1 (Z.of_nat k) ltac:(lia)). specialize (H2 (Z.of_nat k) ltac:(lia)).
  rewrite Nat2Z.id in H1, H2. congruence.
Qed.

End Remount.

Section RemountResult.
Context `{G : Geometry}.

(** X9: the bitmap lives only while mounted and a mount rebuilds it.  After
    a successful [fs_mount] on a device whose reads succeed, [fs_unmount]
    leaves the structure without disk and without bitmap, and mounting the
    structure again on the same disk succeeds with the same cached super
    block and the same bitmap. *)
Theorem fs_unmount_then_mount (fs : FileSystem) (d : option Disk)
    (uninit uninit' : Block) (fs1 : FileSystem) (d1 : option Disk) :
  GeometryOk G -> quiet d -> (2 <= length (image_of d))%nat ->
  fs_mount fs d uninit = Ok (true, fs1, d1) ->
  disk (fs_unmount fs1) = None /\ free_blocks (fs_unmount fs1) = None
  /\ exists fs2,
       fs_mount (fs_unmount fs1) d1 uninit' = Ok (true, fs2, disk fs2)
       /\ meta_data fs2 = meta_data fs1
       /\ free_blocks fs2 = free_blocks fs1
       /\ image_of (disk fs2) = image_of d.
Proof.
  intros HG Hq Hlen Hm. split; [done|]. split; [done|].
  destruct (fs_mount_true HG _ _ _ _ _ Hm)
    as (_ & Hsv & -> & Himg & Hmeta & _ & Hq1).
  pose proof (fs_mount_pointers_within HG _ _ _ _ _ Hq Hlen Hm) as Hpw.
  destruct (fs_mount_marks HG _ _ _ _ _ Hq Hlen Hm) as (l1 & Hl1 & Hmk1).
  assert (Hsv1 : super_valid (disk fs1)) by (by eapply super_valid_same).
  assert (Hpw1 : pointers_within (disk fs1)).
  { intros i j Hi Hj Hv p Hp. unfold super_of in Hi.
    rewrite (block_of_same _ _ 0 Himg) in Hi.
    rewrite (block_of_same _ _ i Himg) in Hv, Hp.
    rewrite (referenced_same _ _ _ Himg) in Hp. rewrite Himg.
    by apply (Hpw i j). }
  destruct (fs_mount_ok HG (fs_unmount fs1) (disk fs1) uninit') as (fs2 & Hm2);
    [done|tauto|done|by rewrite Himg|done|].
  exists fs2. split; [done|].
  destruct (fs_mount_true HG _ _ _ _ _ Hm2) as (_ & _ & _ & Himg2 & Hmeta2 & _).
  destruct (fs_mount_marks HG _ _ _ _ _ (Hq1 Hq) ltac:(by rewrite Himg) Hm2)
    as (l2 & Hl2 & Hmk2).
  split.
  { rewrite Hmeta2, Hmeta. unfold super_of. by rewrite (block_of_same _ _ _ Himg). }
  split; [|congruence].
  rewrite Hl1, Hl2. f_equal. symmetry.
  rewrite (table_refs_same _ _ Himg), Himg in Hmk2.
  unfold super_of in Hmk2. rewrite (block_of_same _ _ _ Himg) in Hmk2.
  by eapply marks_unique.
Qed.

Lemma create_blocks_no_disk (ns : list Z) (block : Block) :
  GeometryOk G -> create_blocks ns block None = (-1, None).
Proof.
  intros HG. pose proof (ok_super_fits G HG) as Hbs.
  induction ns as [|i ns IH]; [done|]. cbn [create_blocks disk_read].
  destruct (Z.eqb_spec DISK_FAILURE BLOCK_SIZE) as [He|_]; [|exact IH].
  unfold DISK_FAILURE in He. lia.
Qed.

(** X10: on a structure without disk, as [fs_unmount] leaves it, every
    operation fails with its sentinel, runs into no undefined behaviour and
    changes neither the structure nor the caller's buffer: [fs_create],
    [fs_stat], [fs_read] and [fs_write] return -1, [fs_remove] returns
    [false]. *)
Theorem operations_fail_after_unmount (fs : FileSystem) (n : Z) (data : list Z)
    (len offset : Z) (uninit : Block) :
  GeometryOk G ->
  fs_create (fs_unmount fs) = (-1, fs_unmount fs)
  /\ fs_stat (fs_unmount fs) n = (-1, fs_unmount fs)
  /\ fs_read (fs_unmount fs) n data len offset = Ok (-1, fs_unmount fs, data)
  /\ fs_write (fs_unmount fs) n data len offset uninit = Ok (-1, fs_unmount fs)
  /\ fs_remove (fs_unmount fs) n = Ok (false, fs_unmount fs).
Proof.
  intros HG.
  assert (Hload : fs_load_inode (fs_unmount fs) n = (None, fs_unmount fs)).
  { unfold fs_load_inode. cbn. done. }
  split.
  { unfold fs_create. cbn [disk fs_unmount]. by rewrite create_blocks_no_disk. }
  split; [unfold fs_stat; by rewrite Hload|].
  split; [unfold fs_read; by rewrite Hload|].
  split; [unfold fs_write; by rewrite Hload|].
  unfold fs_remove. by rewrite Hload.
Qed.

End RemountResult.

(** ** Formatting a device that holds a super block *)

Section FormatMountAgain.
Context `{G : Geometry}.

Lemma concat_nil_fmap {A B : Type} (f : A -> list B) (l : list A) :
  (forall x, x ∈ l -> f x = []) -> concat (f <$> l) = [].
Proof.
  induction l as [|x l IH]; intros Hf; [done|]. cbn.
  rewrite (Hf x) by left. apply IH. intros y Hy. apply Hf. by right.
Qed.

(** X11: formatting a device whose block 0 already holds the super block
    of its size empties it.  On such a device of at least two blocks whose
    system calls succeed, [fs_format] and then [fs_mount] succeed; the super
    block mounted is the one [fs_format] computed, no inode of the table is
    valid, and the bitmap marks the blocks [0, inode_blocks] not-free and
    every other block free. *)
Theorem fs_format_then_mount_formatted_device (d : Disk) (uninit : Block) :
  GeometryOk G -> disk_faults d = [] -> (2 <= length (disk_image d))%nat ->
  super_valid (Some d) ->
  exists fs1 d1 fs2,
    fs_format unmounted d = (true, fs1, d1)
    /\ fs_mount fs1 d1 uninit = Ok (true, fs2, disk fs2)
    /\ meta_data fs2 = meta_data fs1
    /\ (forall i j, 1 <= i <= inode_blocks (meta_data fs2) ->
          valid (get_inode (block_of (disk fs2) i) j) = 0)
    /\ forall k, 0 <= k < disk_blocks d ->
         bitmap_entry fs2 k = Some (negb (k <=? inode_blocks (meta_data fs2))).
Proof.
  intros HG Hq Hlen Hsv.
  pose proof (super_valid_inode_blocks (Some d) Hsv Hlen) as Hibr.
  change (image_of (Some d)) with (disk_image d) in Hibr.
  assert (Hsmall : disk_blocks d < 2 ^ 32).
  { destruct Hsv as (_ & Hb & _). unfold disk_blocks.
    change (image_of (Some d)) with (disk_image d) in Hb. rewrite <- Hb.
    apply get_u32_range. }
  destruct (fs_format_image unmounted d eq_refl Hq Hsmall)
    as (fs1 & d1 & Hfmt & Hq1 & Hfree1 & Hlen1 & Hzero & Hclear).
  assert (Hb0 : block_of d1 0 = block_of (Some d) 0).
  { unfold block_of. change (Z.to_nat 0) with 0%nat. by rewrite Hzero. }
  assert (Hbk : forall k, 0 < k < disk_blocks d -> block_of d1 k = empty_block).
  { intros k Hk. unfold block_of. rewrite Hclear; [done|]. unfold disk_blocks in Hk. lia. }
  assert (Hsuper : super_of d1 = super_of (Some d)) by (unfold super_of; by rewrite Hb0).
  assert (Hsv1 : super_valid d1).
  { unfold super_valid. rewrite Hsuper, Hlen1. exact Hsv. }
  assert (Hinvalid : forall i j, 1 <= i <= inode_blocks (super_of d1) ->
            valid (get_inode (block_of d1 i) j) = 0).
  { intros i j Hi. rewrite Hsuper in Hi. rewrite Hbk by (unfold disk_blocks; lia).
    by rewrite get_inode_empty_block. }
  assert (Hpw : pointers_within d1).
  { intros i j Hi Hj Hv. by rewrite Hinvalid in Hv. }
  destruct (fs_mount_ok HG fs1 d1 uninit Hfree1 Hq1 Hsv1 ltac:(lia) Hpw) as (fs2 & Hm).
  exists fs1, d1, fs2. split; [done|]. split; [done|].
  destruct (fs_mount_true HG _ _ _ _ _ Hm) as (_ & _ & _ & Himg2 & Hmeta2 & _).
  destruct (fs_mount_bitmap_lookup HG _ _ _ _ _ Hq1 ltac:(lia) Hm)
    as (l & Hl & Hll & Hentries).
  assert (Hmeta1 : meta_data fs1 = super_of (Some d)).
  { revert Hfmt. unfold fs_format. cbn [unmounted free_blocks].
    destruct (format_clear _ _) as [r dd]. intros [= _ <- _]. cbn [meta_data].
    destruct Hsv as (Hmagic & Hblocks & Hib & Hinodes).
    change (image_of (Some d)) with (disk_image d) in Hblocks.
    assert (Hw : wrap32 (disk_blocks d) = blocks (super_of (Some d))).
    { unfold wrap32, disk_blocks in *. rewrite Z.mod_small by lia. lia. }
    rewrite Hw.
    assert (Hib' : (if blocks (super_of (Some d)) mod 10 =? 0
                    then blocks (super_of (Some d)) / 10
                    else blocks (super_of (Some d)) / 10 + 1)
                   = inode_blocks (super_of (Some d))).
    { rewrite Hib. destruct (_ =? 0); lia. }
    rewrite Hib', (wrap32_magic HG), <- Hmagic, <- Hinodes.
    by destruct (super_of (Some d)). }
  split; [congruence|]. split.
  { intros i j Hi. rewrite (block_of_same _ _ _ Himg2). apply Hinvalid. congruence. }
  intros k Hk. unfold bitmap_entry. rewrite Hl.
  rewrite Hentries by (rewrite Hlen1; unfold disk_blocks in Hk; lia).
  do 2 f_equal. unfold in_use, table_refs.
  rewrite concat_nil_fmap.
  - rewrite bool_decide_eq_false_2, orb_false_r; [by rewrite Hmeta2|].
    intros [_ Hin]. by apply elem_of_nil in Hin.
  - intros i Hi. apply elem_of_seqZ in Hi. unfold block_refs.
    apply concat_nil_fmap. intros j _. unfold slot_refs.
    rewrite Hinvalid by lia. done.
Qed.

End FormatMountAgain.

(** ** [fs_stat] and [fs_read] *)

Section ReadLaws.
Context `{G : Geometry} (HG : GeometryOk G).

Lemma wrap64_range (z : Z) : 0 <= wrap64 z < 2 ^ 64.
Proof. unfold wrap64. apply Z.mod_pos_bound. lia. Qed.

(** The ways [read_chunk] can end. *)
Lemma read_chunk_cases (fs : FileSystem) (inode : Inode) (ptr : Z)
    (data : list Z) (offset bp r : Z) (fs' : FileSystem) (data' : list Z) :
  read_chunk fs inode ptr data offset bp = Ok (r, fs', data') ->
  (r = -1 /\ data' = data)
  \/ (r = Z.min BLOCK_SIZE (wrap64 (size inode - offset))
      /\ 0 <= ptr < Z.of_nat (length (image_of (disk fs)))
      /\ r <= Z.of_nat (length data)
      /\ 0 <= bp /\ bp + r <= Z.of_nat (length (block_of (disk fs) ptr))
      /\ data' = take (Z.to_nat r) (drop (Z.to_nat bp) (block_of (disk fs) ptr))
                 ++ drop (Z.to_nat r) data).
Proof.
  unfold read_chunk.
  destruct (disk_read_cases (disk fs) ptr empty_block)
    as [(d1 & Hr & _)|(d1 & Hr & _ & _ & _ & Hin)]; rewrite Hr.
  { rewrite Z.eqb_refl. intros [= <- <- <-]. by left. }
  rewrite (BLOCK_SIZE_not_failure HG).
  pose proof (wrap64_range (size inode - offset)) as Hav.
  set (avail := wrap64 (size inode - offset)) in *.
  assert (Hmin : (if BLOCK_SIZE >? avail then avail else BLOCK_SIZE)
                 = Z.min BLOCK_SIZE avail).
  { destruct (Z.gtb_spec BLOCK_SIZE avail); lia. }
  rewrite Hmin. unfold memcpy.
  destruct (_ && _) eqn:Hc; [|done].
  intros [= <- <- <-]. right.
  repeat (apply andb_prop in Hc as [Hc ?]).
  split; [done|]. split; [done|]. split; [lia|]. split; [lia|]. split; [lia|].
  cbn [take]. by rewrite Z.add_0_l.
Qed.

(** What one [fs_read] can return and do to the buffer. *)
Lemma fs_read_result (fs : FileSystem) (n : Z) (data : list Z) (len offset r : Z)
    (fs' : FileSystem) (data' : list Z) :
  fs_read fs n data len offset = Ok (r, fs', data') ->
  length data' = length data
  /\ ((r = -1 /\ data' = data) \/ (0 <= r <= BLOCK_SIZE /\ r <= Z.of_nat (length data))).
Proof.
  pose proof (ok_super_fits G HG) as Hbs.
  assert (Hchunk : forall fs0 inode ptr bp,
    read_chunk fs0 inode ptr data offset bp = Ok (r, fs', data') ->
    length data' = length data
    /\ ((r = -1 /\ data' = data) \/ (0 <= r <= BLOCK_SIZE /\ r <= Z.of_nat (length data)))).
  { intros fs0 inode ptr bp Hrc.
    apply read_chunk_cases in Hrc as [[-> ->]|(Hr & _ & Hlen & Hbp & Hfit & ->)];
      [by auto|].
    pose proof (wrap64_range (size inode - offset)).
    split; [|right; lia].
    rewrite length_app, length_take, length_drop, length_drop. lia. }
  unfold fs_read.
  destruct (fs_load_inode fs n) as [[inode|] fs1]; [|intros [= <- <- <-]; by auto].
  destruct (_ >=? _); [intros [= <- <- <-]; by auto|].
  destruct (free_blocks fs1); [|intros [= <- <- <-]; by auto].
  destruct (_ <? POINTERS_PER_INODE); [apply Hchunk|].
  destruct (indirect _ =? 0); [intros [= <- <- <-]; by auto|].
  destruct (disk_read _ _ _) as [[r0 d1] ind_blk].
  destruct (r0 =? DISK_FAILURE); [intros [= <- <- <-]; by auto|].
  destruct (pointer_at _ _) as [ptr|]; [|done].
  destruct (ptr =? 0); [|apply Hchunk].
  intros [= <- <- <-]. split; [done|]. right. lia.
Qed.

(** One block out of the direct range, on a device whose reads succeed. *)
Lemma fs_read_direct (fs : FileSystem) (n : Z) (data : list Z) (len offset : Z) :
  quiet (disk fs) -> is_Some (free_blocks fs) ->
  0 <= n < wrap32 (inode_blocks (meta_data fs) * INODES_PER_BLOCK) ->
  0 <= slot_block n < Z.of_nat (length (image_of (disk fs))) ->
  valid (inode_on_disk (disk fs) n) ≠ 0 ->
  0 <= offset -> offset / BLOCK_SIZE < POINTERS_PER_INODE ->
  0 <= direct_at (inode_on_disk (disk fs) n) (offset / BLOCK_SIZE)
    < Z.of_nat (length (image_of (disk fs))) ->
  offset mod BLOCK_SIZE
    + Z.min BLOCK_SIZE (wrap64 (size (inode_on_disk (disk fs) n) - offset))
    <= Z.of_nat (length (block_of (disk fs)
                           (direct_at (inode_on_disk (disk fs) n) (offset / BLOCK_SIZE)))) ->
  Z.min BLOCK_SIZE (wrap64 (size (inode_on_disk (disk fs) n) - offset))
    <= Z.of_nat (length data) ->
  exists fs',
    fs_read fs n data len offset
    = Ok (Z.min BLOCK_SIZE (wrap64 (size (inode_on_disk (disk fs) n) - offset)),
          fs',
          take (Z.to_nat (Z.min BLOCK_SIZE
                            (wrap64 (size (inode_on_disk (disk fs) n) - offset))))
            (drop (Z.to_nat (offset mod BLOCK_SIZE))
               (block_of (disk fs)
                  (direct_at (inode_on_disk (disk fs) n) (offset / BLOCK_SIZE))))
          ++ drop (Z.to_nat (Z.min BLOCK_SIZE
                               (wrap64 (size (inode_on_disk (disk fs) n) - offset))))
               data)
    /\ reads_only fs fs'.
Proof.
  intros Hq [bm Hbm] Hn Hslot Hv Hoff Hblk Hptr Hfit Hroom.
  pose proof (ok_super_fits G HG) as Hbs.
  unfold fs_read.
  destruct (fs_load_inode_valid HG fs n Hq Hslot Hv) as (fs1 & Hro & ->).
  pose proof Hro as (Himg & Hmeta & Hfree & Hq1 & Hs1).
  rewrite Hmeta, Hfree, Hbm.
  destruct (Z.geb_spec n (wrap32 (inode_blocks (meta_data fs) * INODES_PER_BLOCK)));
    [lia|].
  destruct (Z.ltb_spec (offset / BLOCK_SIZE) POINTERS_PER_INODE); [|lia].
  set (inode := inode_on_disk (disk fs) n) in *.
  set (ptr := direct_at inode (offset / BLOCK_SIZE)) in *.
  unfold read_chunk.
  destruct (disk_read_in (disk fs1) ptr empty_block (Hq1 Hq))
    as (d1 & Hr & Himg1 & Hq2); [by rewrite Himg|].
  rewrite Hr, (BLOCK_SIZE_not_failure HG), (block_of_same _ _ _ Himg).
  pose proof (wrap64_range (size inode - offset)) as Hav.
  set (avail := wrap64 (size inode - offset)) in *.
  assert (Hmin : (if BLOCK_SIZE >? avail then avail else BLOCK_SIZE)
                 = Z.min BLOCK_SIZE avail).
  { destruct (Z.gtb_spec BLOCK_SIZE avail); lia. }
  rewrite Hmin. unfold memcpy.
  assert (Hpos : 0 < BLOCK_SIZE) by lia.
  pose proof (Z.mod_pos_bound offset BLOCK_SIZE Hpos) as Hbp.
  rewrite (proj2 (Z.leb_le 0 (Z.min BLOCK_SIZE avail))) by lia.
  rewrite Z.leb_refl.
  rewrite (proj2 (Z.leb_le 0 (offset mod BLOCK_SIZE))) by lia.
  rewrite Z.add_0_l.
  rewrite (proj2 (Z.leb_le _ _) Hroom), (proj2 (Z.leb_le _ _) Hfit).
  cbn [andb]. change (Z.to_nat 0) with 0%nat. cbn [take app].
  eexists. split; [reflexivity|].
  eapply reads_only_trans; [exact Hro|].
  apply reads_only_set_disk; [done| |done].
  split; intros _; apply image_nonempty_is_Some; rewrite ?Himg1, Himg; lia.
Qed.

End ReadLaws.

Section ReadResult.
Context `{G : Geometry}.

(** X12: [fs_stat] and [fs_read] write nothing: the image of the device,
    the cached super block and the bitmap are as they were.  [fs_read]
    keeps the length of the caller's buffer; when it returns -1 the buffer
    is untouched, and what it returns otherwise lies between 0 and
    [BLOCK_SIZE], whatever length was asked for. *)
Theorem fs_stat_and_fs_read_write_nothing (fs : FileSystem) (n : Z)
    (data : list Z) (len offset r : Z) (fs' : FileSystem) (data' : list Z) :
  GeometryOk G ->
  fs_read fs n data len offset = Ok (r, fs', data') ->
  (image_of (disk (fs_stat fs n).2) = image_of (disk fs)
   /\ meta_data (fs_stat fs n).2 = meta_data fs
   /\ free_blocks (fs_stat fs n).2 = free_blocks fs)
  /\ image_of (disk fs') = image_of (disk fs)
  /\ meta_data fs' = meta_data fs
  /\ free_blocks fs' = free_blocks fs
  /\ length data' = length data
  /\ (r = -1 -> data' = data)
  /\ (r ≠ -1 -> 0 <= r <= BLOCK_SIZE).
Proof.
  intros HG Hrd. split.
  { unfold fs_stat.
    destruct (fs_load_inode_cases HG fs n) as (fs1 & (H1 & H2 & H3 & _) & [Hl|[Hl _]]);
      by rewrite Hl. }
  destruct (fs_read_reads_only HG _ _ _ _ _ _ _ _ Hrd) as (H1 & H2 & H3 & _).
  destruct (fs_read_result HG _ _ _ _ _ _ _ _ Hrd) as (Hlen & Hcases).
  split; [done|]. split; [done|]. split; [done|]. split; [done|].
  split; intros Hr; destruct Hcases as [[? ?]|[? ?]]; try done; lia.
Qed.

(** X13: what one [fs_read] copies.  For a valid inode inside the table of
    a mounted device whose reads succeed, and an offset in the direct range,
    [fs_read] reads the one block the direct pointer of the offset names
    (block 0 when the pointer is not set) and copies, from the position of
    the offset in that block, the smaller of [BLOCK_SIZE] and
    [size - offset] bytes to the start of the buffer, and returns that
    count; the length asked for plays no part. *)
Theorem fs_read_copies_one_block (fs : FileSystem) (n : Z) (data : list Z)
    (len offset : Z) :
  GeometryOk G ->
  quiet (disk fs) -> is_Some (free_blocks fs) ->
  0 <= n < wrap32 (inode_blocks (meta_data fs) * INODES_PER_BLOCK) ->
  0 <= slot_block n < Z.of_nat (length (image_of (disk fs))) ->
  valid (inode_on_disk (disk fs) n) ≠ 0 ->
  0 <= offset -> offset / BLOCK_SIZE < POINTERS_PER_INODE ->
  0 <= direct_at (inode_on_disk (disk fs) n) (offset / BLOCK_SIZE)
    < Z.of_nat (length (image_of (disk fs))) ->
  offset mod BLOCK_SIZE
    + Z.min BLOCK_SIZE (wrap64 (size (inode_on_disk (disk fs) n) - offset))
    <= Z.of_nat (length (block_of (disk fs)
                           (direct_at (inode_on_disk (disk fs) n) (offset / BLOCK_SIZE)))) ->
  Z.min BLOCK_SIZE (wrap64 (size (inode_on_disk (disk fs) n) - offset))
    <= Z.of_nat (length data) ->
  exists fs',
    fs_read fs n data len offset
    = Ok (Z.min BLOCK_SIZE (wrap64 (size (inode_on_disk (disk fs) n) - offset)),
          fs',
          take (Z.to_nat (Z.min BLOCK_SIZE
                            (wrap64 (size (inode_on_disk (disk fs) n) - offset))))
            (drop (Z.to_nat (offset mod BLOCK_SIZE))
               (block_of (disk fs)
                  (direct_at (inode_on_disk (disk fs) n) (offset / BLOCK_SIZE))))
          ++ drop (Z.to_nat (Z.min BLOCK_SIZE
                               (wrap64 (size (inode_on_disk (disk fs) n) - offset))))
               data).
Proof.
  intros HG Hq Hbm Hn Hslot Hv Hoff Hblk Hptr Hfit Hroom.
  destruct (fs_read_direct HG fs n data len offset) as (fs' & Hrd & _); try done.
  by exists fs'.
Qed.

End ReadResult.

(** ** [fs_find_free]: first fit *)

Section FirstFit.
Context `{G : Geometry} (HG : GeometryOk G).

Lemma find_free_scan_none (ns : list Z) (fs : FileSystem) (l : list bool) :
  free_blocks fs = Some l ->
  (forall i, i ∈ ns -> 0 <= i /\ l !! Z.to_nat i = Some false) ->
  find_free_scan ns fs = Ok (0, fs).
Proof.
  intros Hl. induction ns as [|i ns IH]; intros Hall; [done|].
  cbn [find_free_scan]. unfold bitmap_load. rewrite Hl.
  destruct (Hall i) as [Hi Hli]; [left|]. rewrite Hli.
  destruct (Z.leb_spec 0 i); [|lia].
  apply IH. intros j Hj. apply Hall. by right.
Qed.

Lemma find_free_scan_first (ns1 ns2 : list Z) (r : Z) (fs : FileSystem) (l : list bool) :
  free_blocks fs = Some l -> quiet (disk fs) ->
  (forall i, i ∈ ns1 -> 0 <= i /\ l !! Z.to_nat i = Some false) ->
  0 <= r < Z.of_nat (length (image_of (disk fs))) ->
  l !! Z.to_nat r = Some true ->
  exists d', find_free_scan (ns1 ++ r :: ns2) fs
             = Ok (r, {| disk := d'; meta_data := meta_data fs;
                         free_blocks := Some (<[Z.to_nat r := false]> l) |})
    /\ image_of d' = <[Z.to_nat r := empty_block]> (image_of (disk fs))
    /\ quiet d'.
Proof.
  intros Hl Hq Hall Hr Hlr. induction ns1 as [|i ns1 IH].
  - cbn [app find_free_scan]. unfold bitmap_load, bitmap_store. rewrite Hl, Hlr.
    destruct (Z.leb_spec 0 r); [|lia].
    pose proof (lookup_lt_Some _ _ _ Hlr) as Hlt.
    destruct (Z.ltb_spec r (Z.of_nat (length l))); [|lia]. cbn [andb].
    destruct (disk_write_in (disk fs) r empty_block Hq Hr) as (d1 & Hw & Himg & Hq1).
    rewrite Hw, (BLOCK_SIZE_not_failure HG). by exists d1.
  - cbn [app find_free_scan]. unfold bitmap_load. rewrite Hl.
    destruct (Hall i) as [Hi Hli]; [left|]. rewrite Hli.
    destruct (Z.leb_spec 0 i); [|lia].
    apply IH. intros j Hj. apply Hall. by right.
Qed.

End FirstFit.

Section FirstFitResult.
Context `{G : Geometry}.

(** X14: [fs_find_free] is first fit over the whole bitmap.  On a mounted
    structure whose bitmap has one entry for each block of a device whose
    writes succeed: when no entry is free it returns 0 and changes nothing;
    otherwise it returns the lowest number [r] whose entry is free (0 when
    that is entry 0), and it changes exactly that entry, to not-free, and
    exactly that block, to zero bytes. *)
Theorem fs_find_free_first_fit (fs : FileSystem) (l : list bool) :
  GeometryOk G -> quiet (disk fs) -> free_blocks fs = Some l ->
  blocks (meta_data fs) = Z.of_nat (length l) ->
  length l = length (image_of (disk fs)) ->
  ((forall k, 0 <= k < Z.of_nat (length l) -> l !! Z.to_nat k = Some false) ->
     fs_find_free fs = Ok (0, fs))
  /\ forall r, 0 <= r -> l !! Z.to_nat r = Some true ->
       (forall k, 0 <= k < r -> l !! Z.to_nat k = Some false) ->
       exists fs', fs_find_free fs = Ok (r, fs')
         /\ meta_data fs' = meta_data fs
         /\ free_blocks fs' = Some (<[Z.to_nat r := false]> l)
         /\ image_of (disk fs') = <[Z.to_nat r := empty_block]> (image_of (disk fs)).
Proof.
  intros HG Hq Hl Hblocks Hlen. unfold fs_find_free. rewrite Hblocks. split.
  - intros Hnone. apply (find_free_scan_none _ _ l Hl).
    intros i Hi. apply elem_of_seqZ in Hi. split; [lia|]. apply Hnone. lia.
  - intros r Hr Hlr Hbelow.
    pose proof (lookup_lt_Some _ _ _ Hlr) as Hlt.
    assert (Hsplit : seqZ 0 (Z.of_nat (length l))
                     = seqZ 0 r ++ r :: seqZ (r + 1) (Z.of_nat (length l) - r - 1)).
    { replace (Z.of_nat (length l)) with (r + (Z.of_nat (length l) - r)) at 1 by lia.
      rewrite seqZ_app by lia. f_equal. rewrite Z.add_0_l.
      rewrite seqZ_cons by lia. f_equal; f_equal; lia. }
    rewrite Hsplit.
    destruct (find_free_scan_first HG (seqZ 0 r)
                (seqZ (r + 1) (Z.of_nat (length l) - r - 1)) r fs l Hl Hq)
      as (d' & Hscan & Himg & _).
    + intros i Hi. apply elem_of_seqZ in Hi. split; [lia|]. apply Hbelow. lia.
    + lia.
    + done.
    + rewrite Hscan. eexists. split; [reflexivity|]. by cbn.
Qed.

End FirstFitResult.

(** ** Saving and loading an inode *)

Section SaveLoad.
Context `{G : Geometry}.

Lemma fmap_wrap32_small (ps : list Z) :
  Forall (fun p => 0 <= p < 2 ^ 32) ps -> wrap32 <$> ps = ps.
Proof.
  induction 1 as [|p ps Hp _ IH]; [done|]. cbn. rewrite IH. f_equal.
  unfold wrap32. by apply Z.mod_small.
Qed.

(** X15: an inode saved is the inode loaded.  On a device whose system
    calls succeed, [fs_save_inode] of a record with a set validity flag and
    32-bit fields into a slot inside the device returns [true];
    [fs_load_inode] of the same number then returns that record and
    [fs_stat] its size, and every other inode of the table is as it was. *)
Theorem fs_save_inode_then_load (fs : FileSystem) (n : Z) (node : Inode) :
  GeometryOk G -> 0 <= n -> quiet (disk fs) -> image_ok (disk fs) ->
  0 <= slot_block n < Z.of_nat (length (image_of (disk fs))) ->
  Z.of_nat (length (direct node)) = POINTERS_PER_INODE ->
  0 < valid node < 2 ^ 32 -> 0 <= size node < 2 ^ 32 ->
  0 <= indirect node < 2 ^ 32 ->
  Forall (fun p => 0 <= p < 2 ^ 32) (direct node) ->
  exists fs1 fs2,
    fs_save_inode fs n node = (true, fs1)
    /\ fs_load_inode fs1 n = (Some node, fs2)
    /\ (fs_stat fs1 n).1 = size node
    /\ forall m, 0 <= m -> m ≠ n ->
         inode_on_disk (disk fs1) m = inode_on_disk (disk fs) m.
Proof.
  intros HG Hn Hq Hok Hslot Hdir Hv Hsz Hind Hptrs.
  destruct (inode_on_disk_after_save HG fs n node Hn Hq Hok Hslot Hdir)
    as (fs1 & Hsave & _ & (_ & Hlen & _) & Hq1 & Hino & Hother).
  destruct (fs_save_inode_quiet HG fs n node Hq Hslot) as (fs1' & Hsave' & _ & _ & _ & Himg).
  rewrite Hsave in Hsave'. injection Hsave' as <-.
  assert (Hnode : inode_on_disk (disk fs1) n = node).
  { rewrite Hino. unfold wrap32. rewrite !Z.mod_small by lia.
    fold wrap32. rewrite fmap_wrap32_small by done. by destruct node. }
  destruct (fs_load_inode_valid HG fs1 n Hq1) as (fs2 & _ & Hload).
  { by rewrite Hlen. }
  { rewrite Hnode. lia. }
  rewrite Hnode in Hload.
  exists fs1, fs2. split; [done|]. split; [done|]. split.
  { unfold fs_stat. by rewrite Hload. }
  intros m Hm Hne. unfold inode_on_disk.
  destruct (decide (slot_block m = slot_block n)) as [Heq|Hneq].
  - rewrite (block_of_insert _ _ _ _ _ Himg Hslot) by (rewrite Heq; lia).
    rewrite decide_True by done. rewrite Heq.
    apply (get_inode_set_inode_ne HG).
    + apply (slot_index_range HG n Hn).
    + apply (slot_index_range HG m Hm).
    + intros Hidx. apply Hne.
      rewrite (number_of_slot m), (number_of_slot n). congruence.
  - rewrite Hother; [done| |done]. pose proof (slot_block_pos HG m Hm). lia.
Qed.

End SaveLoad.

(** ** Writing a block and reading it back *)

Section WriteRead.
Context `{G : Geometry} (HG : GeometryOk G).

(** A scan that returns a block number changed that entry and that block,
    and nothing else. *)
Lemma find_free_scan_image (ns : list Z) (fs : FileSystem) (r : Z) (fs' : FileSystem) :
  find_free_scan ns fs = Ok (r, fs') -> r ≠ 0 ->
  0 <= r < Z.of_nat (length (image_of (disk fs)))
  /\ image_of (disk fs') = <[Z.to_nat r := empty_block]> (image_of (disk fs))
  /\ exists l, free_blocks fs = Some l
       /\ free_blocks fs' = Some (<[Z.to_nat r := false]> l).
Proof.
  induction ns as [|i ns IH]; cbn [find_free_scan].
  - by intros [= <- <-].
  - destruct (bitmap_load (free_blocks fs) i) as [free|] eqn:Hload; [|done].
    apply bitmap_load_cases in Hload as (l & Hl & Hli & Hi).
    destruct free; [|exact IH].
    destruct (bitmap_store (free_blocks fs) i false) as [bm|] eqn:Hst; [|done].
    apply bitmap_store_cases in Hst as (l0 & Hl0 & -> & Hil).
    rewrite Hl in Hl0. injection Hl0 as <-.
    destruct (disk_write_cases (disk fs) i empty_block)
      as [(d1 & Hw & _)|(d1 & Hw & Himg & _ & _ & Hin)]; rewrite Hw.
    + rewrite Z.eqb_refl. by intros [= <- <-].
    + rewrite (BLOCK_SIZE_not_failure HG). intros [= <- <-] _.
      split; [done|]. split; [done|]. by exists l.
Qed.

(** The read-modify-write of one block on a device whose system calls
    succeed. *)
Lemma write_chunk_quiet (fs : FileSystem) (ptr : Z) (data : list Z)
    (len bw bp : Z) (uninit : Block) :
  quiet (disk fs) -> 0 <= ptr < Z.of_nat (length (image_of (disk fs))) ->
  block_ok (block_of (disk fs) ptr) ->
  0 <= bp < BLOCK_SIZE -> 0 <= bw <= len -> len <= Z.of_nat (length data) ->
  exists d',
    write_chunk fs ptr data len bw bp uninit
    = Ok (chunk_size len bw bp, set_disk fs d')
    /\ quiet d'
    /\ image_of d' =
         <[Z.to_nat ptr :=
             take (Z.to_nat (chunk_size len bw bp)) (drop (Z.to_nat bw) data)
             ++ drop (Z.to_nat (chunk_size len bw bp)) (block_of (disk fs) ptr)]>
           (image_of (disk fs)).
Proof.
  intros Hq Hptr Hblk Hbp Hbw Hlen. unfold write_chunk.
  destruct (disk_read_in (disk fs) ptr uninit Hq Hptr) as (d1 & Hr & Himg1 & Hq1).
  rewrite Hr. fold (chunk_size len bw bp).
  pose proof (chunk_size_range len bw bp Hbp Hbw) as Hcs.
  pose proof (chunk_size_le_block len bw bp) as Hcb.
  unfold memcpy. unfold block_ok in Hblk.
  rewrite (proj2 (Z.leb_le 0 (chunk_size len bw bp))) by lia.
  rewrite Z.leb_refl, (proj2 (Z.leb_le 0 bw)) by lia.
  rewrite Z.add_0_l.
  rewrite (proj2 (Z.leb_le (chunk_size len bw bp) _)) by lia.
  rewrite (proj2 (Z.leb_le (bw + chunk_size len bw bp) _)) by lia.
  cbn [andb]. change (Z.to_nat 0) with 0%nat. rewrite take_0. cbn [app].
  destruct (disk_write_in d1 ptr
              (take (Z.to_nat (chunk_size len bw bp)) (drop (Z.to_nat bw) data)
               ++ drop (Z.to_nat (chunk_size len bw bp)) (block_of (disk fs) ptr)) Hq1)
    as (d2 & Hw & Himg2 & Hq2); [by rewrite Himg1|].
  rewrite Hw. exists d2. split; [done|]. split; [done|]. by rewrite Himg2, Himg1.
Qed.

Lemma no_free_block_same (fs fs' : FileSystem) :
  free_blocks fs' = free_blocks fs -> no_free_block fs' -> no_free_block fs.
Proof.
  intros Hfree Hno k Hk. specialize (Hno k Hk). unfold bitmap_entry in *.
  by rewrite <- Hfree.
Qed.

Lemma direct_at_set_direct (inode : Inode) (p : Z) :
  (0 < length (direct inode))%nat -> direct_at (set_direct inode 0 p) 0 = p.
Proof.
  intros Hlen. unfold direct_at, set_direct. cbn [direct].
  change (Z.to_nat 0) with 0%nat. by rewrite list_lookup_insert_eq by done.
Qed.

(** A write of at most one block to the start of a file that has none, on
    a device with a free block. *)
Lemma fs_write_first_block (fs : FileSystem) (n : Z) (data : list Z) (len : Z)
    (uninit : Block) :
  bitmap_inv fs -> quiet (disk fs) -> image_ok (disk fs) ->
  blocks (meta_data fs) < 2 ^ 32 ->
  0 <= n < inode_blocks (meta_data fs) * INODES_PER_BLOCK ->
  valid (inode_on_disk (disk fs) n) ≠ 0 ->
  size (inode_on_disk (disk fs) n) = 0 ->
  direct_at (inode_on_disk (disk fs) n) 0 = 0 ->
  0 < len <= BLOCK_SIZE -> len <= Z.of_nat (length data) ->
  ~ no_free_block fs ->
  exists r fs',
    fs_write fs n data len 0 uninit = Ok (len, fs')
    /\ inode_blocks (meta_data fs) < r < blocks (meta_data fs)
    /\ bitmap_entry fs r = Some true
    /\ quiet (disk fs') /\ meta_data fs' = meta_data fs
    /\ is_Some (free_blocks fs')
    /\ length (image_of (disk fs')) = length (image_of (disk fs))
    /\ valid (inode_on_disk (disk fs') n) ≠ 0
    /\ size (inode_on_disk (disk fs') n) = len
    /\ direct_at (inode_on_disk (disk fs') n) 0 = r
    /\ block_of (disk fs') r
       = take (Z.to_nat len) data ++ replicate (Z.to_nat (BLOCK_SIZE - len)) 0.
Proof.
  intros Hinv Hq Hok Hsmall Hn Hv Hsize Hd0 Hlen Hdata Hfree.
  pose proof (ok_super_fits G HG) as Hbs.
  pose proof (ok_pointers_per_inode G HG) as Hppi.
  pose proof (ok_inodes_per_block G HG) as Hipb.
  pose proof (ok_block_size_int G HG) as Hint.
  destruct Hinv as (Hres & Hblocks & Hib).
  assert (Hslot : 0 <= slot_block n <= inode_blocks (meta_data fs)).
  { unfold slot_block. pose proof (Z.div_pos n INODES_PER_BLOCK ltac:(lia) Hipb).
    assert (n / INODES_PER_BLOCK < inode_blocks (meta_data fs))
      by (apply Z.div_lt_upper_bound; lia).
    lia. }
  destruct Hres as (l & Hl & Hll & Hmarked).
  assert (Hibn : inode_blocks (meta_data fs) < blocks (meta_data fs)).
  { destruct (Z.lt_ge_cases (inode_blocks (meta_data fs)) (blocks (meta_data fs)));
      [done|].
    exfalso. apply Hfree. intros k Hk. unfold bitmap_entry. rewrite Hl.
    destruct (decide (k < blocks (meta_data fs))) as [Hlt|Hge].
    - rewrite Hmarked by lia. done.
    - rewrite lookup_ge_None_2 by lia. done. }
  assert (Hslot' : 0 <= slot_block n < Z.of_nat (length (image_of (disk fs)))) by lia.
  unfold fs_write.
  destruct (fs_load_inode_valid HG fs n Hq Hslot' Hv) as (fs1 & Hro & ->).
  pose proof Hro as (Himg1 & Hmeta1 & Hfree1 & Hq1 & _).
  specialize (Hq1 Hq).
  set (inode := inode_on_disk (disk fs) n) in *.
  rewrite Z.div_0_l, Z.mod_0_l by lia.
  destruct (Z.ltb_spec 0 POINTERS_PER_INODE); [|lia].
  rewrite Z.sub_0_r, seqZ_cons by lia.
  cbn [write_direct w_inode w_fs w_bytes_written w_block_pos].
  rewrite Hd0, Z.eqb_refl.
  assert (Hinv1 : bitmap_inv fs1).
  { apply (bitmap_inv_reads_only fs); [|done].
    split; [by exists l|]. by split. }
  destruct (fs_find_free_reserved HG fs1 Hinv1) as (r & fs2 & Hff & Hr & Hnz & Hzero).
  rewrite Hff.
  assert (Hr0 : r ≠ 0).
  { intros ->. apply Hfree. apply (no_free_block_same fs fs1); [done|].
    by apply (Hzero Hq1). }
  destruct Hr as [->|Hr]; [done|]. rewrite Hmeta1 in Hr.
  destruct (Hnz Hr0) as (Hentry & _ & _).
  pose proof (fs_find_free_frame HG _ _ _ Hff) as (Hmeta2 & Hlen2 & Hq2 & _ & Hmarks2).
  specialize (Hq2 Hq1).
  unfold fs_find_free in Hff.
  destruct (find_free_scan_image _ _ _ _ Hff Hr0) as (Hrin & Himg2 & l1 & Hl1 & Hl2).
  destruct (Z.eqb_spec r 0) as [|_]; [done|]. cbn [negb].
  assert (Hwr : wrap32 r = r) by (unfold wrap32; apply Z.mod_small; lia).
  rewrite Hwr.
  assert (Hdlen : Z.of_nat (length (direct inode)) = POINTERS_PER_INODE).
  { apply length_direct_get_inode. lia. }
  rewrite direct_at_set_direct by lia.
  assert (Hblk2 : block_of (disk fs2) r = empty_block).
  { rewrite (block_of_insert _ _ _ _ _ Himg2 Hrin) by lia. by rewrite decide_True. }
  assert (Hok2 : image_ok (disk fs2)).
  { eapply image_ok_insert; [exact Himg2|apply (block_ok_empty_block HG)|].
    unfold image_ok. by rewrite Himg1. }
  destruct (write_chunk_quiet fs2 r data len 0 0 uninit Hq2) as (d3 & Hwc & Hq3 & Himg3).
  { by rewrite Hlen2. }
  { rewrite Hblk2. apply (block_ok_empty_block HG). }
  { lia. }
  { lia. }
  { done. }
  assert (Hcs : chunk_size len 0 0 = len).
  { unfold chunk_size. destruct (Z.leb_spec (BLOCK_SIZE - 0) (len - 0)); lia. }
  rewrite Hcs in Hwc, Himg3. rewrite Hwc.
  rewrite Z.add_0_l, Z.eqb_refl.
  cbn [w_inode w_fs w_bytes_written w_block_pos size set_direct].
  fold (set_direct inode 0 r).
  set (inode2 := set_size (set_direct inode 0 r) (wrap32 (size inode + len))).
  set (fs3 := set_disk fs2 d3).
  assert (Hstaged : block_of (disk fs3) r
                    = take (Z.to_nat len) data ++ replicate (Z.to_nat (BLOCK_SIZE - len)) 0).
  { unfold fs3. fs_simpl.
    rewrite (block_of_insert _ _ _ _ _ Himg3) by lia.
    rewrite decide_True by done. change (Z.to_nat 0) with 0%nat.
    rewrite drop_0, Hblk2. unfold empty_block. rewrite drop_replicate.
    do 2 f_equal. lia. }
  assert (Hlen3 : length (image_of (disk fs3)) = length (image_of (disk fs))).
  { unfold fs3. fs_simpl. rewrite Himg3, length_insert. congruence. }
  assert (Hok3 : image_ok (disk fs3)).
  { unfold fs3. fs_simpl. eapply image_ok_insert; [exact Himg3| |exact Hok2].
    unfold block_ok. rewrite Hblk2. change (Z.to_nat 0) with 0%nat.
    rewrite drop_0, length_app, length_take, length_drop. unfold empty_block.
    rewrite length_replicate. lia. }
  destruct (inode_on_disk_after_save HG fs3 n inode2) as
    (fs4 & Hsave & Hfree4 & (Hmeta4 & Hlen4 & _) & Hq4 & Hino4 & Hother4).
  { lia. }
  { done. }
  { done. }
  { rewrite Hlen3. lia. }
  { unfold inode2, set_size, set_direct. cbn [direct].
    by rewrite length_insert. }
  rewrite Hsave. cbn [snd].
  exists r, fs4. split; [done|].
  split; [done|]. split.
  { unfold bitmap_entry in *. by rewrite <- Hfree1. }
  split; [done|]. split.
  { rewrite Hmeta4. unfold fs3. fs_simpl. congruence. }
  split.
  { rewrite Hfree4. unfold fs3. fs_simpl. rewrite Hl2. by eexists. }
  split; [congruence|].
  rewrite Hino4. unfold inode2, set_size, set_direct.
  cbn [valid size direct indirect].
  split.
  { unfold inode, inode_on_disk, get_inode. cbn [valid].
    rewrite wrap32_get_u32. exact Hv. }
  split.
  { rewrite Hsize, Z.add_0_l. unfold wrap32.
    rewrite (Z.mod_small len) by lia. apply Z.mod_small. lia. }
  split.
  { unfold direct_at. cbn [direct]. change (Z.to_nat 0) with 0%nat.
    rewrite list_lookup_fmap, list_lookup_insert_eq by lia. cbn. exact Hwr. }
  rewrite Hother4 by lia. exact Hstaged.
Qed.

End WriteRead.

Section WriteReadResult.
Context `{G : Geometry}.

(** X16: what is written is read back, for one block at offset 0.  On a
    mounted device whose system calls succeed and that has a free block, for
    a valid inode of the table with size 0 and no first block: [fs_write]
    of [len] bytes, at most a block, at offset 0 returns [len] and takes the
    block [fs_find_free] finds, past the inode table; [fs_stat] then returns
    [len], and [fs_read] at offset 0 returns [len] with the bytes written at
    the start of the buffer and the rest of the buffer as it was. *)
Theorem fs_write_then_read_first_block (fs : FileSystem) (n : Z)
    (data buf : list Z) (len asked : Z) (uninit : Block) :
  GeometryOk G ->
  bitmap_inv fs -> quiet (disk fs) -> image_ok (disk fs) ->
  blocks (meta_data fs) < 2 ^ 32 ->
  inode_blocks (meta_data fs) * INODES_PER_BLOCK < 2 ^ 32 ->
  0 <= n < inode_blocks (meta_data fs) * INODES_PER_BLOCK ->
  valid (inode_on_disk (disk fs) n) ≠ 0 ->
  size (inode_on_disk (disk fs) n) = 0 ->
  direct_at (inode_on_disk (disk fs) n) 0 = 0 ->
  0 < len <= BLOCK_SIZE -> len <= Z.of_nat (length data) ->
  len <= Z.of_nat (length buf) ->
  ~ no_free_block fs ->
  exists fs1 fs2,
    fs_write fs n data len 0 uninit = Ok (len, fs1)
    /\ (fs_stat fs1 n).1 = len
    /\ inode_blocks (meta_data fs)
         < direct_at (inode_on_disk (disk fs1) n) 0 < blocks (meta_data fs)
    /\ fs_read fs1 n buf asked 0
       = Ok (len, fs2, take (Z.to_nat len) data ++ drop (Z.to_nat len) buf).
Proof.
  intros HG Hinv Hq Hok Hsmall Hcap Hn Hv Hsize Hd0 Hlen Hdata Hbuf Hfree.
  pose proof (ok_super_fits G HG) as Hbs.
  pose proof (ok_pointers_per_inode G HG) as Hppi.
  pose proof (ok_inodes_per_block G HG) as Hipb.
  pose proof (ok_block_size_int G HG) as Hint.
  destruct (fs_write_first_block HG fs n data len uninit)
    as (r & fs1 & Hw & Hr & _ & Hq1 & Hmeta1 & Hbm1 & Hlen1 & Hv1 & Hsz1 & Hd1 & Hblk);
    try done.
  destruct Hinv as (_ & Hblocks & Hib).
  assert (Hslot : 0 <= slot_block n < Z.of_nat (length (image_of (disk fs1)))).
  { unfold slot_block. pose proof (Z.div_pos n INODES_PER_BLOCK ltac:(lia) Hipb).
    assert (n / INODES_PER_BLOCK < inode_blocks (meta_data fs))
      by (apply Z.div_lt_upper_bound; lia).
    lia. }
  assert (Hmin : Z.min BLOCK_SIZE (wrap64 (size (inode_on_disk (disk fs1) n) - 0)) = len).
  { rewrite Hsz1, Z.sub_0_r. unfold wrap64. rewrite Z.mod_small; lia. }
  assert (Hdiv : 0 / BLOCK_SIZE = 0) by (apply Z.div_0_l; lia).
  assert (Hmod : 0 mod BLOCK_SIZE = 0) by (apply Z.mod_0_l; lia).
  assert (Hn1 : 0 <= n < wrap32 (inode_blocks (meta_data fs1) * INODES_PER_BLOCK)).
  { rewrite Hmeta1. unfold wrap32. rewrite Z.mod_small; lia. }
  assert (Hp1 : 0 <= direct_at (inode_on_disk (disk fs1) n) (0 / BLOCK_SIZE)
                < Z.of_nat (length (image_of (disk fs1)))).
  { rewrite Hdiv, Hd1. lia. }
  assert (Hfit : 0 mod BLOCK_SIZE
            + Z.min BLOCK_SIZE (wrap64 (size (inode_on_disk (disk fs1) n) - 0))
            <= Z.of_nat (length (block_of (disk fs1)
                 (direct_at (inode_on_disk (disk fs1) n) (0 / BLOCK_SIZE))))).
  { rewrite Hdiv, Hmod, Hmin, Hd1, Hblk.
    rewrite length_app, length_take, length_replicate. lia. }
  destruct (fs_read_direct HG fs1 n buf asked 0 Hq1 Hbm1 Hn1 Hslot Hv1
              ltac:(lia) ltac:(lia) Hp1 Hfit ltac:(lia)) as (fs2 & Hrd & _).
  exists fs1, fs2. split; [done|]. split.
  { unfold fs_stat.
    destruct (fs_load_inode_valid HG fs1 n Hq1 Hslot Hv1) as (fs3 & _ & ->). done. }
  split; [by rewrite Hd1|].
  rewrite Hrd, Hmin. do 3 f_equal.
  rewrite Hdiv, Hmod, Hd1, Hblk.
  change (Z.to_nat 0) with 0%nat. rewrite drop_0.
  rewrite take_app_le by (rewrite length_take; lia).
  by rewrite take_take, Nat.min_id.
Qed.

End WriteReadResult.

(** ** [fs_remove]: the blocks it releases and the blocks it leaves *)

Section RemoveLaws.
Context `{G : Geometry}.

(** X17: a successful [fs_remove] releases exactly the blocks the inode
    refers to.  For an inode whose indirect block is not also one of its
    direct blocks and that does not refer to the table block of its own
    slot: every nonzero block number it refers to (direct, indirect, or
    inside the indirect block) is zeroed and marked free; every other block
    but the table block of the slot, and every other entry of the bitmap,
    is as it was. *)
Theorem fs_remove_releases_blocks (fs : FileSystem) (n : Z) (fs' : FileSystem) :
  GeometryOk G -> 0 <= n ->
  fs_remove fs n = Ok (true, fs') ->
  (indirect (inode_on_disk (disk fs) n) ≠ 0 ->
     indirect (inode_on_disk (disk fs) n) ∉ direct (inode_on_disk (disk fs) n)) ->
  slot_block n ∉ referenced (disk fs) (inode_on_disk (disk fs) n) ->
  (forall p, p ∈ referenced (disk fs) (inode_on_disk (disk fs) n) -> p ≠ 0 ->
     block_of (disk fs') p = empty_block /\ bitmap_entry fs' p = Some true)
  /\ (forall k, 0 <= k -> k = 0 \/ k ∉ referenced (disk fs) (inode_on_disk (disk fs) n) ->
        (k ≠ slot_block n -> block_of (disk fs') k = block_of (disk fs) k)
        /\ bitmap_entry fs' k = bitmap_entry fs k).
Proof.
  intros HG Hn Hrm Hsane Hown.
  destruct (fs_remove_bitmap HG fs n true fs' Hrm) as (_ & _ & _ & Hentries).
  destruct (fs_remove_true_inv HG fs n fs' Hrm)
    as (fs1 & fs2 & fs3 & Hro & Hl & Hv & Hin & Hrb & Hri & ->).
  set (inode := inode_on_disk (disk fs) n) in *.
  destruct Hro as (Himg1 & _ & Hfree1 & _).
  destruct (release_blocks_effect HG _ _ _ _ Hrb) as [Hrel2 Hall2].
  destruct (release_indirect_effect HG _ _ _ _ Hri) as [Hrel3 Hall3].
  pose proof Hrel2 as (_ & _ & Hb2 & He2).
  pose proof Hrel3 as (_ & _ & Hb3 & He3).
  assert (Hind : indirect_refs (disk fs2) inode = indirect_refs (disk fs) inode).
  { unfold indirect_refs. destruct (Z.eqb_spec (indirect inode) 0) as [|Hnz]; [done|].
    f_equal. f_equal. rewrite <- (block_of_same _ _ (indirect inode) Himg1).
    destruct (Hb2 (indirect inode)) as [Heq|(Hmem & _)]; [|done|].
    - apply get_u32_range.
    - exfalso. by apply Hsane. }
  rewrite Hind in *.
  (* the final save touches the table block of the slot only *)
  assert (Hsave : free_blocks (fs_save_inode fs3 n iblank).2 = free_blocks fs3
    /\ forall k, 0 <= k -> k ≠ slot_block n ->
         block_of (disk (fs_save_inode fs3 n iblank).2) k = block_of (disk fs3) k).
  { destruct (fs_save_inode_cases HG fs3 n iblank)
      as (fs4 & Hfree4 & _ & _ & _ & [[-> Himg4]|[-> [Himg4 Hin4]]]); cbn [snd].
    - split; [done|]. intros k _ _. by apply block_of_same.
    - split; [done|]. intros k Hk Hne.
      rewrite (block_of_insert _ _ _ _ _ Himg4 Hin4) by done.
      by rewrite decide_False. }
  destruct Hsave as [Hfree4 Hblk4].
  split.
  - intros p Hp Hp0.
    pose proof (referenced_nonneg _ _ _ _ Hp) as Hpos.
    assert (Hps : p ≠ slot_block n) by (intros ->; by apply Hown).
    unfold bitmap_entry. rewrite Hfree4. fold (bitmap_entry fs3 p).
    rewrite Hblk4 by done.
    unfold referenced in Hp. rewrite elem_of_app in Hp.
    destruct Hp as [Hd|Hi].
    + destruct (Hall2 eq_refl p Hd Hp0) as [Hblk Hent]. split.
      * destruct (Hb3 p Hpos) as [->|(_ & _ & ?)]; done.
      * destruct (He3 p Hpos) as [->|(_ & _ & ?)]; done.
    + by apply Hall3.
  - intros k Hk Hnot. split.
    + intros Hne. rewrite Hblk4 by done.
      destruct (Hb3 k Hk) as [->|(Hmem & Hk0 & _)].
      * destruct (Hb2 k Hk) as [->|(Hmem & Hk0 & _)].
        { by apply block_of_same. }
        { exfalso. destruct Hnot as [->|Hnot]; [done|].
          apply Hnot. unfold referenced. rewrite elem_of_app. by left. }
      * exfalso. destruct Hnot as [->|Hnot]; [done|].
        apply Hnot. unfold referenced. rewrite elem_of_app. by right.
    + destruct (Hentries k Hk) as [Heq|(_ & Hmem & Hk0 & _)]; [done|].
      exfalso. destruct Hnot as [->|Hnot]; [done|]. by apply Hnot.
Qed.

End RemoveLaws.

(** ** Creating, removing and creating again *)

Section CreateRemove.
Context `{G : Geometry} (HG : GeometryOk G).

(** [fs_create] on a device whose system calls succeed, with what it keeps. *)
Lemma fs_create_spec (fs : FileSystem) :
  quiet (disk fs) -> image_ok (disk fs) ->
  0 <= inode_blocks (meta_data fs) < Z.of_nat (length (image_of (disk fs))) ->
  exists r fs', fs_create fs = (r, fs') /\ free_blocks fs' = free_blocks fs
    /\ meta_data fs' = meta_data fs /\ quiet (disk fs') /\ image_ok (disk fs')
    /\ length (image_of (disk fs')) = length (image_of (disk fs))
    /\ ((r = -1
         /\ forall n, 0 <= n < inode_blocks (meta_data fs) * INODES_PER_BLOCK ->
              valid (inode_on_disk (disk fs) n) ≠ 0)
        \/ (0 <= r < inode_blocks (meta_data fs) * INODES_PER_BLOCK
            /\ valid (inode_on_disk (disk fs) r) = 0
            /\ (forall n, 0 <= n < r -> valid (inode_on_disk (disk fs) n) ≠ 0)
            /\ inode_on_disk (disk fs') r =
                 {| valid := 1; size := size (inode_on_disk (disk fs) r);
                    direct := direct (inode_on_disk (disk fs) r);
                    indirect := indirect (inode_on_disk (disk fs) r) |}
            /\ (forall n, 0 <= n -> n ≠ r ->
                  inode_on_disk (disk fs') n = inode_on_disk (disk fs) n)
            /\ (forall k, 0 <= k -> k ≠ slot_block r ->
                  block_of (disk fs') k = block_of (disk fs) k))).
Proof.
  intros Hq Hok Hib. unfold fs_create.
  pose proof (ok_inodes_per_block G HG) as Hipb.
  destruct (create_blocks_spec HG (Z.to_nat (inode_blocks (meta_data fs))) 1
              empty_block (disk fs) Hq ltac:(lia) ltac:(lia))
    as (d' & Heq & Hq' & Hcases).
  rewrite Z2Nat.id in * by lia. rewrite Heq.
  set (r := (create_blocks _ _ _).1) in *.
  exists r, (set_disk fs d'). split; [done|]. split; [done|]. split; [done|].
  split; [done|]. cbn [set_disk disk]. cbv zeta in Hcases.
  destruct Hcases as [(Hr & Himg & Hall)|(i & j & Hi & Hj & Hr & Hvj & Hbefore & Himg)].
  - split; [unfold image_ok; by rewrite Himg|]. split; [by rewrite Himg|].
    left. split; [done|]. intros n Hn. unfold inode_on_disk.
    apply Hall; [|by apply (slot_index_range HG); lia].
    pose proof (slot_block_pos HG n ltac:(lia)). unfold slot_block in *.
    assert (n / INODES_PER_BLOCK < inode_blocks (meta_data fs))
      by (apply Z.div_lt_upper_bound; lia). lia.
  - destruct (slot_of_number i j Hj) as [Hsb Hsi]. rewrite <- Hr in Hsb, Hsi.
    assert (Hrange : 0 <= r < inode_blocks (meta_data fs) * INODES_PER_BLOCK) by nia.
    assert (Hiin : 0 <= i < Z.of_nat (length (image_of (disk fs)))) by lia.
    assert (Hblk : block_ok (block_of (disk fs) i)) by by apply image_ok_block_of.
    split.
    { eapply image_ok_insert; [exact Himg| |exact Hok]. by apply block_ok_set_u32. }
    split; [by rewrite Himg, length_insert|].
    right. split; [done|]. split; [by unfold inode_on_disk; rewrite Hsb, Hsi|].
    split; [|split; [|split]].
    + intros n Hn. unfold inode_on_disk.
      pose proof (slot_index_range HG n ltac:(lia)) as Hsin.
      pose proof (slot_block_pos HG n ltac:(lia)) as Hsbn.
      pose proof (number_of_slot n) as Hnum.
      apply Hbefore; [done|].
      destruct (decide (slot_block n = i)) as [Heq'|Hne]; [right|left]; nia.
    + unfold inode_on_disk. rewrite Hsb, Hsi.
      rewrite (block_of_insert _ _ _ _ _ Himg Hiin) by lia.
      rewrite decide_True by done.
      apply (get_inode_set_valid_eq HG); [lia|]. by apply (slot_fits HG).
    + intros n Hn Hne. unfold inode_on_disk.
      pose proof (slot_index_range HG n Hn) as Hsin.
      pose proof (slot_block_pos HG n Hn) as Hsbn.
      rewrite (block_of_insert _ _ _ _ _ Himg Hiin) by lia.
      destruct (decide (slot_block n = i)) as [Heq'|Hne']; [|done].
      rewrite Heq'. apply (get_inode_set_valid_ne HG); [lia|lia|].
      intros Hji. apply Hne. rewrite (number_of_slot n), Hr, Heq'. lia.
    + intros k Hk Hne. rewrite (block_of_insert _ _ _ _ _ Himg Hiin) by lia.
      rewrite decide_False; [done|]. by rewrite <- Hsb.
Qed.

Lemma release_blocks_zeros (ptrs : list Z) (fs : FileSystem) :
  Forall (fun p => p = 0) ptrs -> release_blocks ptrs fs = Ok (true, fs).
Proof.
  induction 1 as [|p ptrs -> _ IH]; [done|]. cbn [release_blocks].
  by rewrite Z.eqb_refl.
Qed.

(** After [fs_save_inode] every other inode is as it was. *)
Lemma fs_save_inode_others (fs : FileSystem) (n : Z) (node : Inode) (fs1 : FileSystem) :
  0 <= n -> fs_save_inode fs n node = (true, fs1) ->
  forall m, 0 <= m -> m ≠ n ->
    inode_on_disk (disk fs1) m = inode_on_disk (disk fs) m.
Proof.
  intros Hn Hsave m Hm Hne.
  destruct (fs_save_inode_cases HG fs n node)
    as (fs1' & _ & _ & _ & _ & [[Hs _]|[Hs [Himg Hin]]]);
    rewrite Hsave in Hs; [done|]. injection Hs as <-.
  unfold inode_on_disk.
  pose proof (slot_block_pos HG m Hm) as Hsb.
  rewrite (block_of_insert _ _ _ _ _ Himg Hin) by lia.
  destruct (decide (slot_block m = slot_block n)) as [Heq|Hneq]; [|done].
  rewrite Heq. apply (get_inode_set_inode_ne HG).
  - apply (slot_index_range HG n Hn).
  - apply (slot_index_range HG m Hm).
  - intros Hidx. apply Hne.
    rewrite (number_of_slot m), (number_of_slot n). congruence.
Qed.

End CreateRemove.

Section CreateRemoveResult.
Context `{G : Geometry}.

(** X18: a number removed is the number created next.  On a device whose
    system calls succeed, when [fs_create] hands out the number [r] of a
    slot whose stored pointers are zero, [fs_remove] of [r] succeeds,
    leaves the slot all zero, every other inode, every block outside the
    table block of the slot and the whole bitmap as they were before the
    [fs_create], and the next [fs_create] returns [r] again. *)
Theorem fs_create_remove_create (fs : FileSystem) :
  GeometryOk G -> quiet (disk fs) -> image_ok (disk fs) ->
  0 <= inode_blocks (meta_data fs) < Z.of_nat (length (image_of (disk fs))) ->
  (fs_create fs).1 ≠ -1 ->
  Forall (fun p => p = 0) (direct (inode_on_disk (disk fs) (fs_create fs).1)) ->
  indirect (inode_on_disk (disk fs) (fs_create fs).1) = 0 ->
  exists fs2,
    fs_remove (fs_create fs).2 (fs_create fs).1 = Ok (true, fs2)
    /\ inode_on_disk (disk fs2) (fs_create fs).1 = iblank
    /\ (forall m, 0 <= m -> m ≠ (fs_create fs).1 ->
          inode_on_disk (disk fs2) m = inode_on_disk (disk fs) m)
    /\ (forall k, 0 <= k -> k ≠ slot_block (fs_create fs).1 ->
          block_of (disk fs2) k = block_of (disk fs) k)
    /\ free_blocks fs2 = free_blocks fs
    /\ (fs_create fs2).1 = (fs_create fs).1.
Proof.
  intros HG Hq Hok Hib Hr Hdir Hind.
  pose proof (ok_inodes_per_block G HG) as Hipb.
  destruct (fs_create_spec HG fs Hq Hok Hib)
    as (r & fs1 & Hc & Hfree1 & Hmeta1 & Hq1 & Hok1 & Hlen1 & Hcases).
  rewrite Hc in *. cbn [fst snd] in *.
  destruct Hcases as [[-> _]|(Hrange & Hv0 & Hbefore & Hnew & Hothers & Hblocks)];
    [done|].
  assert (Hslot : 0 <= slot_block r < Z.of_nat (length (image_of (disk fs1)))).
  { pose proof (slot_block_pos HG r ltac:(lia)). unfold slot_block in *.
    assert (r / INODES_PER_BLOCK < inode_blocks (meta_data fs))
      by (apply Z.div_lt_upper_bound; lia). lia. }
  unfold fs_remove.
  destruct (fs_load_inode_valid HG fs1 r Hq1 Hslot) as (fs1' & Hro & Hl);
    [by rewrite Hnew|].
  rewrite Hl, Hnew. cbn [direct indirect].
  rewrite release_blocks_zeros by done. cbn [negb].
  unfold release_indirect. cbn [indirect]. rewrite Hind, Z.eqb_refl. cbn [negb].
  destruct Hro as (Himg1' & Hmeta1' & Hfree1' & Hq1' & _).
  destruct (inode_on_disk_after_save HG fs1' r iblank)
    as (fs2 & Hsave & Hfree2 & (Hmeta2 & Hlen2 & _ & Hok2 & _) & Hq2 & Hino2 & Hblk2).
  { lia. }
  { tauto. }
  { unfold image_ok. by rewrite Himg1'. }
  { by rewrite Himg1'. }
  { unfold iblank. cbn [direct]. rewrite length_replicate.
    pose proof (ok_pointers_per_inode G HG). lia. }
  rewrite Hsave. cbn [snd]. exists fs2. split; [done|].
  rewrite iblank_read_back in Hino2.
  assert (Hothers2 : forall m, 0 <= m -> m ≠ r ->
            inode_on_disk (disk fs2) m = inode_on_disk (disk fs) m).
  { intros m Hm Hne.
    rewrite (fs_save_inode_others HG fs1' r iblank fs2 ltac:(lia) Hsave m Hm Hne).
    unfold inode_on_disk. rewrite (block_of_same _ _ _ Himg1').
    by apply Hothers. }
  split; [done|]. split; [done|]. split.
  { intros k Hk Hne. rewrite Hblk2 by done.
    rewrite (block_of_same _ _ _ Himg1'). by apply Hblocks. }
  split; [congruence|].
  (* the next create *)
  destruct (fs_create_spec HG fs2) as (r2 & fs3 & Hc2 & _ & _ & _ & _ & _ & Hcases2).
  { done. }
  { apply Hok2. unfold image_ok. by rewrite Himg1'. }
  { rewrite Hmeta2, Hmeta1', Hmeta1, Hlen2, Himg1', Hlen1. done. }
  rewrite Hc2. cbn [fst].
  rewrite Hmeta2, Hmeta1', Hmeta1 in Hcases2.
  destruct Hcases2 as [[_ Hall]|(Hrange2 & Hv2 & Hbefore2 & _)].
  - exfalso. apply (Hall r Hrange). by rewrite Hino2.
  - destruct (Z.lt_trichotomy r2 r) as [Hlt|[Heq|Hgt]]; [|done|].
    + exfalso. apply (Hbefore r2 ltac:(lia)).
      rewrite <- Hothers2 by lia. done.
    + exfalso. apply (Hbefore2 r ltac:(lia)). by rewrite Hino2.
Qed.

End CreateRemoveResult.

(** ** [fs_write]: what it leaves *)

Section WriteLaws.
Context `{G : Geometry}.

(** X19: [fs_write] releases nothing and resizes nothing: the cached super
    block and the number of blocks stay, and no entry of the bitmap becomes
    free.  It returns -1 exactly when the inode cannot be loaded, and then
    the image and the bitmap are as they were; otherwise it returns a count
    between 0 and the length asked for. *)
Theorem fs_write_keeps (fs : FileSystem) (n : Z) (data : list Z) (len offset : Z)
    (uninit : Block) (r : Z) (fs' : FileSystem) :
  GeometryOk G -> 0 <= len -> 0 <= offset ->
  fs_write fs n data len offset uninit = Ok (r, fs') ->
  meta_data fs' = meta_data fs
  /\ length (image_of (disk fs')) = length (image_of (disk fs))
  /\ bitmap_marks (free_blocks fs) (free_blocks fs')
  /\ ((r = -1 /\ (fs_load_inode fs n).1 = None
       /\ image_of (disk fs') = image_of (disk fs)
       /\ free_blocks fs' = free_blocks fs)
      \/ (0 <= r <= len /\ valid (inode_on_disk (disk fs) n) ≠ 0)).
Proof.
  intros HG Hlen Hoff Hw.
  destruct (fs_write_frame HG _ _ _ _ _ _ _ _ Hw) as (Hmeta & Himg & _ & _ & Hmarks).
  split; [done|]. split; [done|]. split; [done|].
  pose proof (ok_super_fits G HG) as Hbs.
  destruct (fs_write_inv HG _ _ _ _ _ _ _ _ Hw)
    as [[-> Hl]|(inode & fs1 & st2 & Hl & Hprog & -> & _)].
  - left. split; [done|]. rewrite Hl. split; [done|].
    destruct (fs_load_inode_cases HG fs n) as (fs1 & Hro & [Hl'|[Hl' _]]);
      rewrite Hl in Hl'; [|done].
    injection Hl' as <-. by destruct Hro as (? & _ & ? & _).
  - right. destruct Hprog as (_ & _ & _ & _ & Hbounds).
    cbn [w_block_pos w_bytes_written] in Hbounds.
    assert (Hpos : 0 < BLOCK_SIZE) by lia.
    pose proof (Z.mod_pos_bound offset BLOCK_SIZE Hpos) as Hbp.
    assert (Hzero : 0 <= 0 <= len) by lia.
    destruct (Hbounds Hbp Hzero) as [_ Hr]. split; [lia|].
    destruct (fs_load_inode_cases HG fs n) as (fs1' & _ & [Hl'|(Hl' & Hv & _)]);
      rewrite Hl in Hl'; done.
Qed.

End WriteLaws.

(** ** [fs_debug] *)

Section DebugLaws.
Context `{G : Geometry} (HG : GeometryOk G).

Lemma debug_inode_image (i j : Z) (inode : Inode) (d : option Disk) (uninit : Block)
    (go : bool) (out : list string) (d' : option Disk) :
  debug_inode i j inode d uninit = Ok (go, out, d') ->
  image_of d' = image_of d /\ (quiet d -> quiet d').
Proof.
  unfold debug_inode. destruct (valid inode =? 0); [by intros [= _ _ <-]|].
  destruct (checked_int _) as [base|]; [|done].
  destruct (checked_int _) as [number|]; [|done].
  destruct (indirect inode =? 0); [by intros [= _ _ <-]|].
  destruct (disk_read_cases d (indirect inode) uninit)
    as [(d1 & Hr & Himg & _ & Hq)|(d1 & Hr & Himg & _ & Hq & _)]; rewrite Hr.
  - rewrite Z.eqb_refl. by intros [= _ _ <-].
  - rewrite (BLOCK_SIZE_not_failure HG).
    destruct (debug_entries _ _); [|done]. by intros [= _ _ <-].
Qed.

Lemma debug_slots_image (js : list Z) (i : Z) (iblock : Block) (d : option Disk)
    (uninit : Block) (go : bool) (out : list string) (d' : option Disk) :
  debug_slots js i iblock d uninit = Ok (go, out, d') ->
  image_of d' = image_of d /\ (quiet d -> quiet d').
Proof.
  revert d go out d'. induction js as [|j js IH]; intros d go out d'; cbn [debug_slots].
  - by intros [= _ _ <-].
  - destruct (inode_slot iblock j) as [inode|]; [|done].
    destruct (debug_inode i j inode d uninit) as [[[go1 out1] d1]|] eqn:Hi; [|done].
    apply debug_inode_image in Hi as [Himg1 Hq1].
    destruct go1; [|intros [= _ _ <-]; by split].
    destruct (debug_slots js i iblock d1 uninit) as [[[go2 out2] d2]|] eqn:Hs; [|done].
    apply IH in Hs as [Himg2 Hq2]. intros [= _ _ <-].
    split; [congruence|tauto].
Qed.

Lemma debug_blocks_image (ns : list Z) (sb : SuperBlock) (iblocks : Z)
    (d : option Disk) (uninit : Block) (out : list string) (d' : option Disk) :
  debug_blocks ns sb iblocks d uninit = Ok (out, d') ->
  image_of d' = image_of d /\ (quiet d -> quiet d').
Proof.
  revert d out d'. induction ns as [|i ns IH]; intros d out d'; cbn [debug_blocks].
  - by intros [= _ <-].
  - destruct (disk_read_cases d i uninit)
      as [(d1 & Hr & Himg & _ & Hq)|(d1 & Hr & Himg & _ & Hq & _)]; rewrite Hr.
    { rewrite Z.eqb_refl. by intros [= _ <-]. }
    rewrite (BLOCK_SIZE_not_failure HG).
    destruct (if iblocks =? i then _ else _) as [curr_inodes|]; [|done].
    destruct (debug_slots _ i _ d1 uninit) as [[[go out1] d2]|] eqn:Hs; [|done].
    apply debug_slots_image in Hs as [Himg2 Hq2].
    destruct go; [|intros [= _ <-]; split; [congruence|tauto]].
    destruct (debug_blocks ns sb iblocks d2 uninit) as [[out2 d3]|] eqn:Hb; [|done].
    apply IH in Hb as [Himg3 Hq3]. intros [= _ <-].
    split; [congruence|tauto].
Qed.

(** The entries the last loop of [fs_debug] reads are the first
    [INODES_PER_BLOCK] pointers of the block. *)
Lemma debug_entries_take (blk : Block) (k : nat) (z0 : Z) :
  0 <= z0 -> z0 + Z.of_nat k <= POINTERS_PER_BLOCK ->
  debug_entries blk (seqZ z0 (Z.of_nat k))
  = Ok ((fun z => get_u32 blk z) <$> seqZ z0 (Z.of_nat k)).
Proof.
  revert z0. induction k as [|k IH]; intros z0 Hz Hk; [done|].
  rewrite seqZ_cons by lia. cbn [debug_entries fmap list_fmap].
  unfold pointer_at.
  destruct (Z.leb_spec 0 z0); [|lia].
  destruct (Z.ltb_spec z0 POINTERS_PER_BLOCK); [|lia]. cbn [andb].
  replace (Z.pred (Z.of_nat (S k))) with (Z.of_nat k) by lia.
  rewrite IH by lia. done.
Qed.

Lemma debug_slots_no_inode (k : nat) (j0 i : Z) (iblock : Block) (d : option Disk)
    (uninit : Block) :
  0 <= j0 -> j0 + Z.of_nat k <= INODES_PER_BLOCK ->
  (forall j, j0 <= j < j0 + Z.of_nat k -> valid (get_inode iblock j) = 0) ->
  debug_slots (seqZ j0 (Z.of_nat k)) i iblock d uninit = Ok (true, [], d).
Proof.
  revert j0. induction k as [|k IH]; intros j0 Hj0 Hk Hall; [done|].
  rewrite seqZ_cons by lia. cbn [debug_slots]. unfold inode_slot.
  destruct (Z.leb_spec 0 j0); [|lia].
  destruct (Z.ltb_spec j0 INODES_PER_BLOCK); [|lia]. cbn [andb].
  unfold debug_inode. rewrite Hall by lia. rewrite Z.eqb_refl.
  replace (Z.pred (Z.of_nat (S k))) with (Z.of_nat k) by lia.
  rewrite IH; [done|lia|lia|]. intros j Hj. apply Hall. lia.
Qed.

Lemma to_int_wrap32_small (z : Z) : 0 <= z < 2 ^ 31 -> to_int (wrap32 z) = z.
Proof.
  intros Hz. unfold to_int, wrap32. rewrite (Z.mod_small z) by lia.
  rewrite Z.mod_small by lia. lia.
Qed.

Lemma to_int_small_value (z : Z) : 0 <= z < 2 ^ 31 -> to_int z = z.
Proof. intros Hz. unfold to_int. rewrite Z.mod_small by lia. lia. Qed.

Lemma debug_blocks_no_inode (k : nat) (i0 : Z) (sb : SuperBlock) (iblocks : Z)
    (d : option Disk) (uninit : Block) :
  quiet d -> 1 <= i0 -> i0 + Z.of_nat k = iblocks + 1 ->
  iblocks < Z.of_nat (length (image_of d)) ->
  iblocks * INODES_PER_BLOCK < 2 ^ 31 ->
  inodes sb = iblocks * INODES_PER_BLOCK ->
  (forall i j, i0 <= i <= iblocks -> 0 <= j < INODES_PER_BLOCK ->
     valid (get_inode (block_of d i) j) = 0) ->
  exists d', debug_blocks (seqZ i0 (Z.of_nat k)) sb iblocks d uninit = Ok ([], d')
    /\ image_of d' = image_of d.
Proof.
  pose proof (ok_inodes_per_block G HG) as Hipb.
  revert i0 d. induction k as [|k IH]; intros i0 d Hq Hi0 Hk Hlen Hcap Hinodes Hall.
  { by exists d. }
  rewrite seqZ_cons by lia. cbn [debug_blocks].
  destruct (disk_read_in d i0 uninit Hq) as (d1 & Hr & Himg1 & Hq1); [lia|].
  rewrite Hr, (BLOCK_SIZE_not_failure HG).
  assert (Hcurr : (if iblocks =? i0
                   then do done <- checked_int ((i0 - 1) * INODES_PER_BLOCK);
                        Ok (to_int (wrap32 (inodes sb - done)))
                   else Ok INODES_PER_BLOCK) = Ok INODES_PER_BLOCK).
  { destruct (Z.eqb_spec iblocks i0) as [->|]; [|done].
    unfold checked_int.
    destruct (Z.leb_spec (- 2 ^ 31) ((i0 - 1) * INODES_PER_BLOCK)); [|nia].
    destruct (Z.ltb_spec ((i0 - 1) * INODES_PER_BLOCK) (2 ^ 31)); [|nia].
    cbn [andb]. f_equal. rewrite Hinodes.
    replace (i0 * INODES_PER_BLOCK - (i0 - 1) * INODES_PER_BLOCK)
      with INODES_PER_BLOCK by lia.
    apply to_int_wrap32_small. nia. }
  rewrite Hcurr.
  replace (seqZ 0 INODES_PER_BLOCK)
    with (seqZ 0 (Z.of_nat (Z.to_nat INODES_PER_BLOCK)))
    by (by rewrite Z2Nat.id by lia).
  rewrite debug_slots_no_inode; [|lia|lia|].
  2: { intros j Hj. apply Hall; lia. }
  replace (Z.pred (Z.of_nat (S k))) with (Z.of_nat k) by lia.
  destruct (IH (Z.succ i0) d1) as (d' & Hdb & Himg'); [done|lia|lia| | | | |].
  { by rewrite Himg1. }
  { done. }
  { done. }
  { intros i j Hi Hj. rewrite (block_of_same _ _ _ Himg1). apply Hall; lia. }
  rewrite Hdb. exists d'. split; [done|]. congruence.
Qed.

End DebugLaws.

Section DebugResult.
Context `{G : Geometry}.

(** X20: [fs_debug] only reads: whatever it prints, the image of the device
    is as it was.  On a null disk and on a device without blocks it prints
    nothing; when block 0 can be read the report begins with the five lines
    of the super block, the magic number called valid exactly when it is
    [MAGIC_NUMBER]. *)
Theorem fs_debug_reads_only (d : option Disk) (uninit : Block)
    (out : list string) (d' : option Disk) :
  GeometryOk G ->
  fs_debug d uninit = Ok (out, d') ->
  image_of d' = image_of d
  /\ (image_of d = [] -> out = [])
  /\ (out ≠ [] ->
      exists rest,
        out = ["SuperBlock:";
               "    magic number is " +:+
                 (if magic_number (super_of d) =? MAGIC_NUMBER
                  then "valid" else "invalid");
               "    " +:+ pretty (blocks (super_of d)) +:+ " blocks";
               "    " +:+ pretty (inode_blocks (super_of d)) +:+ " inode blocks";
               "    " +:+ pretty (inodes (super_of d)) +:+ " inodes"] ++ rest).
Proof.
  intros HG. unfold fs_debug.
  destruct (disk_read_cases d 0 uninit)
    as [(d1 & Hr & Himg & _)|(d1 & Hr & Himg & _ & _ & Hin)]; rewrite Hr.
  { rewrite Z.eqb_refl. intros [= <- <-]. by repeat split. }
  rewrite (BLOCK_SIZE_not_failure HG), (wrap32_magic HG).
  destruct (debug_blocks _ _ _ d1 uninit) as [[out1 d2]|] eqn:Hb; [|done].
  apply (debug_blocks_image HG) in Hb as [Himg2 _]. intros [= <- <-].
  split; [congruence|]. split.
  { intros Hnil. rewrite Hnil in Hin. cbn in Hin. lia. }
  intros _. by exists out1.
Qed.

(** X21: the report of a device without inodes.  On a device of at least
    two blocks whose reads succeed, whose block 0 holds the super block of
    its size and whose inode table has no valid inode, [fs_debug] prints
    the five lines of the super block and nothing else. *)
Theorem fs_debug_empty_table (d : option Disk) (uninit : Block) :
  GeometryOk G -> quiet d -> (2 <= length (image_of d))%nat ->
  super_valid d ->
  inode_blocks (super_of d) * INODES_PER_BLOCK < 2 ^ 31 ->
  (forall i j, 1 <= i <= inode_blocks (super_of d) -> 0 <= j < INODES_PER_BLOCK ->
     valid (get_inode (block_of d i) j) = 0) ->
  exists d',
    fs_debug d uninit
    = Ok (["SuperBlock:";
           "    magic number is valid";
           "    " +:+ pretty (Z.of_nat (length (image_of d))) +:+ " blocks";
           "    " +:+ pretty (inode_blocks (super_of d)) +:+ " inode blocks";
           "    " +:+ pretty (inode_blocks (super_of d) * INODES_PER_BLOCK)
             +:+ " inodes"], d')
    /\ image_of d' = image_of d.
Proof.
  intros HG Hq Hlen Hsv Hcap Hall.
  pose proof (ok_inodes_per_block G HG) as Hipb.
  pose proof (super_valid_inode_blocks d Hsv Hlen) as Hibr.
  destruct Hsv as (Hmagic & Hblocks & Hib & Hinodes).
  assert (Hinodes' : inodes (super_of d) = inode_blocks (super_of d) * INODES_PER_BLOCK).
  { rewrite Hinodes. unfold wrap32. apply Z.mod_small. nia. }
  unfold fs_debug.
  destruct (disk_read_in d 0 uninit Hq) as (d1 & Hr & Himg1 & Hq1); [lia|].
  rewrite Hr, (BLOCK_SIZE_not_failure HG), (wrap32_magic HG).
  fold (super_of d). rewrite Hmagic, Z.eqb_refl, Hblocks, Hinodes'.
  assert (Hint : to_int (inode_blocks (super_of d)) = inode_blocks (super_of d)).
  { apply to_int_small_value. nia. }
  rewrite Hint.
  destruct (debug_blocks_no_inode HG (Z.to_nat (inode_blocks (super_of d))) 1
              (super_of d) (inode_blocks (super_of d)) d1 uninit Hq1)
    as (d2 & Hdb & Himg2); [lia|lia| |done|done| |].
  { rewrite Himg1. lia. }
  { intros i j Hi Hj. rewrite (block_of_same _ _ _ Himg1). by apply Hall. }
  rewrite Z2Nat.id in Hdb by lia. rewrite Hdb.
  exists d2. split; [done|]. congruence.
Qed.

(** X22: the report of one inode.  For a valid inode with an indirect
    block inside a device whose reads succeed, [fs_debug] prints the inode
    number, the size, the nonzero direct pointers (as signed integers), the
    indirect pointer, and of the entries of the indirect block the nonzero
    ones among the first [INODES_PER_BLOCK] only, not among all
    [POINTERS_PER_BLOCK]. *)
Theorem fs_debug_inode_report (i j : Z) (inode : Inode) (d : option Disk)
    (uninit : Block) :
  GeometryOk G -> quiet d ->
  INODES_PER_BLOCK <= POINTERS_PER_BLOCK ->
  1 <= i -> 0 <= j -> INODES_PER_BLOCK * (i - 1) + j < 2 ^ 31 ->
  valid inode ≠ 0 -> indirect inode ≠ 0 ->
  0 <= indirect inode < Z.of_nat (length (image_of d)) ->
  exists d',
    debug_inode i j inode d uninit
    = Ok (true,
          ["Inode " +:+ pretty (INODES_PER_BLOCK * (i - 1) + j) +:+ ":";
           "    size: " +:+ pretty (size inode) +:+ " bytes";
           "    direct blocks:" +:+ listing (fun p => pretty (to_int p)) (direct inode);
           "    indirect block: " +:+ pretty (indirect inode);
           "    indirect data blocks:" +:+
             listing pretty
               (take (Z.to_nat INODES_PER_BLOCK)
                  (get_pointers (block_of d (indirect inode))))],
          d')
    /\ image_of d' = image_of d.
Proof.
  intros HG Hq Hle Hi Hj Hnum Hv Hind Hin.
  pose proof (ok_inodes_per_block G HG) as Hipb.
  unfold debug_inode.
  destruct (Z.eqb_spec (valid inode) 0); [done|].
  unfold checked_int.
  destruct (Z.leb_spec (- 2 ^ 31) (INODES_PER_BLOCK * (i - 1))); [|nia].
  destruct (Z.ltb_spec (INODES_PER_BLOCK * (i - 1)) (2 ^ 31)); [|nia].
  cbn [andb].
  destruct (Z.leb_spec (- 2 ^ 31) (INODES_PER_BLOCK * (i - 1) + j)); [|nia].
  destruct (Z.ltb_spec (INODES_PER_BLOCK * (i - 1) + j) (2 ^ 31)); [|nia].
  cbn [andb].
  destruct (Z.eqb_spec (indirect inode) 0); [done|].
  destruct (disk_read_in d (indirect inode) uninit Hq Hin) as (d1 & Hr & Himg1 & _).
  rewrite Hr, (BLOCK_SIZE_not_failure HG).
  replace (seqZ 0 INODES_PER_BLOCK)
    with (seqZ 0 (Z.of_nat (Z.to_nat INODES_PER_BLOCK)))
    by (by rewrite Z2Nat.id by lia).
  rewrite (debug_entries_take _ _ 0) by lia.
  rewrite Z2Nat.id by lia.
  assert (Htake : take (Z.to_nat INODES_PER_BLOCK)
                    (get_pointers (block_of d (indirect inode)))
                  = (fun z => get_u32 (block_of d (indirect inode)) z)
                      <$> seqZ 0 INODES_PER_BLOCK).
  { unfold get_pointers, get_words. rewrite <- fmap_take.
    apply list_eq. intros k. rewrite !list_lookup_fmap, lookup_take.
    destruct (decide (k < Z.to_nat INODES_PER_BLOCK)%nat) as [Hk|Hk].
    - rewrite !lookup_seqZ_lt by lia. done.
    - by rewrite lookup_seqZ_ge by lia. }
  rewrite Htake. by exists d1.
Qed.

End DebugResult.

(** ** The two layouts satisfy the constraints *)

Lemma reference_geometry_ok : GeometryOk reference_geometry.
Proof. constructor; unfold INODE_WORDS; simpl; lia. Qed.

Lemma small_geometry_ok : GeometryOk small_geometry.
Proof. constructor; unfold INODE_WORDS; simpl; lia. Qed.

(** ** Formatting a fresh device *)

Section FormatMount.
Context `{G : Geometry}.

(** C1 (the code departs from the claim): on a fresh device of [N] zeroed
    blocks, [1 <= N <= 1000], [fs_format] succeeds but writes no super
    block: it leaves the image as it found it, all zero, block 0 included,
    and the [fs_mount] that follows returns [false] on the magic number. *)
Theorem fs_format_then_mount_fresh_device (N : Z) (uninit : Block) :
  GeometryOk G -> 1 <= N <= 1000 ->
  exists fs1 d1 d2,
    fs_format unmounted (blank_disk N) = (true, fs1, d1)
    /\ image_of d1 = disk_image (blank_disk N)
    /\ fs_mount fs1 d1 uninit = Ok (false, fs1, d2).
Proof.
  intros HG HN.
  destruct (fs_format_image unmounted (blank_disk N))
    as (fs1 & d1 & Hf & Hq & Hfree & Hlen & H0 & Hrest); [done|done|..].
  { unfold disk_blocks, blank_disk. simpl. rewrite length_replicate. lia. }
  assert (Himg : image_of d1 = disk_image (blank_disk N)).
  { apply list_eq. intros k. destruct k as [|k]; [done|].
    destruct (decide (S k < length (disk_image (blank_disk N)))%nat) as [Hk|Hk].
    - rewrite Hrest by lia. symmetry. simpl in *.
      rewrite length_replicate in Hk. by apply lookup_replicate_2.
    - rewrite !lookup_ge_None_2; [done|lia|lia]. }
  destruct (fs_mount_rejects HG fs1 d1 uninit) as (d2 & Hm & _).
  { right. intros (Hmagic & _). unfold super_of, block_of in Hmagic.
    rewrite Himg in Hmagic. simpl in Hmagic.
    rewrite lookup_replicate_2 in Hmagic by lia. simpl in Hmagic.
    rewrite get_u32_empty_block in Hmagic. pose proof (ok_magic G HG). lia. }
  by exists fs1, d1, d2.
Qed.

End FormatMount.

(** ** Concrete runs on the reference layout *)

Section Reference.
#[local] Existing Instance reference_geometry.

Lemma fs_format_then_mount_fresh_device_witness :
  GeometryOk reference_geometry /\ 1 <= 10 <= 1000 /\
  exists fs1 d1 d2,
    fs_format unmounted (blank_disk 10) = (true, fs1, d1)
    /\ image_of d1 = disk_image (blank_disk 10)
    /\ fs_mount fs1 d1 empty_block = Ok (false, fs1, d2).
Proof.
  split; [exact reference_geometry_ok|]. split; [lia|].
  apply (fs_format_then_mount_fresh_device 10 empty_block).
  - exact reference_geometry_ok.
  - lia.
Defined.

Example demo_mount_succeeds :
  returned (fs_mount unmounted (Some (disk_of_image (formatted_image 20))) empty_block)
  = Some (true, demo_mounted)
  /\ free_blocks demo_mounted
     = Some ([false; false; false] ++ replicate 17%nat true).
Proof. vm_compute. split; reflexivity. Qed.

Example demo_create_returns_0 : (fs_create demo_mounted).1 = 0.
Proof. vm_compute. reflexivity. Qed.

(** C2 (the code departs from the claim): ten bytes 1..10 written at
    offset 0 of a fresh inode land in data block 3; the two bytes 77, 78
    written next at offset 4 are copied to the start of the staging block,
    not to position 4: bytes [0..2) of the block are overwritten and bytes
    [4..6) still hold the first write. *)
Theorem fs_write_at_offset_overwrites_block_start :
  returned demo_first_write = Some 10
  /\ take 10 (block_of (disk (state_after demo_first_write)) 3)
     = [1; 2; 3; 4; 5; 6; 7; 8; 9; 10]
  /\ returned demo_second_write = Some 2
  /\ (fs_load_inode (state_after demo_second_write) 0).1
     = Some {| valid := 1; size := 12; direct := [3; 0; 0; 0; 0]; indirect := 0 |}
  /\ take 10 (block_of (disk (state_after demo_second_write)) 3)
     = [77; 78; 3; 4; 5; 6; 7; 8; 9; 10].
Proof. vm_compute. repeat split; reflexivity. Qed.

(** C3 (the code departs from the claim): after two full blocks were
    written to inode 0 (size 8192, direct pointers 3 and 4), a read of 8192
    bytes at offset 0 into a zeroed buffer returns 4096: it copies block 3
    and returns, the second half of the buffer is left as it was although
    block 4 holds the rest of the data. *)
Theorem fs_read_stops_after_first_block :
  returned demo_long_write = Some 8192
  /\ (fs_load_inode (state_after demo_long_write) 0).1
     = Some {| valid := 1; size := 8192; direct := [3; 4; 0; 0; 0]; indirect := 0 |}
  /\ block_of (disk (state_after demo_long_write)) 4 = drop (Z.to_nat 4096) two_blocks_of_data
  /\ exists fs' data',
       fs_read (state_after demo_long_write) 0 (replicate (Z.to_nat 8192) 0) 8192 0
       = Ok (4096, fs', data')
       /\ take (Z.to_nat 4096) data' = take (Z.to_nat 4096) two_blocks_of_data
       /\ drop (Z.to_nat 4096) data' = replicate (Z.to_nat 4096) 0.
Proof.
  split; [by vm_compute|]. split; [by vm_compute|]. split; [by vm_compute|].
  eexists _, _. split; [vm_compute; reflexivity|]. by vm_compute.
Qed.

(** C8 (the code departs from the claim): the device has 2 inode blocks,
    so inode numbers run up to 255.  Number 256 maps to block 3, the data
    block of inode 0; [fs_load_inode] has no range check and takes the data
    for an inode, and [fs_stat] returns 42, the second word of the data. *)
Theorem fs_stat_out_of_range_reads_data_block :
  inode_blocks (meta_data demo_created) * INODES_PER_BLOCK = 256
  /\ returned demo_inode_like_write = Some 8
  /\ direct_at (default iblank (fs_load_inode (state_after demo_inode_like_write) 0).1) 0 = 3
  /\ (fs_stat (state_after demo_inode_like_write) 256).1 = 42.
Proof. vm_compute. repeat split; reflexivity. Qed.







(** C4, as stated, fails: both devices hold a super block that passes the
    four checks and the structure is unmounted, yet [fs_mount] does not
    succeed.  With the indirect pointer 25 on a device of 20 blocks it
    stores outside the bitmap (and would then return [false] on the failed
    read); with the read of the indirect block failing it returns [false],
    the bitmap allocated and the disk bound. *)
Lemma fs_mount_valid_super_block_not_enough :
  super_valid (Some dangling_disk)
  /\ fs_mount unmounted (Some dangling_disk) empty_block = Undef
  /\ super_valid (Some unreadable_disk)
  /\ returned (fs_mount unmounted (Some unreadable_disk) empty_block)
     = Some (false,
             mounted_by (fs_mount unmounted (Some unreadable_disk) empty_block))
  /\ is_Some (free_blocks
       (mounted_by (fs_mount unmounted (Some unreadable_disk) empty_block))).
Proof.
  split; [by vm_compute|]. split; [by vm_compute|]. split; [by vm_compute|].
  split; [by vm_compute|]. vm_compute. by eexists.
Qed.

Lemma formatted_image_pointers_within :
  pointers_within (Some (disk_of_image (formatted_image 20))).
Proof.
  intros i j Hi Hj Hv. exfalso. apply Hv.
  assert (Hib : inode_blocks (super_of (Some (disk_of_image (formatted_image 20)))) = 2)
    by (vm_compute; reflexivity).
  rewrite Hib in Hi.
  assert (Hblk : block_of (Some (disk_of_image (formatted_image 20))) i = empty_block).
  { assert (i = 1 \/ i = 2) as [-> | ->] by lia; vm_compute; reflexivity. }
  rewrite Hblk, (get_inode_empty_block j). reflexivity.
Qed.

Lemma fs_mount_checks_witness :
  GeometryOk reference_geometry
  /\ exists fs',
       fs_mount unmounted (Some (disk_of_image (formatted_image 20))) empty_block
       = Ok (true, fs', disk fs')
       /\ meta_data fs' = mkSuperBlock 0xf0f03410 20 2 256.
Proof.
  split; [exact reference_geometry_ok|].
  destruct (fs_mount_checks unmounted (Some (disk_of_image (formatted_image 20)))
              empty_block reference_geometry_ok) as [_ Hsucceeds].
  destruct Hsucceeds as (fs' & Hm & _ & Hmeta & _).
  - reflexivity.
  - vm_compute. repeat split; reflexivity.
  - reflexivity.
  - vm_compute. lia.
  - exact formatted_image_pointers_within.
  - exists fs'. split; [exact Hm|]. rewrite Hmeta. vm_compute. reflexivity.
Defined.





(** C9, as stated, fails: the device mounts; inode 0 is valid and its
    first direct pointer is 1, a block of the inode table.  [fs_remove]
    succeeds and marks entry 1 free, and [fs_find_free] then returns 1,
    inside [0, inode_blocks] = [0, 2].  And where the write that zeroes the
    block found fails, [fs_find_free] returns 0 although block 4 is free
    before and after. *)
Lemma fs_remove_frees_inode_table_block :
  returned table_pointer_mount = Some (true, mounted_by table_pointer_mount)
  /\ inode_blocks (meta_data (mounted_by table_pointer_mount)) = 2
  /\ returned table_pointer_removed = Some true
  /\ free_blocks (state_after table_pointer_removed)
     = Some ([false; true; false] ++ replicate 17%nat true)
  /\ returned (fs_find_free (state_after table_pointer_removed)) = Some 1
  /\ returned (fs_find_free (with_faults demo_mounted [true])) = Some 0
  /\ bitmap_entry demo_mounted 4 = Some true
  /\ bitmap_entry (state_after (fs_find_free (with_faults demo_mounted [true]))) 4
     = Some true.
Proof. vm_compute. repeat split; reflexivity. Qed.

Lemma demo_mount_runs :
  fs_mount unmounted (Some (disk_of_image (formatted_image 20))) empty_block
  = Ok (true, demo_mounted, disk demo_mounted).
Proof. vm_compute. reflexivity. Qed.

Lemma reserved_blocks_stay_marked_witness :
  GeometryOk reference_geometry /\ reachable (fs_create demo_mounted).2
  /\ reserved_marked (fs_create demo_mounted).2
  /\ returned (fs_find_free (fs_create demo_mounted).2) = Some 3.
Proof.
  assert (Hreach : reachable (fs_create demo_mounted).2).
  { apply reach_create. exact (reach_mount _ _ _ _ _ demo_mount_runs). }
  split; [exact reference_geometry_ok|]. split; [exact Hreach|].
  destruct (reserved_blocks_stay_marked _ reference_geometry_ok Hreach) as [Hres _].
  split; [exact Hres|]. vm_compute. reflexivity.
Defined.

End Reference.

(** ** Concrete runs on the small layout *)

Section Small.
#[local] Existing Instance small_geometry.

Lemma small_mount_runs :
  fs_mount unmounted (Some small_disk) empty_block
  = Ok (true, small_mounted, disk small_mounted).
Proof. vm_compute. reflexivity. Qed.

Lemma small_remount_runs :
  fs_mount unmounted (disk small_written) empty_block
  = Ok (true, small_remounted, disk small_remounted).
Proof. vm_compute. reflexivity. Qed.

Lemma small_long_write_runs :
  fs_write small_created 0 forty_bytes 40 0 empty_block = Ok (40, small_written).
Proof. vm_compute. reflexivity. Qed.

Lemma small_removed_runs : fs_remove small_written 0 = Ok (true, small_removed).
Proof. vm_compute. reflexivity. Qed.

Lemma small_created_is_created : (fs_create small_mounted).2 = small_created.
Proof. vm_compute. reflexivity. Qed.

Lemma small_written_inode :
  inode_on_disk (disk small_written) 0
  = {| valid := 1; size := 40; direct := [2]; indirect := 3 |}.
Proof. vm_compute. reflexivity. Qed.

Lemma small_written_referenced :
  referenced (disk small_written) (inode_on_disk (disk small_written) 0)
  = [2; 3; 4; 0; 0; 0; 0; 0; 0; 0].
Proof. vm_compute. reflexivity. Qed.

Lemma small_written_in_use :
  in_use (disk small_written) 4 = true /\ in_use (disk small_written) 5 = false.
Proof. vm_compute. split; reflexivity. Qed.

Lemma small_created_image_ok : image_ok (disk small_created).
Proof. vm_compute. repeat constructor. Qed.

Lemma small_mounted_image_ok : image_ok (disk small_mounted).
Proof. vm_compute. repeat constructor. Qed.

Lemma small_created_inv : bitmap_inv small_created.
Proof.
  rewrite <- small_created_is_created.
  apply (reachable_bitmap_inv _ small_geometry_ok).
  apply reach_create. exact (reach_mount _ _ _ _ _ small_mount_runs).
Qed.

Lemma disk_write_then_read_witness :
  quiet (Some small_disk)
  /\ exists d1 d2,
       disk_write (Some small_disk) 3 (replicate 32 5) = (BLOCK_SIZE, d1)
       /\ disk_read d1 3 empty_block = (BLOCK_SIZE, d2, replicate 32 5).
Proof.
  assert (Hq : quiet (Some small_disk)) by reflexivity.
  assert (Hb : 0 <= 3 < Z.of_nat (length (image_of (Some small_disk))))
    by (vm_compute; split; discriminate || reflexivity).
  split; [exact Hq|].
  destruct (disk_write_then_read (Some small_disk) 3 (replicate 32 5) empty_block Hq Hb)
    as (d1 & Hw & (d2 & Hr) & _).
  by exists d1, d2.
Defined.

Lemma disk_access_outside_device_witness :
  ~ (0 <= 10 < Z.of_nat (length (image_of (Some small_disk))))
  /\ disk_read (Some small_disk) 10 empty_block = (DISK_FAILURE, Some small_disk, empty_block)
  /\ disk_write (Some small_disk) 10 empty_block = (DISK_FAILURE, Some small_disk).
Proof.
  assert (Hb : ~ (0 <= 10 < Z.of_nat (length (image_of (Some small_disk)))))
    by (vm_compute; intros [_ H]; discriminate H).
  split; [exact Hb|].
  exact (disk_access_outside_device (Some small_disk) 10 empty_block Hb).
Defined.

Lemma disk_counters_count_completed_calls_witness :
  BLOCK_SIZE ≠ DISK_FAILURE
  /\ exists d', (run_ops three_calls (Some small_disk)).2 = Some d'
       /\ disk_reads d' = 1 /\ disk_writes d' = 1.
Proof.
  assert (Hbs : BLOCK_SIZE ≠ DISK_FAILURE) by (vm_compute; discriminate).
  split; [exact Hbs|].
  destruct (disk_counters_count_completed_calls three_calls small_disk 3 Hbs)
    as (d' & Hd' & _ & _ & Hr & Hw & _).
  exists d'. split; [exact Hd'|]. split; [exact Hr|exact Hw].
Defined.

Lemma disk_open_device_witness :
  0 < BLOCK_SIZE
  /\ disk_open fresh_host 10 = Ok (Some (3, blank_disk 10), [])
  /\ disk_blocks (blank_disk 10) = 10 /\ image_ok (Some (blank_disk 10)).
Proof.
  assert (Hbs : 0 < BLOCK_SIZE) by reflexivity.
  assert (Hopen : disk_open fresh_host 10 = Ok (Some (3, blank_disk 10), []))
    by (vm_compute; reflexivity).
  split; [exact Hbs|]. split; [exact Hopen|].
  destruct (disk_open_device fresh_host 10 Hbs ltac:(lia)) as [_ Hd].
  destruct (Hd 3 (blank_disk 10) [] Hopen) as (_ & _ & _ & Hblocks & Hok & _).
  split; [exact Hblocks|exact Hok].
Defined.

Lemma disk_open_failure_paths_witness :
  10 <= 1000
  /\ disk_open refusing_host 10
     = Ok (None, [ev_print "0 disk block reads"; ev_print "0 disk block writes";
                  ev_close 0]).
Proof.
  assert (Hn : 10 <= 1000) by lia.
  split; [exact Hn|].
  destruct (disk_open_failure_paths refusing_host 10 Hn) as (_ & Hopen & _).
  exact (Hopen eq_refl eq_refl).
Defined.

Lemma fs_format_effect_witness :
  disk_faults used_disk = [] /\ disk_blocks used_disk < 2 ^ 32
  /\ exists fs1 d1,
       fs_format unmounted used_disk = (true, fs1, d1)
       /\ inode_blocks (meta_data fs1) = 1
       /\ block_of d1 0 = block_of (Some used_disk) 0
       /\ block_of d1 5 = empty_block.
Proof.
  assert (Hq : disk_faults used_disk = []) by reflexivity.
  assert (Hsmall : disk_blocks used_disk < 2 ^ 32) by reflexivity.
  split; [exact Hq|]. split; [exact Hsmall|].
  destruct (fs_format_effect unmounted used_disk Hq Hsmall) as [_ Hf].
  destruct (Hf eq_refl) as (d1 & Hfmt & _ & Hb0 & Hclear).
  eexists _, d1. split; [exact Hfmt|]. split; [reflexivity|].
  split; [exact Hb0|]. apply Hclear. vm_compute. split; reflexivity.
Defined.


Lemma fs_mount_rebuilds_bitmap_witness :
  quiet (disk small_written)
  /\ exists l, free_blocks small_remounted = Some l
       /\ l !! 4%nat = Some false /\ l !! 5%nat = Some true.
Proof.
  assert (Hq : quiet (disk small_written)) by reflexivity.
  assert (Hlen : (2 <= length (image_of (disk small_written)))%nat)
    by (vm_compute; lia).
  split; [exact Hq|].
  destruct (fs_mount_rebuilds_bitmap unmounted (disk small_written) empty_block
              small_remounted (disk small_remounted) small_geometry_ok Hq Hlen
              small_remount_runs) as (l & Hl & _ & Hentries).
  assert (H4 : 0 <= 4 < Z.of_nat (length (image_of (disk small_written))))
    by (vm_compute; split; discriminate || reflexivity).
  assert (H5 : 0 <= 5 < Z.of_nat (length (image_of (disk small_written))))
    by (vm_compute; split; discriminate || reflexivity).
  destruct small_written_in_use as [Hu4 Hu5].
  pose proof (Hentries 4 H4) as E4. pose proof (Hentries 5 H5) as E5.
  rewrite Hu4 in E4. rewrite Hu5 in E5.
  exists l. split; [exact Hl|]. split; [exact E4|exact E5].
Defined.

Lemma fs_unmount_then_mount_witness :
  quiet (disk small_written)
  /\ exists fs2,
       fs_mount (fs_unmount small_remounted) (disk small_remounted) empty_block
       = Ok (true, fs2, disk fs2)
       /\ free_blocks fs2 = free_blocks small_remounted.
Proof.
  assert (Hq : quiet (disk small_written)) by reflexivity.
  assert (Hlen : (2 <= length (image_of (disk small_written)))%nat)
    by (vm_compute; lia).
  split; [exact Hq|].
  destruct (fs_unmount_then_mount unmounted (disk small_written) empty_block
              empty_block small_remounted (disk small_remounted) small_geometry_ok
              Hq Hlen small_remount_runs) as (_ & _ & fs2 & Hm & _ & Hfree & _).
  exists fs2. split; [exact Hm|exact Hfree].
Defined.

Lemma operations_fail_after_unmount_witness :
  GeometryOk small_geometry
  /\ fs_stat (fs_unmount small_written) 0 = (-1, fs_unmount small_written)
  /\ fs_remove (fs_unmount small_written) 0 = Ok (false, fs_unmount small_written).
Proof.
  split; [exact small_geometry_ok|].
  destruct (operations_fail_after_unmount small_written 0 [] 0 0 empty_block
              small_geometry_ok) as (_ & Hstat & _ & _ & Hrm).
  split; [exact Hstat|exact Hrm].
Defined.

Lemma used_disk_super_valid : super_valid (Some used_disk).
Proof. vm_compute. repeat split; reflexivity. Qed.

Lemma fs_format_then_mount_formatted_device_witness :
  super_valid (Some used_disk)
  /\ exists fs1 d1 fs2,
       fs_format unmounted used_disk = (true, fs1, d1)
       /\ fs_mount fs1 d1 empty_block = Ok (true, fs2, disk fs2)
       /\ meta_data fs2 = meta_data fs1.
Proof.
  assert (Hlen : (2 <= length (disk_image used_disk))%nat) by (vm_compute; lia).
  split; [exact used_disk_super_valid|].
  destruct (fs_format_then_mount_formatted_device used_disk empty_block
              small_geometry_ok eq_refl Hlen used_disk_super_valid)
    as (fs1 & d1 & fs2 & Hfmt & Hm & Hmeta & _).
  exists fs1, d1, fs2. split; [exact Hfmt|]. split; [exact Hm|exact Hmeta].
Defined.

Lemma small_read_runs :
  exists fs' data',
    fs_read small_written 0 (replicate 32 0) 32 0 = Ok (32, fs', data').
Proof. eexists _, _. vm_compute. reflexivity. Qed.

Lemma fs_stat_and_fs_read_write_nothing_witness :
  GeometryOk small_geometry
  /\ exists fs' data',
       fs_read small_written 0 (replicate 32 0) 32 0 = Ok (32, fs', data')
       /\ image_of (disk fs') = image_of (disk small_written)
       /\ free_blocks fs' = free_blocks small_written
       /\ length data' = length (replicate 32 0).
Proof.
  split; [exact small_geometry_ok|].
  destruct small_read_runs as (fs' & data' & Hrd).
  destruct (fs_stat_and_fs_read_write_nothing small_written 0 (replicate 32 0) 32 0
              32 fs' data' small_geometry_ok Hrd)
    as (_ & Himg & _ & Hfree & Hlen & _).
  exists fs', data'. split; [exact Hrd|]. split; [exact Himg|].
  split; [exact Hfree|exact Hlen].
Defined.

Lemma small_written_readable :
  quiet (disk small_written) /\ is_Some (free_blocks small_written)
  /\ 0 <= 0 < wrap32 (inode_blocks (meta_data small_written) * INODES_PER_BLOCK)
  /\ 0 <= slot_block 0 < Z.of_nat (length (image_of (disk small_written)))
  /\ valid (inode_on_disk (disk small_written) 0) ≠ 0
  /\ 0 / BLOCK_SIZE < POINTERS_PER_INODE
  /\ 0 <= direct_at (inode_on_disk (disk small_written) 0) (0 / BLOCK_SIZE)
       < Z.of_nat (length (image_of (disk small_written)))
  /\ 0 mod BLOCK_SIZE
       + Z.min BLOCK_SIZE (wrap64 (size (inode_on_disk (disk small_written) 0) - 0))
       <= Z.of_nat (length (block_of (disk small_written)
                              (direct_at (inode_on_disk (disk small_written) 0)
                                 (0 / BLOCK_SIZE))))
  /\ Z.min BLOCK_SIZE (wrap64 (size (inode_on_disk (disk small_written) 0) - 0))
       <= Z.of_nat (length (replicate 32 0)).
Proof.
  vm_compute. repeat split; try discriminate; try reflexivity. by eexists.
Qed.

Lemma small_read_result :
  Z.min BLOCK_SIZE (wrap64 (size (inode_on_disk (disk small_written) 0) - 0)) = 32
  /\ take (Z.to_nat (Z.min BLOCK_SIZE
                        (wrap64 (size (inode_on_disk (disk small_written) 0) - 0))))
       (drop (Z.to_nat (0 mod BLOCK_SIZE))
          (block_of (disk small_written)
             (direct_at (inode_on_disk (disk small_written) 0) (0 / BLOCK_SIZE))))
     ++ drop (Z.to_nat (Z.min BLOCK_SIZE
                          (wrap64 (size (inode_on_disk (disk small_written) 0) - 0))))
          (replicate 32 0)
     = take 32 forty_bytes.
Proof. vm_compute. split; reflexivity. Qed.

Lemma fs_read_copies_one_block_witness :
  quiet (disk small_written)
  /\ exists fs',
       fs_read small_written 0 (replicate 32 0) 5 0 = Ok (32, fs', take 32 forty_bytes).
Proof.
  destruct small_written_readable
    as (Hq & Hbm & Hn & Hslot & Hv & Hblk & Hptr & Hfit & Hroom).
  split; [exact Hq|].
  destruct (fs_read_copies_one_block small_written 0 (replicate 32 0) 5 0
              small_geometry_ok Hq Hbm Hn Hslot Hv ltac:(lia) Hblk Hptr Hfit Hroom)
    as (fs' & Hrd).
  destruct small_read_result as [Hcount Hdata].
  rewrite Hdata, Hcount in Hrd. by exists fs'.
Defined.

Lemma small_written_bitmap :
  free_blocks small_written
  = Some [false; false; false; false; false; true; true; true; true; true].
Proof. vm_compute. reflexivity. Qed.

Lemma fs_find_free_first_fit_witness :
  quiet (disk small_written)
  /\ exists fs',
       fs_find_free small_written = Ok (5, fs')
       /\ free_blocks fs'
          = Some [false; false; false; false; false; false; true; true; true; true].
Proof.
  assert (Hq : quiet (disk small_written)) by reflexivity.
  split; [exact Hq|].
  destruct (fs_find_free_first_fit small_written
              [false; false; false; false; false; true; true; true; true; true]
              small_geometry_ok Hq small_written_bitmap eq_refl eq_refl)
    as [_ Hfirst].
  destruct (Hfirst 5) as (fs' & Hff & _ & Hfree & _).
  - lia.
  - reflexivity.
  - intros k Hk.
    assert (Hc : k = 0 \/ k = 1 \/ k = 2 \/ k = 3 \/ k = 4) by lia.
    destruct Hc as [-> | [-> | [-> | [-> | ->]]]]; reflexivity.
  - exists fs'. split; [exact Hff|exact Hfree].
Defined.

Lemma small_created_slot :
  quiet (disk small_created)
  /\ 0 <= slot_block 1 < Z.of_nat (length (image_of (disk small_created)))
  /\ Z.of_nat (length (direct {| valid := 1; size := 7; direct := [5]; indirect := 0 |}))
     = POINTERS_PER_INODE.
Proof. vm_compute. repeat split; try discriminate; reflexivity. Qed.

Lemma fs_save_inode_then_load_witness :
  quiet (disk small_created)
  /\ exists fs1 fs2,
       fs_save_inode small_created 1
         {| valid := 1; size := 7; direct := [5]; indirect := 0 |} = (true, fs1)
       /\ fs_load_inode fs1 1
          = (Some {| valid := 1; size := 7; direct := [5]; indirect := 0 |}, fs2)
       /\ (fs_stat fs1 1).1 = 7.
Proof.
  destruct small_created_slot as (Hq & Hslot & Hdir).
  split; [exact Hq|].
  destruct (fs_save_inode_then_load small_created 1
              {| valid := 1; size := 7; direct := [5]; indirect := 0 |}
              small_geometry_ok ltac:(lia) Hq small_created_image_ok Hslot Hdir)
    as (fs1 & fs2 & Hsave & Hload & Hstat & _).
  - simpl. lia.
  - simpl. lia.
  - simpl. lia.
  - simpl. repeat constructor; lia.
  - exists fs1, fs2. split; [exact Hsave|]. split; [exact Hload|exact Hstat].
Defined.

Lemma small_created_writable :
  quiet (disk small_created)
  /\ blocks (meta_data small_created) < 2 ^ 32
  /\ inode_blocks (meta_data small_created) * INODES_PER_BLOCK < 2 ^ 32
  /\ 0 <= 0 < inode_blocks (meta_data small_created) * INODES_PER_BLOCK
  /\ valid (inode_on_disk (disk small_created) 0) ≠ 0
  /\ size (inode_on_disk (disk small_created) 0) = 0
  /\ direct_at (inode_on_disk (disk small_created) 0) 0 = 0
  /\ bitmap_entry small_created 2 = Some true.
Proof. vm_compute. repeat split; try discriminate; reflexivity. Qed.

Lemma fs_write_then_read_first_block_witness :
  bitmap_inv small_created
  /\ exists fs1 fs2,
       fs_write small_created 0 [10; 20; 30] 3 0 empty_block = Ok (3, fs1)
       /\ (fs_stat fs1 0).1 = 3
       /\ fs_read fs1 0 (replicate 8 0) 8 0 = Ok (3, fs2, [10; 20; 30; 0; 0; 0; 0; 0]).
Proof.
  destruct small_created_writable
    as (Hq & Hsmall & Hcap & Hn & Hv & Hsize & Hd0 & Hfree).
  split; [exact small_created_inv|].
  destruct (fs_write_then_read_first_block small_created 0 [10; 20; 30]
              (replicate 8 0) 3 8 empty_block small_geometry_ok small_created_inv
              Hq small_created_image_ok Hsmall Hcap Hn Hv Hsize Hd0)
    as (fs1 & fs2 & Hw & Hstat & _ & Hrd).
  - vm_compute. split; discriminate || reflexivity.
  - simpl. lia.
  - simpl. lia.
  - intros Hno. apply (Hno 2); [lia|exact Hfree].
  - exists fs1, fs2. split; [exact Hw|]. split; [exact Hstat|exact Hrd].
Defined.

Lemma small_written_apart :
  (indirect (inode_on_disk (disk small_written) 0) ≠ 0 ->
     (indirect (inode_on_disk (disk small_written) 0)
        ∉ direct (inode_on_disk (disk small_written) 0)))
  /\ (slot_block 0
        ∉ referenced (disk small_written) (inode_on_disk (disk small_written) 0))
  /\ (4 ∈ referenced (disk small_written) (inode_on_disk (disk small_written) 0)).
Proof.
  rewrite small_written_referenced, small_written_inode. cbn [indirect direct].
  split; [|split].
  - intros _. compute_done.
  - compute_done.
  - compute_done.
Qed.

Lemma fs_remove_releases_blocks_witness :
  fs_remove small_written 0 = Ok (true, small_removed)
  /\ block_of (disk small_removed) 4 = empty_block
  /\ bitmap_entry small_removed 4 = Some true
  /\ bitmap_entry small_removed 5 = bitmap_entry small_written 5.
Proof.
  destruct small_written_apart as (Hsane & Hown & H4).
  split; [exact small_removed_runs|].
  destruct (fs_remove_releases_blocks small_written 0 small_removed
              small_geometry_ok ltac:(lia) small_removed_runs Hsane Hown)
    as [Hreleased Hkept].
  destruct (Hreleased 4 H4 ltac:(lia)) as [Hblk Hent].
  split; [exact Hblk|]. split; [exact Hent|].
  apply (Hkept 5); [lia|]. right.
  rewrite small_written_referenced. compute_done.
Defined.

Lemma small_mounted_creatable :
  quiet (disk small_mounted)
  /\ 0 <= inode_blocks (meta_data small_mounted)
       < Z.of_nat (length (image_of (disk small_mounted)))
  /\ (fs_create small_mounted).1 ≠ -1
  /\ indirect (inode_on_disk (disk small_mounted) (fs_create small_mounted).1) = 0
  /\ direct (inode_on_disk (disk small_mounted) (fs_create small_mounted).1) = [0]
  /\ (fs_create small_mounted).1 = 0.
Proof. vm_compute. repeat split; try discriminate; reflexivity. Qed.

Lemma fs_create_remove_create_witness :
  (fs_create small_mounted).1 = 0
  /\ exists fs2,
       fs_remove (fs_create small_mounted).2 (fs_create small_mounted).1 = Ok (true, fs2)
       /\ free_blocks fs2 = free_blocks small_mounted
       /\ (fs_create fs2).1 = (fs_create small_mounted).1.
Proof.
  destruct small_mounted_creatable as (Hq & Hib & Hr & Hind & Hdir & Hzero).
  split; [exact Hzero|].
  destruct (fs_create_remove_create small_mounted small_geometry_ok Hq
              small_mounted_image_ok Hib Hr)
    as (fs2 & Hrm & _ & _ & _ & Hfree & Hagain).
  - rewrite Hdir. repeat constructor.
  - exact Hind.
  - exists fs2. split; [exact Hrm|]. split; [exact Hfree|exact Hagain].
Defined.

Lemma fs_write_keeps_witness :
  fs_write small_created 0 forty_bytes 40 0 empty_block = Ok (40, small_written)
  /\ meta_data small_written = meta_data small_created
  /\ bitmap_marks (free_blocks small_created) (free_blocks small_written).
Proof.
  split; [exact small_long_write_runs|].
  destruct (fs_write_keeps small_created 0 forty_bytes 40 0 empty_block 40
              small_written small_geometry_ok ltac:(lia) ltac:(lia)
              small_long_write_runs) as (Hmeta & _ & Hmarks & _).
  split; [exact Hmeta|exact Hmarks].
Defined.

Lemma small_debug_runs :
  exists out d', fs_debug (disk small_written) empty_block = Ok (out, d').
Proof. eexists _, _. vm_compute. reflexivity. Qed.

Lemma fs_debug_reads_only_witness :
  GeometryOk small_geometry
  /\ exists out d',
       fs_debug (disk small_written) empty_block = Ok (out, d')
       /\ image_of d' = image_of (disk small_written).
Proof.
  split; [exact small_geometry_ok|].
  destruct small_debug_runs as (out & d' & Hdbg).
  destruct (fs_debug_reads_only (disk small_written) empty_block out d'
              small_geometry_ok Hdbg) as (Himg & _).
  exists out, d'. split; [exact Hdbg|exact Himg].
Defined.

Lemma small_disk_empty_table :
  quiet (Some small_disk) /\ (2 <= length (image_of (Some small_disk)))%nat
  /\ super_valid (Some small_disk)
  /\ inode_blocks (super_of (Some small_disk)) * INODES_PER_BLOCK < 2 ^ 31
  /\ inode_blocks (super_of (Some small_disk)) = 1
  /\ valid (get_inode (block_of (Some small_disk) 1) 0) = 0
  /\ valid (get_inode (block_of (Some small_disk) 1) 1) = 0.
Proof.
  vm_compute. repeat split; try reflexivity; try discriminate. lia.
Qed.

Lemma small_debug_header :
  ["SuperBlock:"; "    magic number is valid";
   "    " +:+ pretty (Z.of_nat (length (image_of (Some small_disk)))) +:+ " blocks";
   "    " +:+ pretty (inode_blocks (super_of (Some small_disk))) +:+ " inode blocks";
   "    " +:+ pretty (inode_blocks (super_of (Some small_disk)) * INODES_PER_BLOCK)
     +:+ " inodes"]
  = ["SuperBlock:"; "    magic number is valid"; "    10 blocks";
     "    1 inode blocks"; "    2 inodes"].
Proof. vm_compute. reflexivity. Qed.

Lemma fs_debug_empty_table_witness :
  super_valid (Some small_disk)
  /\ exists d',
       fs_debug (Some small_disk) empty_block
       = Ok (["SuperBlock:"; "    magic number is valid"; "    10 blocks";
              "    1 inode blocks"; "    2 inodes"], d').
Proof.
  destruct small_disk_empty_table as (Hq & Hlen & Hsv & Hcap & Hib & Hv0 & Hv1).
  split; [exact Hsv|].
  destruct (fs_debug_empty_table (Some small_disk) empty_block small_geometry_ok
              Hq Hlen Hsv Hcap) as (d' & Hdbg & _).
  - intros i j Hi Hj. rewrite Hib in Hi.
    assert (Hi1 : i = 1) by lia.
    assert (Hj01 : j = 0 \/ j = 1) by (change INODES_PER_BLOCK with 2 in Hj; lia).
    subst i. destruct Hj01 as [->| ->]; [exact Hv0|exact Hv1].
  - rewrite small_debug_header in Hdbg. by exists d'.
Defined.

Lemma small_inode_report :
  ["Inode " +:+ pretty (INODES_PER_BLOCK * (1 - 1) + 0) +:+ ":";
   "    size: " +:+ pretty (size (inode_on_disk (disk small_written) 0)) +:+ " bytes";
   "    direct blocks:" +:+
     listing (fun p => pretty (to_int p)) (direct (inode_on_disk (disk small_written) 0));
   "    indirect block: " +:+ pretty (indirect (inode_on_disk (disk small_written) 0));
   "    indirect data blocks:" +:+
     listing pretty
       (take (Z.to_nat INODES_PER_BLOCK)
          (get_pointers (block_of (disk small_written)
                           (indirect (inode_on_disk (disk small_written) 0)))))]
  = ["Inode 0:"; "    size: 40 bytes"; "    direct blocks: 2";
     "    indirect block: 3"; "    indirect data blocks: 4"].
Proof. vm_compute. reflexivity. Qed.

Lemma small_inode_reportable :
  quiet (disk small_written)
  /\ INODES_PER_BLOCK <= POINTERS_PER_BLOCK
  /\ INODES_PER_BLOCK * (1 - 1) + 0 < 2 ^ 31
  /\ valid (inode_on_disk (disk small_written) 0) ≠ 0
  /\ indirect (inode_on_disk (disk small_written) 0) ≠ 0
  /\ 0 <= indirect (inode_on_disk (disk small_written) 0)
       < Z.of_nat (length (image_of (disk small_written))).
Proof. vm_compute. repeat split; try discriminate; reflexivity. Qed.

Lemma fs_debug_inode_report_witness :
  quiet (disk small_written)
  /\ exists d',
       debug_inode 1 0 (inode_on_disk (disk small_written) 0) (disk small_written)
         empty_block
       = Ok (true,
             ["Inode 0:"; "    size: 40 bytes"; "    direct blocks: 2";
              "    indirect block: 3"; "    indirect data blocks: 4"], d').
Proof.
  destruct small_inode_reportable as (Hq & Hle & Hnum & Hv & Hind & Hin).
  split; [exact Hq|].
  destruct (fs_debug_inode_report 1 0 (inode_on_disk (disk small_written) 0)
              (disk small_written) empty_block small_geometry_ok Hq Hle
              ltac:(lia) ltac:(lia) Hnum Hv Hind Hin) as (d' & Hdbg & _).
  rewrite small_inode_report in Hdbg. by exists d'.
Defined.

End Small.
